(** * Chat Spark backend: messaging core

    A shallow embedding of the Socket.IO handlers (sockets/socketHandler.js),
    the message and chat-request controllers and the Mongoose models they
    use, with the properties of the design specification stated over it.

    Conventions of the model:
    - every handler runs to completion before the next one starts (one
      event at a time); interleavings at [await] points are not modelled;
    - a Mongo collection is the list of its documents in insertion order,
      and [_id]s are drawn from a counter of the store;
    - user ids and socket ids are strings, [ObjectId]s of conversations,
      messages and requests are natural numbers;
    - timestamps, message metadata and populated user profiles are left
      out: no handler branches on them;
    - Socket.IO encodes a packet inside [emit], so the payload of an
      emission is the document as it is when [emit] is called. *)

From stdpp Require Import gmap strings list.

Open Scope string_scope.
Open Scope list_scope.
Open Scope nat_scope.

(* ===================================================================== *)
(** ** Data model (models/Message.js, Conversation.js, ChatRequest.js)    *)
(* ===================================================================== *)

Abbreviation UserId := string (only parsing).
Abbreviation SocketId := string (only parsing).
Abbreviation ObjectId := nat (only parsing).

(** [status: enum ['sent', 'delivered', 'read']] *)
Inductive Status := Sent | Delivered | Read.

(** [type: enum ['text', 'image', 'gif', 'sticker']] *)
Inductive MsgType := Text | Image | Gif | Sticker.

(** [status: enum ['pending', 'accepted', 'rejected']] *)
Inductive ReqStatus := Pending | Accepted | Rejected.

#[global] Instance Status_eq_dec : EqDecision Status.
Proof. solve_decision. Defined.

#[global] Instance MsgType_eq_dec : EqDecision MsgType.
Proof. solve_decision. Defined.

#[global] Instance ReqStatus_eq_dec : EqDecision ReqStatus.
Proof. solve_decision. Defined.

(** The order sent < delivered < read of the specification. *)
Definition status_rank (s : Status) : nat :=
  match s with Sent => 0 | Delivered => 1 | Read => 2 end.

Record Message := mkMessage {
  msg_id : ObjectId;
  msg_conversationId : ObjectId;
  msg_sender : UserId;
  msg_receiver : UserId;
  msg_type : MsgType;
  msg_content : string;
  msg_status : Status;
  msg_isDeleted : bool
}.

Record Conversation := mkConversation {
  conv_id : ObjectId;
  participants : list UserId;
  lastMessage : option ObjectId;
  unreadCount : gmap string nat
}.

Record ChatRequest := mkChatRequest {
  req_id : ObjectId;
  req_sender : UserId;
  req_receiver : UserId;
  req_status : ReqStatus;
  req_message : string
}.

(** The two fields of a User document that the socket layer writes. *)
Record User := mkUser {
  isOnline : bool;
  socketId : option SocketId
}.

Definition set_status (st : Status) (m : Message) : Message :=
  mkMessage (msg_id m) (msg_conversationId m) (msg_sender m) (msg_receiver m)
            (msg_type m) (msg_content m) st (msg_isDeleted m).

Definition set_lastMessage (mid : ObjectId) (c : Conversation) : Conversation :=
  mkConversation (conv_id c) (participants c) (Some mid) (unreadCount c).

Definition set_unread (u : UserId) (n : nat) (c : Conversation) : Conversation :=
  mkConversation (conv_id c) (participants c) (lastMessage c)
                 (<[u := n]> (unreadCount c)).

Definition set_req_status (st : ReqStatus) (r : ChatRequest) : ChatRequest :=
  mkChatRequest (req_id r) (req_sender r) (req_receiver r) st (req_message r).

(** The durable store. *)
Record Db := mkDb {
  conversations : list Conversation;
  messages : list Message;
  requests : list ChatRequest;
  users : gmap string User;
  next_id : ObjectId
}.

Definition with_conversations (cs : list Conversation) (d : Db) : Db :=
  mkDb cs (messages d) (requests d) (users d) (next_id d).

Definition with_messages (ms : list Message) (d : Db) : Db :=
  mkDb (conversations d) ms (requests d) (users d) (next_id d).

Definition with_requests (rs : list ChatRequest) (d : Db) : Db :=
  mkDb (conversations d) (messages d) rs (users d) (next_id d).

Definition with_users (us : gmap string User) (d : Db) : Db :=
  mkDb (conversations d) (messages d) (requests d) us (next_id d).

Definition bump_id (d : Db) : Db :=
  mkDb (conversations d) (messages d) (requests d) (users d) (S (next_id d)).

(* ===================================================================== *)
(** ** Store operations: state passing with exceptions                    *)
(* ===================================================================== *)

(** A store call either returns or throws; what was written before a throw
    stays written (there is no transaction around a handler). *)
Inductive Outcome (A : Type) := Ok (a : A) | Throw.
Arguments Ok {A} a.
Arguments Throw {A}.

Definition Op (A : Type) : Type := Db → Outcome A * Db.

Definition ret {A} (a : A) : Op A := λ d, (Ok a, d).

Definition throw {A} : Op A := λ d, (Throw, d).

Definition bind {A B} (m : Op A) (k : A → Op B) : Op B :=
  λ d, match m d with
       | (Ok a, d') => k a d'
       | (Throw, d') => (Throw, d')
       end.

Notation "x ←! m ;; k" := (bind m (λ x, k))
  (at level 100, m at next level, right associativity).
Notation "m ;;! k" := (bind m (λ _, k))
  (at level 100, right associativity).

(** Lookup of a document by [_id], and replacement of the document stored
    under the [_id] of [x] by [x]. *)
Definition find_by {A} (key : A → ObjectId) (id : ObjectId) (l : list A)
    : option A :=
  List.find (λ x, bool_decide (key x = id)) l.

Definition replace_by {A} (key : A → ObjectId) (x : A) (l : list A) : list A :=
  map (λ y, if bool_decide (key y = key x) then x else y) l.

(** [Model.findById(id)]: the document or null. *)
Definition Conversation_findById (id : ObjectId) : Op (option Conversation) :=
  λ d, (Ok (find_by conv_id id (conversations d)), d).

(** The filter [{ participants: { $all: [a, b] } }]. *)
Definition all_in (a b : UserId) (c : Conversation) : bool :=
  bool_decide (a ∈ participants c) && bool_decide (b ∈ participants c).

Definition Conversation_findOne_all (a b : UserId) : Op (option Conversation) :=
  λ d, (Ok (List.find (all_in a b) (conversations d)), d).

(** [Conversation.create({ participants })]: the schema validator asks
    for exactly two participants; [lastMessage] defaults to null and
    [unreadCount] to the empty map. The index on [participants] is not
    unique, so no duplicate-key error can arise here. *)
Definition Conversation_create (ps : list UserId) : Op Conversation :=
  λ d, if bool_decide (length ps = 2)
       then let c := mkConversation (next_id d) ps None ∅ in
            (Ok c, bump_id (with_conversations (conversations d ++ [c]) d))
       else (Throw, d).

(** [conversation.save()]: writes the document back under its [_id]. *)
Definition Conversation_save (c : Conversation) : Op unit :=
  λ d, (Ok tt,
        with_conversations (replace_by conv_id c (conversations d)) d).

(** The [enum] validator of [type]. *)
Definition parse_type (s : string) : option MsgType :=
  if String.eqb s "text" then Some Text
  else if String.eqb s "image" then Some Image
  else if String.eqb s "gif" then Some Gif
  else if String.eqb s "sticker" then Some Sticker
  else None.

(** [Message.create({...})]: validation of [type] (enum) and [content]
    (required, so not the empty string), then insertion. *)
Definition Message_create (cid : ObjectId) (s r : UserId) (ty content : string)
    (st : Status) : Op Message :=
  λ d, match parse_type ty with
       | Some t =>
           if String.eqb content "" then (Throw, d)
           else let m := mkMessage (next_id d) cid s r t content st false in
                (Ok m, bump_id (with_messages (messages d ++ [m]) d))
       | None => (Throw, d)
       end.

(** [message.save()] *)
Definition Message_save (m : Message) : Op unit :=
  λ d, (Ok tt, with_messages (replace_by msg_id m (messages d)) d).

Definition Message_findById (id : ObjectId) (d : Db) : option Message :=
  find_by msg_id id (messages d).

(** [Message.findByIdAndUpdate(id, { status }, { new: true })]: sets the
    status of the document with that id, whatever it was, and returns the
    updated document, or null when there is none. *)
Definition Message_findByIdAndUpdate (id : ObjectId) (st : Status)
    : Op (option Message) :=
  λ d, match Message_findById id d with
       | Some m => let m' := set_status st m in
                   let '(_, d') := Message_save m' d in (Ok (Some m'), d')
       | None => (Ok None, d)
       end.

(** [Message.updateMany(filter, { status })] *)
Definition Message_updateMany (filter : Message → bool) (st : Status)
    : Op nat :=
  λ d, (Ok (length (List.filter filter (messages d))),
        with_messages
          (map (λ m, if filter m then set_status st m else m) (messages d)) d).

(** [Message.find(filter)] *)
Definition Message_find (filter : Message → bool) (d : Db) : list Message :=
  List.filter filter (messages d).

(* ===================================================================== *)
(** ** Socket layer (sockets/socketHandler.js)                            *)
(* ===================================================================== *)

(** An authenticated socket: [socket.id] and [socket.userId]. *)
Record Session := mkSession {
  sock_id : SocketId;
  sock_user : UserId
}.

(** Server-to-client events of the handlers modelled here, with their
    payloads (the typing and chat-request relays touch neither the store
    nor the registry and are left out). *)
Inductive Event :=
| message_error (error : string)
| message_sent (message : Message) (conversationId : ObjectId)
| receive_message (message : Message) (conversationId : ObjectId)
| message_status_updated (messageId : ObjectId) (status : Status)
| messages_read (conversationId : ObjectId) (readBy : UserId)
| user_online (userId : UserId)
| user_offline (userId : UserId).

(** Where an emission goes: [socket.emit] (the handling socket),
    [io.to(room).emit], or [socket.broadcast.emit] (every socket but the
    handling one). *)
Inductive Target :=
| ToSocket (s : SocketId)
| ToRoom (room : string)
| Broadcast (except : SocketId).

Definition Emission : Type := Target * Event.

(** Every socket is in the room of its own id, and the connection handler
    joins it to the room named after its user. *)
Definition reaches (t : Target) (s : Session) : bool :=
  match t with
  | ToSocket i => String.eqb i (sock_id s)
  | ToRoom r => String.eqb r (sock_id s) || String.eqb r (sock_user s)
  | Broadcast e => negb (String.eqb e (sock_id s))
  end.

(** What a given session receives out of a list of emissions. *)
Definition inbox (s : Session) (es : list Emission) : list Event :=
  map snd (List.filter (λ e, reaches (fst e) s) es).

(** [const connectedUsers = new Map()], "{ userId: socketId }": one
    socket id per user. *)
Record Server := mkServer {
  db : Db;
  connectedUsers : gmap string string
}.

Definition with_db (d : Db) (srv : Server) : Server :=
  mkServer d (connectedUsers srv).

(** JavaScript truthiness of a value read from [connectedUsers]: absent
    ([undefined]) and the empty string are falsy. *)
Definition truthy_socket (o : option SocketId) : option SocketId :=
  match o with
  | Some s => if String.eqb s "" then None else Some s
  | None => None
  end.

(** [User.findByIdAndUpdate(userId, {...})] *)
Definition User_update (u : UserId) (usr : User) (d : Db) : Db :=
  match users d !! u with
  | Some _ => with_users (<[u := usr]> (users d)) d
  | None => d
  end.

(** [io.on('connection', ...)] *)
Definition connection (s : Session) (srv : Server) : Server * list Emission :=
  let userId := sock_user s in
  (mkServer (User_update userId (mkUser true (Some (sock_id s))) (db srv))
            (<[userId := sock_id s]> (connectedUsers srv)),
   [(Broadcast (sock_id s), user_online userId)]).

(** [socket.on('disconnect', ...)] *)
Definition disconnect (s : Session) (srv : Server) : Server * list Emission :=
  let userId := sock_user s in
  (mkServer (User_update userId (mkUser false None) (db srv))
            (delete userId (connectedUsers srv)),
   [(Broadcast (sock_id s), user_offline userId)]).

(** The payload of [send_message]; a field the client left out is [None]. *)
Record SendData := mkSendData {
  d_receiverId : option UserId;
  d_type : option string;
  d_content : option string;
  d_conversationId : option ObjectId
}.

(** "Find or create conversation": by id when the client names one, else
    by the pair, creating it when the lookup comes back empty. This is
    the lookup and the create of a handler that no other handler
    interrupts; [send_message_lookup] and [send_message_resume] below
    take the two apart at the [await] between them. *)
Definition resolve_conversation (senderId receiverId : UserId)
    (conversationId : option ObjectId) : Op (option Conversation) :=
  match conversationId with
  | Some cid => Conversation_findById cid
  | None =>
      (found ←! Conversation_findOne_all senderId receiverId ;;
       match found with
       | Some c => ret (Some c)
       | None => (c ←! Conversation_create [senderId; receiverId] ;;
                  ret (Some c))
       end)
  end.

(** The [try] block of the [send_message] handler, after the check of the
    required fields. *)
Definition send_message_try (cu : gmap string string) (s : Session)
    (receiverId type content : string) (conversationId : option ObjectId)
    : Op (list Emission) :=
  let senderId := sock_user s in
  (conversation ←!
     resolve_conversation senderId receiverId conversationId ;;
   match conversation with
   | None => throw (* conversation._id of null *)
   | Some conversation =>
       (message ←! Message_create (conv_id conversation) senderId receiverId
                     type content Sent ;;
        let currentUnread :=
          default 0 (unreadCount conversation !! receiverId) in
        let conversation :=
          set_unread receiverId (currentUnread + 1)
            (set_lastMessage (msg_id message) conversation) in
        (Conversation_save conversation ;;!
         match truthy_socket (cu !! receiverId) with
         | Some receiverSocketId =>
             let pushed :=
               (ToRoom receiverSocketId,
                receive_message message (conv_id conversation)) in
             let message := set_status Delivered message in
             (Message_save message ;;!
              ret [pushed;
                   (ToSocket (sock_id s),
                    message_sent message (conv_id conversation))])
         | None =>
             ret [(ToSocket (sock_id s),
                   message_sent message (conv_id conversation))]
         end))
   end).

Definition falsy (o : option string) : bool :=
  match o with
  | Some s => String.eqb s ""
  | None => true
  end.

(** [socket.on('send_message', ...)] *)
Definition send_message (s : Session) (data : SendData) (srv : Server)
    : Server * list Emission :=
  if falsy (d_receiverId data) || falsy (d_type data)
     || falsy (d_content data)
  then (srv, [(ToSocket (sock_id s), message_error "Missing required fields")])
  else
    match send_message_try (connectedUsers srv) s
            (default "" (d_receiverId data)) (default "" (d_type data))
            (default "" (d_content data)) (d_conversationId data) (db srv) with
    | (Ok es, d') => (with_db d' srv, es)
    | (Throw, d') =>
        (with_db d' srv,
         [(ToSocket (sock_id s), message_error "Failed to send message")])
    end.

(** The handlers are [async] functions: at an [await] a handler yields,
    and other handlers run before it resumes. On the pair branch
    [Conversation.findOne] and [Conversation.create] are two awaited
    calls. The next definitions are the handler up to the answer of the
    first, and the handler resumed with that answer on the store of the
    moment it resumes. *)
Definition send_message_lookup (s : Session) (data : SendData) (d : Db)
    : option Conversation :=
  List.find (all_in (sock_user s) (default "" (d_receiverId data)))
            (conversations d).

(** The [try] block from the test [if (!conversation)] on. *)
Definition send_message_resume (cu : gmap string string) (s : Session)
    (receiverId type content : string) (found : option Conversation)
    : Op (list Emission) :=
  let senderId := sock_user s in
  (conversation ←!
     match found with
     | Some c => ret c
     | None => Conversation_create [senderId; receiverId]
     end ;;
   message ←! Message_create (conv_id conversation) senderId receiverId
                type content Sent ;;
   let currentUnread :=
     default 0 (unreadCount conversation !! receiverId) in
   let conversation :=
     set_unread receiverId (currentUnread + 1)
       (set_lastMessage (msg_id message) conversation) in
   (Conversation_save conversation ;;!
    match truthy_socket (cu !! receiverId) with
    | Some receiverSocketId =>
        let pushed :=
          (ToRoom receiverSocketId,
           receive_message message (conv_id conversation)) in
        let message := set_status Delivered message in
        (Message_save message ;;!
         ret [pushed;
              (ToSocket (sock_id s),
               message_sent message (conv_id conversation))])
    | None =>
        ret [(ToSocket (sock_id s),
              message_sent message (conv_id conversation))]
    end)).

(** The handler of a payload that passed the check of the required
    fields and names no conversation, resumed after its lookup. *)
Definition send_message_resumed (s : Session) (data : SendData)
    (found : option Conversation) (srv : Server) : Server * list Emission :=
  match send_message_resume (connectedUsers srv) s
          (default "" (d_receiverId data)) (default "" (d_type data))
          (default "" (d_content data)) found (db srv) with
  | (Ok es, d') => (with_db d' srv, es)
  | (Throw, d') =>
      (with_db d' srv,
       [(ToSocket (sock_id s), message_error "Failed to send message")])
  end.

(** [socket.on('message_delivered', ...)] *)
Definition message_delivered (s : Session) (messageId : ObjectId)
    (srv : Server) : Server * list Emission :=
  match Message_findByIdAndUpdate messageId Delivered (db srv) with
  | (Ok (Some message), d') =>
      (with_db d' srv,
       match truthy_socket (connectedUsers srv !! msg_sender message) with
       | Some senderSocketId =>
           [(ToRoom senderSocketId,
             message_status_updated messageId Delivered)]
       | None => []
       end)
  | (_, d') => (with_db d' srv, [])
  end.

(** The payload of [message_read]: [{ messageId }] or [{ conversationId }]. *)
Record ReadData := mkReadData {
  rd_messageId : option ObjectId;
  rd_conversationId : option ObjectId
}.

(** The filter of the conversation form of a read mark. *)
Definition unread_for (conversationId : ObjectId) (userId : UserId)
    (m : Message) : bool :=
  bool_decide (msg_conversationId m = conversationId)
  && bool_decide (msg_receiver m = userId)
  && (bool_decide (msg_status m = Sent)
      || bool_decide (msg_status m = Delivered)).

Definition received_in (conversationId : ObjectId) (userId : UserId)
    (m : Message) : bool :=
  bool_decide (msg_conversationId m = conversationId)
  && bool_decide (msg_receiver m = userId).

(** The filter of the history endpoint: addressed to the caller in that
    conversation and still sent. *)
Definition sent_to (conversationId : ObjectId) (userId : UserId)
    (m : Message) : bool :=
  bool_decide (msg_conversationId m = conversationId)
  && bool_decide (msg_receiver m = userId)
  && bool_decide (msg_status m = Sent).

(** [socket.on('message_read', ...)] *)
Definition message_read (s : Session) (data : ReadData) (srv : Server)
    : Server * list Emission :=
  let userId := sock_user s in
  match rd_messageId data, rd_conversationId data with
  | Some messageId, _ =>
      match Message_findByIdAndUpdate messageId Read (db srv) with
      | (Ok (Some message), d') =>
          (with_db d' srv,
           match truthy_socket (connectedUsers srv !! msg_sender message) with
           | Some senderSocketId =>
               [(ToRoom senderSocketId,
                 message_status_updated messageId Read)]
           | None => []
           end)
      | (_, d') => (with_db d' srv, [])
      end
  | None, Some conversationId =>
      let '(_, d') :=
        Message_updateMany (unread_for conversationId userId) Read (db srv) in
      let messages := Message_find (received_in conversationId userId) d' in
      (with_db d' srv,
       omap (λ msg,
               match truthy_socket (connectedUsers srv !! msg_sender msg) with
               | Some senderSocketId =>
                   Some (ToRoom senderSocketId,
                         messages_read conversationId userId)
               | None => None
               end) messages)
  | None, None => (srv, [])
  end.

(* ===================================================================== *)
(** ** HTTP controllers (messageController.js, requestController.js)      *)
(* ===================================================================== *)

(** [sendSuccess(res, code, message, data)] and
    [sendError(res, code, message)] of utils/response.js. *)
Inductive Response (A : Type) :=
| sendSuccess (statusCode : nat) (message : string) (data : A)
| sendError (statusCode : nat) (message : string).
Arguments sendSuccess {A} statusCode message data.
Arguments sendError {A} statusCode message.

(** [conversation.participants.some(p => p.toString() === userId.toString())] *)
Definition isParticipant (userId : UserId) (c : Conversation) : bool :=
  existsb (λ p, String.eqb p userId) (participants c).

Record Pagination := mkPagination {
  currentPage : Z;
  totalPages : option Z;
  totalMessages : nat;
  hasMore : bool
}.

Record MessagesData := mkMessagesData {
  md_messages : list Message;
  md_pagination : Pagination
}.

(** [.sort({ createdAt: -1 }).skip(skip).limit(limit)] on the messages of
    a conversation: most recent first (the collection is kept in creation
    order). A limit of 0 means no limit, and the driver takes a negative
    limit by its absolute value. *)
Definition recent_page (conversationId : ObjectId) (skip limit : Z)
    (d : Db) : list Message :=
  let sorted :=
    rev (Message_find
           (λ m, bool_decide (msg_conversationId m = conversationId)) d) in
  let skipped := drop (Z.to_nat skip) sorted in
  if bool_decide (limit = 0%Z) then skipped
  else take (Z.abs_nat limit) skipped.

(** [Math.ceil(totalMessages / limit)], which is no integer for limit 0. *)
Definition ceil_div (n limit : Z) : option Z :=
  if bool_decide (limit = 0%Z) then None
  else Some (- ((- n) / limit))%Z.

(** [GET /api/messages/:conversationId], with [page] and [limit] the
    query parameters after [parseInt] (defaults 1 and 50). The store
    rejects a negative [skip], which the [catch] turns into a 500 before
    any update is made. The controller has no access to the socket
    server. *)
Definition getMessages (conversationId : ObjectId) (userId : UserId)
    (page limit : Z) (d : Db) : Response MessagesData * Db :=
  match Conversation_findById conversationId d with
  | (Ok None, _) => (sendError 404 "Conversation not found", d)
  | (Ok (Some conversation), _) =>
      if negb (isParticipant userId conversation)
      then (sendError 403 "Not authorized to access these messages", d)
      else
        let skip := ((page - 1) * limit)%Z in
        if (skip <? 0)%Z
        then (sendError 500 "Error retrieving messages", d)
        else
          let messages := recent_page conversationId skip limit d in
          let totalMessages :=
            length (Message_find
                      (λ m, bool_decide (msg_conversationId m = conversationId))
                      d) in
          let '(_, d') :=
            Message_updateMany (sent_to conversationId userId) Delivered d in
          (sendSuccess 200 "Messages retrieved successfully"
             (mkMessagesData (rev messages)
                (mkPagination page
                   (ceil_div (Z.of_nat totalMessages) limit) totalMessages
                   (skip + Z.of_nat (length messages)
                    <? Z.of_nat totalMessages)%Z)),
           d')
  | (Throw, _) => (sendError 500 "Error retrieving messages", d)
  end.

(** [PUT /api/messages/:conversationId/read]; the data is
    [{ updatedCount }]. *)
Definition markMessagesAsRead (conversationId : ObjectId) (userId : UserId)
    (d : Db) : Response nat * Db :=
  match Conversation_findById conversationId d with
  | (Ok None, _) => (sendError 404 "Conversation not found", d)
  | (Ok (Some conversation), _) =>
      if negb (isParticipant userId conversation)
      then (sendError 403 "Not authorized", d)
      else
        let '(result, d1) :=
          Message_updateMany (unread_for conversationId userId) Read d in
        let '(_, d2) :=
          Conversation_save (set_unread userId 0 conversation) d1 in
        (sendSuccess 200 "Messages marked as read"
           (match result with Ok n => n | Throw => 0 end), d2)
  | (Throw, _) => (sendError 500 "Error marking messages as read", d)
  end.

Definition ChatRequest_findById (id : ObjectId) (d : Db) : option ChatRequest :=
  find_by req_id id (requests d).

(** [chatRequest.save()] *)
Definition ChatRequest_save (r : ChatRequest) (d : Db) : Db :=
  with_requests (replace_by req_id r (requests d)) d.

(** [PUT /api/requests/:requestId/accept]; the data is the request and the
    conversation that was created. *)
Definition acceptRequest (requestId : ObjectId) (userId : UserId) (d : Db)
    : Response (ChatRequest * Conversation) * Db :=
  match ChatRequest_findById requestId d with
  | None => (sendError 404 "Request not found", d)
  | Some chatRequest =>
      if negb (String.eqb (req_receiver chatRequest) userId)
      then (sendError 403 "Not authorized to accept this request", d)
      else if negb (bool_decide (req_status chatRequest = Pending))
      then (sendError 400 "Request already processed", d)
      else
        let chatRequest := set_req_status Accepted chatRequest in
        let d1 := ChatRequest_save chatRequest d in
        match Conversation_create
                [req_sender chatRequest; req_receiver chatRequest] d1 with
        | (Ok conversation, d2) =>
            (sendSuccess 200 "Request accepted successfully"
               (chatRequest, conversation), d2)
        | (Throw, d2) => (sendError 500 "Error accepting request", d2)
        end
  end.

(** An HTTP request against the running server. The controllers work on
    the store alone and hold no reference to [io]: they emit nothing. *)
Definition http {A} (controller : Db → Response A * Db) (srv : Server)
    : Response A * Server * list Emission :=
  let '(res, d') := controller (db srv) in (res, with_db d' srv, []).

(* ===================================================================== *)
(** ** Store invariant                                                   *)
(* ===================================================================== *)

(** Ids handed out so far lie below the counter of the store, and no two
    conversations share an id. *)
Record db_wf (d : Db) : Prop := mk_db_wf {
  wf_conversations : Forall (λ c, conv_id c < next_id d) (conversations d);
  wf_messages : Forall (λ m, msg_id m < next_id d) (messages d);
  wf_requests : Forall (λ r, req_id r < next_id d) (requests d);
  wf_conv_ids : NoDup (map conv_id (conversations d))
}.

(** At most one conversation holds a given pair of distinct users. *)
Definition pairs_unique (cs : list Conversation) : Prop :=
  ∀ a b, a ≠ b → length (List.filter (all_in a b) cs) ≤ 1.

(* ===================================================================== *)
(** ** Events in sequence                                                 *)
(* ===================================================================== *)

(** The running server together with the sockets that are connected. *)
Record World := mkWorld {
  server : Server;
  live : list Session
}.

Inductive Input :=
| Connect (s : Session)
| Disconnect (s : Session)
| SendMessage (s : Session) (data : SendData)
| MessageDelivered (s : Session) (messageId : nat)
| MessageRead (s : Session) (data : ReadData)
| GetMessages (conversationId : nat) (userId : UserId) (page limit : Z)
| MarkMessagesAsRead (conversationId : nat) (userId : UserId)
| AcceptRequest (requestId : nat) (userId : UserId).

Definition without (s : Session) (l : list Session) : list Session :=
  List.filter (λ x, negb (String.eqb (sock_id x) (sock_id s))) l.

Definition handle (i : Input) (w : World) : World * list Emission :=
  match i with
  | Connect s =>
      let '(srv, es) := connection s (server w) in
      (mkWorld srv (live w ++ [s]), es)
  | Disconnect s =>
      let '(srv, es) := disconnect s (server w) in
      (mkWorld srv (without s (live w)), es)
  | SendMessage s data =>
      let '(srv, es) := send_message s data (server w) in
      (mkWorld srv (live w), es)
  | MessageDelivered s messageId =>
      let '(srv, es) := message_delivered s messageId (server w) in
      (mkWorld srv (live w), es)
  | MessageRead s data =>
      let '(srv, es) := message_read s data (server w) in
      (mkWorld srv (live w), es)
  | GetMessages conversationId userId page limit =>
      let '(_, srv, es) :=
        http (getMessages conversationId userId page limit) (server w) in
      (mkWorld srv (live w), es)
  | MarkMessagesAsRead conversationId userId =>
      let '(_, srv, es) :=
        http (markMessagesAsRead conversationId userId) (server w) in
      (mkWorld srv (live w), es)
  | AcceptRequest requestId userId =>
      let '(_, srv, es) := http (acceptRequest requestId userId) (server w) in
      (mkWorld srv (live w), es)
  end.





(* ===================================================================== *)
(** ** Vocabulary of the statements                                      *)
(* ===================================================================== *)

(** A payload that passes the check of the required fields and the
    validators of the Message schema. *)
Record valid_fields (data : SendData) (r ty c : string) (t : MsgType)
    : Prop := mk_valid_fields {
  vf_receiver : d_receiverId data = Some r;
  vf_receiver_ne : r ≠ "";
  vf_type : d_type data = Some ty;
  vf_enum : parse_type ty = Some t;
  vf_content : d_content data = Some c;
  vf_content_ne : c ≠ ""
}.

(** The document [Message.create] inserts for a send that reached it. *)
Definition new_message (s : Session) (r : UserId) (t : MsgType) (c : string)
    (conv : Conversation) (d1 : Db) : Message :=
  mkMessage (next_id d1) (conv_id conv) (sock_user s) r t c Sent false.

(** The conversation as the handler saves it. *)
Definition touched (r : UserId) (m : Message) (conv : Conversation)
    : Conversation :=
  set_unread r (default 0 (unreadCount conv !! r) + 1)
    (set_lastMessage (msg_id m) conv).

(** The store after the message was inserted and the conversation saved. *)
Definition after_send (conv' : Conversation) (m : Message) (d1 : Db) : Db :=
  with_conversations (replace_by conv_id conv' (conversations d1))
    (bump_id (with_messages (messages d1 ++ [m]) d1)).

Definition after_delivery (m : Message) (d : Db) : Db :=
  with_messages (replace_by msg_id (set_status Delivered m) (messages d)) d.

(** A conversation id, when the client supplies one, names a stored
    conversation. *)
Definition names_conversation (data : SendData) (d : Db) : Prop :=
  ∀ cid, d_conversationId data = Some cid →
         is_Some (find_by conv_id cid (conversations d)).

Definition is_receive_message (e : Event) : bool :=
  match e with receive_message _ _ => true | _ => false end.

(** The [receive_message] events among what a session receives. *)
Definition pushes (s : Session) (es : list Emission) : list Event :=
  List.filter is_receive_message (inbox s es).

(** A sequence of inputs, handled one after the other. *)
Fixpoint run (ins : list Input) (w : World) : World :=
  match ins with
  | [] => w
  | i :: ins' => run ins' (fst (handle i w))
  end.


(** What one input does to the socket held for [u]: a connection of [u]
    puts its socket there, a disconnect of any socket of [u] empties it. *)
Definition registered_step (u : UserId) (cur : option SocketId) (i : Input)
    : option SocketId :=
  match i with
  | Connect s => if String.eqb (sock_user s) u then Some (sock_id s) else cur
  | Disconnect s => if String.eqb (sock_user s) u then None else cur
  | _ => cur
  end.

(** The socket of the last connection of [u] among the inputs, unless a
    socket of [u] disconnected after it. *)
Definition last_registered (u : UserId) (ins : list Input)
    : option SocketId :=
  foldl (registered_step u) None ins.



(** The rows both read marks rewrite. *)
Definition mark_read (conversationId : nat) (userId : UserId)
    (ms : list Message) : list Message :=
  map (λ m, if unread_for conversationId userId m
            then set_status Read m else m) ms.

(* ===================================================================== *)
(** ** A small scenario                                                   *)
(* ===================================================================== *)

Module Scenario.

Definition alice : UserId := "alice".
Definition bob : UserId := "bob".
Definition carol : UserId := "carol".

Definition a1 : Session := mkSession "sock-a1" alice.
Definition b1 : Session := mkSession "sock-b1" bob.
Definition b2 : Session := mkSession "sock-b2" bob.
Definition b3 : Session := mkSession "sock-b3" bob.
Definition c1 : Session := mkSession "sock-c1" carol.

Definition offline : User := mkUser false None.

Definition db0 : Db :=
  mkDb [] [] []
       (<[alice := offline]> (<[bob := offline]> (<[carol := offline]> ∅))) 0.

Definition srv0 : Server := mkServer db0 ∅.

Definition hi (to : UserId) : SendData :=
  mkSendData (Some to) (Some "text") (Some "hi") None.

End Scenario.

Module Trace.
Import Scenario.

(** alice sends "hi" to bob, who is not connected: conversation 0,
    message 1 with status sent, one unread message for bob. *)
Definition srv_sent : Server := fst (send_message a1 (hi bob) srv0).

(** alice and bob are connected, alice sends "hi": message 1 is delivered. *)
Definition srv_online : Server :=
  fst (connection b1 (fst (connection a1 srv0))).

Definition es_online : list Emission :=
  snd (send_message a1 (hi bob) srv_online).

Definition srv_delivered : Server := fst (send_message a1 (hi bob) srv_online).



(** The same as a sequence of inputs from process start. *)
Definition w0 : World := mkWorld srv0 [].


(** alice and bob connect, then bob connects a second time. *)
Definition ins_two_sessions : list Input :=
  [Connect a1; Connect b1; Connect b2].

(** A third session of bob connects and disconnects again. *)
Definition ins_come_and_gone : list Input :=
  ins_two_sessions ++ [Connect b3; Disconnect b3].

(** bob marks message 1 read. *)
Definition srv_read : Server :=
  fst (message_read b1 (mkReadData (Some 1) None) srv_delivered).

(** alice has sent bob a chat request, still pending, after they have
    already exchanged a message. *)
Definition db_requested : Db :=
  bump_id (with_requests [mkChatRequest 2 alice bob Pending ""] (db srv_sent)).

(** A payload whose type is outside the enum. *)
Definition video : SendData :=
  mkSendData (Some bob) (Some "video") (Some "hi") None.

(** carol, a stranger to conversation 0, names it in her payload. *)
Definition intrusion : SendData :=
  mkSendData (Some bob) (Some "text") (Some "psst") (Some 0).

End Trace.

(* ===================================================================== *)
(** ** The rest of the socket layer                                       *)
(* ===================================================================== *)

(** The handshake middleware [io.use(...)]. [verifyToken] (utils/token.js)
    is taken as a parameter: it gives the user id of the decoded token,
    or [None] where it throws. *)
Inductive Handshake :=
| Authenticated (userId : UserId)
| Refused (error : string).

Definition socket_auth (verifyToken : string → option UserId)
    (token : option string) (d : Db) : Handshake :=
  if falsy token
  then Refused "Authentication error: No token provided"
  else
    match verifyToken (default "" token) with
    | Some id =>
        match users d !! id with
        | Some _ => Authenticated id
        | None => Refused "Authentication error: User not found"
        end
    | None => Refused "Authentication error: Invalid token"
    end.







(* ===================================================================== *)
(** ** The rest of the models and controllers                             *)
(* ===================================================================== *)

(** [conversationSchema.methods.getOtherParticipant] *)
Definition getOtherParticipant (userId : UserId) (c : Conversation)
    : option UserId :=
  List.find (λ participant, negb (String.eqb participant userId))
            (participants c).

(** The soft delete of [deleteMessage]: flag and deletion marker. *)
Definition set_deleted (m : Message) : Message :=
  mkMessage (msg_id m) (msg_conversationId m) (msg_sender m) (msg_receiver m)
            (msg_type m) "This message was deleted" (msg_status m) true.

(** [DELETE /api/messages/:messageId] *)
Definition deleteMessage (messageId : ObjectId) (userId : UserId) (d : Db)
    : Response Message * Db :=
  match Message_findById messageId d with
  | None => (sendError 404 "Message not found", d)
  | Some message =>
      if negb (String.eqb (msg_sender message) userId)
      then (sendError 403 "Not authorized to delete this message", d)
      else
        let message := set_deleted message in
        let '(_, d') := Message_save message d in
        (sendSuccess 200 "Message deleted successfully" message, d')
  end.

(** [GET /api/conversations/:conversationId] *)
Definition getConversation (conversationId : ObjectId) (userId : UserId)
    (d : Db) : Response Conversation * Db :=
  match Conversation_findById conversationId d with
  | (Ok None, _) => (sendError 404 "Conversation not found", d)
  | (Ok (Some conversation), _) =>
      if negb (isParticipant userId conversation)
      then (sendError 403 "Not authorized to access this conversation", d)
      else (sendSuccess 200 "Conversation retrieved successfully" conversation,
            d)
  | (Throw, _) => (sendError 500 "Error retrieving conversation", d)
  end.

(** [Message.deleteMany({ conversationId })] *)
Definition Message_deleteMany (conversationId : ObjectId) (d : Db) : Db :=
  with_messages
    (List.filter
       (λ m, negb (bool_decide (msg_conversationId m = conversationId)))
       (messages d)) d.

(** Removal of the document stored under an [_id]. *)
Fixpoint remove_by {A} (key : A → ObjectId) (id : ObjectId) (l : list A)
    : list A :=
  match l with
  | [] => []
  | x :: l' => if bool_decide (key x = id) then l'
               else x :: remove_by key id l'
  end.

(** [Conversation.findByIdAndDelete(id)] *)
Definition Conversation_findByIdAndDelete (id : ObjectId) (d : Db) : Db :=
  with_conversations (remove_by conv_id id (conversations d)) d.

(** [DELETE /api/conversations/:conversationId] *)
Definition deleteConversation (conversationId : ObjectId) (userId : UserId)
    (d : Db) : Response unit * Db :=
  match Conversation_findById conversationId d with
  | (Ok None, _) => (sendError 404 "Conversation not found", d)
  | (Ok (Some conversation), _) =>
      if negb (isParticipant userId conversation)
      then (sendError 403 "Not authorized to delete this conversation", d)
      else
        let d1 := Message_deleteMany conversationId d in
        let d2 := Conversation_findByIdAndDelete conversationId d1 in
        (sendSuccess 200 "Conversation deleted successfully" tt, d2)
  | (Throw, _) => (sendError 500 "Error deleting conversation", d)
  end.

(** The filter [$or: [{sender: a, receiver: b}, {sender: b, receiver: a}]]. *)
Definition between (a b : UserId) (r : ChatRequest) : bool :=
  (String.eqb (req_sender r) a && String.eqb (req_receiver r) b)
  || (String.eqb (req_sender r) b && String.eqb (req_receiver r) a).

(** The key of the unique index [{ sender: 1, receiver: 1 }]. *)
Definition same_key (x y : ChatRequest) : bool :=
  String.eqb (req_sender x) (req_sender y)
  && String.eqb (req_receiver x) (req_receiver y).

(** The validator [maxlength: 200] of the request message. *)
Definition message_fits (msg : string) : bool :=
  String.length msg <=? 200.

(** [ChatRequest.create({ sender, receiver, message })]: the status
    defaults to pending; a second document with the same sender and
    receiver violates the unique index. *)
Definition ChatRequest_create (s r : UserId) (msg : string) : Op ChatRequest :=
  λ d, let x := mkChatRequest (next_id d) s r Pending msg in
       if negb (message_fits msg) then (Throw, d)
       else if existsb (same_key x) (requests d) then (Throw, d)
       else (Ok x, bump_id (with_requests (requests d ++ [x]) d)).

(** [existingRequest.save()] after sender, receiver and message were
    assigned: the validator and the unique index apply again (the index
    against the other documents). *)
Definition ChatRequest_resave (x : ChatRequest) : Op unit :=
  λ d, if negb (message_fits (req_message x)) then (Throw, d)
       else if existsb (λ y, same_key x y
                             && negb (bool_decide (req_id y = req_id x)))
                       (requests d)
       then (Throw, d)
       else (Ok tt, ChatRequest_save x d).

(** [POST /api/requests/send]; [message] is the optional body field. *)
Definition sendChatRequest (senderId receiverId : UserId)
    (message : option string) (d : Db) : Response ChatRequest * Db :=
  if String.eqb senderId receiverId
  then (sendError 400 "Cannot send request to yourself", d)
  else
    match users d !! receiverId with
    | None => (sendError 404 "User not found", d)
    | Some _ =>
        let text := if falsy message then "" else default "" message in
        match List.find (between senderId receiverId) (requests d) with
        | Some existingRequest =>
            match req_status existingRequest with
            | Pending => (sendError 400 "Request already pending", d)
            | Accepted => (sendError 400 "Already connected with this user", d)
            | Rejected =>
                let existingRequest :=
                  mkChatRequest (req_id existingRequest) senderId receiverId
                                Pending text in
                match ChatRequest_resave existingRequest d with
                | (Ok _, d') =>
                    (sendSuccess 200 "Request resent successfully"
                       existingRequest, d')
                | (Throw, d') =>
                    (sendError 500 "Error sending chat request", d')
                end
            end
        | None =>
            match ChatRequest_create senderId receiverId text d with
            | (Ok chatRequest, d') =>
                (sendSuccess 201 "Chat request sent successfully"
                   chatRequest, d')
            | (Throw, d') => (sendError 500 "Error sending chat request", d')
            end
        end
    end.

(** [sendChatRequest] with [receiverId] as the body carries it, a string.
    The self check compares strings; the lookups and the insert work on
    the [ObjectId] the string is cast to, so two spellings of one id are
    one receiver there. [castObjectId] (Mongoose, not under src) is taken
    as a parameter: the id a string casts to, or [None] where the cast
    throws, which the [catch] answers with 500. First the controller from
    [User.findById] on, with the receiver already cast. *)
Definition sendChatRequest_on (senderId receiver : UserId)
    (message : option string) (d : Db) : Response ChatRequest * Db :=
  match users d !! receiver with
  | None => (sendError 404 "User not found", d)
  | Some _ =>
      let text := if falsy message then "" else default "" message in
      match List.find (between senderId receiver) (requests d) with
      | Some existingRequest =>
          match req_status existingRequest with
          | Pending => (sendError 400 "Request already pending", d)
          | Accepted => (sendError 400 "Already connected with this user", d)
          | Rejected =>
              let existingRequest :=
                mkChatRequest (req_id existingRequest) senderId receiver
                              Pending text in
              match ChatRequest_resave existingRequest d with
              | (Ok _, d') =>
                  (sendSuccess 200 "Request resent successfully"
                     existingRequest, d')
              | (Throw, d') =>
                  (sendError 500 "Error sending chat request", d')
              end
          end
      | None =>
          match ChatRequest_create senderId receiver text d with
          | (Ok chatRequest, d') =>
              (sendSuccess 201 "Chat request sent successfully"
                 chatRequest, d')
          | (Throw, d') => (sendError 500 "Error sending chat request", d')
          end
      end
  end.

Definition sendChatRequest_cast (castObjectId : string → option UserId)
    (senderId : UserId) (receiverId : string) (message : option string)
    (d : Db) : Response ChatRequest * Db :=
  if String.eqb senderId receiverId
  then (sendError 400 "Cannot send request to yourself", d)
  else
    match castObjectId receiverId with
    | None => (sendError 500 "Error sending chat request", d)
    | Some receiver => sendChatRequest_on senderId receiver message d
    end.

(** [GET /api/requests/received]: the pending requests addressed to the
    caller, most recent first, with their count. *)
Definition getReceivedRequests (userId : UserId) (d : Db)
    : Response (list ChatRequest * nat) :=
  let requests :=
    rev (List.filter
           (λ r, String.eqb (req_receiver r) userId
                 && bool_decide (req_status r = Pending)) (requests d)) in
  sendSuccess 200 "Received requests retrieved successfully"
    (requests, length requests).

(** [GET /api/requests/sent] *)
Definition getSentRequests (userId : UserId) (d : Db)
    : Response (list ChatRequest * nat) :=
  let requests :=
    rev (List.filter
           (λ r, String.eqb (req_sender r) userId
                 && bool_decide (req_status r = Pending)) (requests d)) in
  sendSuccess 200 "Sent requests retrieved successfully"
    (requests, length requests).

(** [PUT /api/requests/:requestId/reject] *)
Definition rejectRequest (requestId : ObjectId) (userId : UserId) (d : Db)
    : Response ChatRequest * Db :=
  match ChatRequest_findById requestId d with
  | None => (sendError 404 "Request not found", d)
  | Some chatRequest =>
      if negb (String.eqb (req_receiver chatRequest) userId)
      then (sendError 403 "Not authorized to reject this request", d)
      else if negb (bool_decide (req_status chatRequest = Pending))
      then (sendError 400 "Request already processed", d)
      else
        let chatRequest := set_req_status Rejected chatRequest in
        (sendSuccess 200 "Request rejected successfully" chatRequest,
         ChatRequest_save chatRequest d)
  end.

(** [String.prototype.split(' ')] *)
Fixpoint split_space (s : string) : list string :=
  match s with
  | EmptyString => [""]
  | String c s' =>
      if Ascii.eqb c Ascii.Space then "" :: split_space s'
      else match split_space s' with
           | x :: xs => String c x :: xs
           | [] => [String c ""]
           end
  end.

(** The token of the [protect] middleware: the second piece of an
    [Authorization] header that starts with "Bearer". *)
Definition bearer_token (authorization : option string) : option string :=
  match authorization with
  | Some header =>
      if String.prefix "Bearer" header
      then split_space header !! 1
      else None
  | None => None
  end.

Inductive Guard :=
| Passed (userId : UserId)
| Denied (statusCode : nat) (message : string).

(** [protect] (middlewares/auth.js), with [verifyToken] as in the
    handshake. *)
Definition protect (verifyToken : string → option UserId)
    (authorization : option string) (d : Db) : Guard :=
  let token := bearer_token authorization in
  if falsy token
  then Denied 401 "Not authorized, no token provided"
  else
    match verifyToken (default "" token) with
    | Some id =>
        match users d !! id with
        | Some _ => Passed id
        | None => Denied 401 "User not found"
        end
    | None => Denied 401 "Not authorized, token invalid or expired"
    end.

(** The calls of the request controller, and a sequence of them on the
    store. *)
Inductive RequestCall :=
| Send (senderId : UserId) (receiverId : string) (message : option string)
| Accept (requestId : ObjectId) (userId : UserId)
| Reject (requestId : ObjectId) (userId : UserId).

Definition request_call (castObjectId : string → option UserId)
    (c : RequestCall) (d : Db) : Db :=
  match c with
  | Send senderId receiverId message =>
      snd (sendChatRequest_cast castObjectId senderId receiverId message d)
  | Accept requestId userId => snd (acceptRequest requestId userId d)
  | Reject requestId userId => snd (rejectRequest requestId userId d)
  end.

Definition request_calls (castObjectId : string → option UserId)
    (cs : list RequestCall) (d : Db) : Db :=
  foldl (λ d c, request_call castObjectId c d) d cs.

(** The controllers that are not among the inputs above, on the store. *)
Inductive Call :=
| DeleteMessage (messageId : ObjectId) (userId : UserId)
| DeleteConversation (conversationId : ObjectId) (userId : UserId)
| SendChatRequest (senderId receiverId : UserId) (message : option string)
| RejectRequest (requestId : ObjectId) (userId : UserId).

Definition serve (c : Call) (d : Db) : Db :=
  match c with
  | DeleteMessage messageId userId => snd (deleteMessage messageId userId d)
  | DeleteConversation conversationId userId =>
      snd (deleteConversation conversationId userId d)
  | SendChatRequest senderId receiverId message =>
      snd (sendChatRequest senderId receiverId message d)
  | RejectRequest requestId userId => snd (rejectRequest requestId userId d)
  end.

(* ===================================================================== *)
(** ** Vocabulary of the further statements                               *)
(* ===================================================================== *)

(** Every [lastMessage] is the id of a stored message of that
    conversation. *)
Definition last_message_ok (d : Db) : Prop :=
  ∀ c mid, In c (conversations d) → lastMessage c = Some mid →
           ∃ m, Message_findById mid d = Some m
                ∧ msg_conversationId m = conv_id c.

(** The requests have distinct ids, none goes from a user to themselves,
    and at most one is stored between two users, whatever its
    direction. *)
Record requests_ok (d : Db) : Prop := mk_requests_ok {
  ro_ids : NoDup (map req_id (requests d));
  ro_no_self : Forall (λ r, req_sender r ≠ req_receiver r) (requests d);
  ro_unique :
    ∀ a b, length (List.filter (between a b) (requests d)) ≤ 1
}.

(** The requests have distinct ids and at most one is stored between two
    users, whatever its direction. *)
Record requests_unique (d : Db) : Prop := mk_requests_unique {
  ru_ids : NoDup (map req_id (requests d));
  ru_pair :
    ∀ a b, length (List.filter (between a b) (requests d)) ≤ 1
}.

(** No request goes from a user to themselves. *)
Definition no_self_request (d : Db) : Prop :=
  Forall (λ r, req_sender r ≠ req_receiver r) (requests d).

(** The requests listed by [getReceivedRequests] and [getSentRequests]. *)
Definition listed (res : Response (list ChatRequest * nat))
    : list ChatRequest :=
  match res with
  | sendSuccess _ _ (requests, _) => requests
  | sendError _ _ => []
  end.

(** A response that refuses the caller: 403 or 404. *)
Definition refused {A} (res : Response A) : Prop :=
  match res with
  | sendError code _ => code = 403 ∨ code = 404
  | sendSuccess _ _ _ => False
  end.

Definition is_error {A} (res : Response A) : bool :=
  match res with
  | sendError _ _ => true
  | sendSuccess _ _ _ => false
  end.

(** Position by position, [l'] holds the messages of [l] under the same
    id with a status at least as high. *)
Definition status_kept (l l' : list Message) : Prop :=
  ∀ k m, l !! k = Some m →
         ∃ m', l' !! k = Some m' ∧ msg_id m' = msg_id m
               ∧ status_rank (msg_status m) ≤ status_rank (msg_status m').

(** Every id that finds a message in [l] finds one of the same
    conversation in [l']. *)
Definition msgs_kept (l l' : list Message) : Prop :=
  ∀ mid m, find_by msg_id mid l = Some m →
           ∃ m', find_by msg_id mid l' = Some m'
                 ∧ msg_conversationId m' = msg_conversationId m.

(** How the conversations of [d'] come from those of [d]: each has the
    participants of a conversation of [d] or is a conversation of two, and
    its [lastMessage] is null, or that of the conversation of [d] with
    its id, or the id of a message of the conversation stored in [d']. *)
Definition convs_from (d d' : Db) : Prop :=
  ∀ c', In c' (conversations d') →
        ((∃ c, In c (conversations d) ∧ participants c' = participants c)
         ∨ length (participants c') = 2)
        ∧ (lastMessage c' = None
           ∨ (∃ c, In c (conversations d) ∧ conv_id c' = conv_id c
                   ∧ lastMessage c' = lastMessage c)
           ∨ (∃ m, lastMessage c' = Some (msg_id m)
                   ∧ Message_findById (msg_id m) d' = Some m
                   ∧ msg_conversationId m = conv_id c')).

(** A string without a space character. *)
Fixpoint no_space (s : string) : bool :=
  match s with
  | EmptyString => true
  | String c s' => negb (Ascii.eqb c Ascii.Space) && no_space s'
  end.

(** Every conversation has exactly two participants. *)
Definition two_participants (d : Db) : Prop :=
  Forall (λ c, length (participants c) = 2) (conversations d).

(** More worlds of the scenario. *)
Module Further.
Import Scenario.

(** bob has two sockets connected. *)
Definition w_two : World :=
  fst (handle (Connect b2) (fst (handle (Connect b1) (mkWorld srv0 [])))).

End Further.

(* ===================================================================== *)
(** ** Collections: lookup and replacement by [_id]                       *)
(* ===================================================================== *)

Section Collections.
Context {A : Type} (key : A → nat).

Lemma find_by_Some (id : nat) (l : list A) (x : A) :
  find_by key id l = Some x → key x = id ∧ In x l.
Proof.
  intros H. apply find_some in H as [Hin Hk].
  split; [by apply bool_decide_eq_true_1 in Hk | done].
Qed.

Lemma find_by_None (id : nat) (l : list A) :
  find_by key id l = None ↔ Forall (λ x, key x ≠ id) l.
Proof.
  unfold find_by. induction l as [|y l IH]; simpl.
  - split; [constructor | done].
  - case_bool_decide as Hy.
    + split; [done | intros HF; inversion HF; congruence].
    + rewrite IH. split; [by constructor | by inversion 1].
Qed.

Lemma find_by_app (id : nat) (l1 l2 : list A) :
  find_by key id (l1 ++ l2) =
  match find_by key id l1 with
  | Some x => Some x
  | None => find_by key id l2
  end.
Proof.
  unfold find_by. induction l1 as [|y l1 IH]; simpl; [done|].
  by case_bool_decide.
Qed.

Lemma replace_by_fresh (x : A) (l : list A) :
  Forall (λ y, key y ≠ key x) l → replace_by key x l = l.
Proof.
  induction 1 as [|y l Hy _ IH]; simpl; [done|].
  rewrite bool_decide_eq_false_2 by done. by f_equal.
Qed.

Lemma replace_by_last (x y : A) (l : list A) :
  key y = key x → Forall (λ z, key z ≠ key x) l →
  replace_by key x (l ++ [y]) = l ++ [x].
Proof.
  intros Hy HF. unfold replace_by. rewrite map_app. simpl.
  rewrite bool_decide_eq_true_2 by done.
  f_equal. by apply replace_by_fresh.
Qed.

Lemma find_by_replace_by (x : A) (l : list A) :
  find_by key (key x) (replace_by key x l) =
  match find_by key (key x) l with Some _ => Some x | None => None end.
Proof.
  unfold find_by, replace_by. induction l as [|y l IH]; simpl; [done|].
  destruct (decide (key y = key x)) as [Hy|Hy].
  - rewrite !(bool_decide_eq_true_2 _ Hy).
    by rewrite bool_decide_eq_true_2.
  - rewrite !(bool_decide_eq_false_2 _ Hy). done.
Qed.

Lemma find_by_replace_by_ne (id : nat) (x : A) (l : list A) :
  key x ≠ id → find_by key id (replace_by key x l) = find_by key id l.
Proof.
  intros Hx. unfold find_by, replace_by.
  induction l as [|y l IH]; simpl; [done|].
  destruct (decide (key y = key x)) as [Hy|Hy].
  - rewrite (bool_decide_eq_true_2 _ Hy). simpl.
    rewrite !bool_decide_eq_false_2 by congruence. done.
  - rewrite (bool_decide_eq_false_2 _ Hy). simpl.
    case_bool_decide; [done | apply IH].
Qed.

Lemma replace_by_keys (x : A) (l : list A) :
  map key (replace_by key x l) = map key l.
Proof.
  unfold replace_by. rewrite map_map. apply map_ext.
  intros y. by case_bool_decide.
Qed.

End Collections.


Lemma NoDup_map_inj {A B} (f : A → B) (l : list A) (x y : A) :
  NoDup (map f l) → In x l → In y l → f x = f y → x = y.
Proof.
  induction l as [|z l IH]; simpl; [done|].
  intros Hnd Hx Hy Hf. apply NoDup_cons in Hnd as [Hz Hnd].
  destruct Hx as [->|Hx], Hy as [->|Hy]; try done.
  - exfalso. apply Hz. rewrite Hf. apply list_elem_of_In. by apply in_map.
  - exfalso. apply Hz. rewrite <- Hf. apply list_elem_of_In. by apply in_map.
  - by apply IH.
Qed.

Lemma below_fresh {A} (key : A → nat) (n : nat) (l : list A) :
  Forall (λ x, key x < n) l → Forall (λ x, key x ≠ n) l.
Proof. intros H. eapply Forall_impl; [exact H|]. intros x. simpl. lia. Qed.

Lemma below_mono {A} (key : A → nat) (n k : nat) (l : list A) :
  n ≤ k → Forall (λ x, key x < n) l → Forall (λ x, key x < k) l.
Proof.
  intros Hle H. eapply Forall_impl; [exact H|]. intros x. simpl. lia.
Qed.

Lemma below_replace_by {A} (key : A → nat) (n : nat) (x : A) (l : list A) :
  Forall (λ y, key y < n) l → Forall (λ y, key y < n) (replace_by key x l).
Proof.
  intros HF. apply Forall_forall. intros y Hy.
  assert (In (key y) (map key (replace_by key x l))) as Hin.
  { apply in_map. by apply list_elem_of_In. }
  rewrite replace_by_keys in Hin. apply in_map_iff in Hin as (z & Hz & Hin).
  rewrite Forall_forall in HF. rewrite <- Hz. apply HF.
  by apply list_elem_of_In.
Qed.

(* ===================================================================== *)
(** ** The send path                                                      *)
(* ===================================================================== *)

Lemma parse_type_nonempty (ty : string) (t : MsgType) :
  parse_type ty = Some t → String.eqb ty "" = false.
Proof. destruct ty; [discriminate | done]. Qed.

Lemma eqb_empty_false (s : string) : s ≠ "" → String.eqb s "" = false.
Proof. intros H. by apply String.eqb_neq. Qed.

Lemma resolve_by_id (a b : UserId) (cid : nat) (d : Db) :
  resolve_conversation a b (Some cid) d
  = (Ok (find_by conv_id cid (conversations d)), d).
Proof. reflexivity. Qed.

Lemma resolve_by_pair_found (a b : UserId) (d : Db) (c : Conversation) :
  List.find (all_in a b) (conversations d) = Some c →
  resolve_conversation a b None d = (Ok (Some c), d).
Proof.
  intros H. unfold resolve_conversation, bind, Conversation_findOne_all.
  by rewrite H.
Qed.

Lemma resolve_by_pair_created (a b : UserId) (d : Db) :
  List.find (all_in a b) (conversations d) = None →
  resolve_conversation a b None d
  = (Ok (Some (mkConversation (next_id d) [a; b] None ∅)),
     bump_id (with_conversations
                (conversations d ++ [mkConversation (next_id d) [a; b] None ∅])
                d)).
Proof.
  intros H. unfold resolve_conversation, bind, Conversation_findOne_all.
  by rewrite H.
Qed.

Section SendPath.
Context (s : Session) (data : SendData) (srv : Server).
Context (r ty c : string) (t : MsgType).
Context (conv : Conversation) (d1 : Db).
Hypothesis Hvalid : valid_fields data r ty c t.
Hypothesis Hresolved :
  resolve_conversation (sock_user s) r (d_conversationId data) (db srv)
  = (Ok (Some conv), d1).

Let m : Message := new_message s r t c conv d1.

Lemma send_message_offline :
  truthy_socket (connectedUsers srv !! r) = None →
  send_message s data srv
  = (with_db (after_send (touched r m conv) m d1) srv,
     [(ToSocket (sock_id s), message_sent m (conv_id conv))]).
Proof.
  intros Hoff. destruct Hvalid as [Hr Hrne Hty Hen Hc Hcne].
  unfold send_message, falsy. rewrite Hr, Hty, Hc. simpl.
  rewrite (eqb_empty_false r Hrne), (parse_type_nonempty ty t Hen),
    (eqb_empty_false c Hcne). simpl.
  unfold send_message_try, bind. rewrite Hresolved.
  unfold Message_create. rewrite Hen, (eqb_empty_false c Hcne). simpl.
  rewrite Hoff. reflexivity.
Qed.

Lemma send_message_online (sid : string) :
  truthy_socket (connectedUsers srv !! r) = Some sid →
  send_message s data srv
  = (with_db (after_delivery m (after_send (touched r m conv) m d1)) srv,
     [(ToRoom sid, receive_message m (conv_id conv));
      (ToSocket (sock_id s),
       message_sent (set_status Delivered m) (conv_id conv))]).
Proof.
  intros Hon. destruct Hvalid as [Hr Hrne Hty Hen Hc Hcne].
  unfold send_message, falsy. rewrite Hr, Hty, Hc. simpl.
  rewrite (eqb_empty_false r Hrne), (parse_type_nonempty ty t Hen),
    (eqb_empty_false c Hcne). simpl.
  unfold send_message_try, bind. rewrite Hresolved.
  unfold Message_create. rewrite Hen, (eqb_empty_false c Hcne). simpl.
  rewrite Hon. reflexivity.
Qed.

End SendPath.

(** *** The store invariant along the send path *)

(** Appending a conversation under the next id keeps the store well
    formed. *)
Lemma create_conversation_wf (ps : list UserId) (d : Db) :
  db_wf d →
  db_wf (bump_id (with_conversations
                    (conversations d ++ [mkConversation (next_id d) ps None ∅])
                    d)).
Proof.
  intros [Hc Hm Hr Hn]. split; simpl.
  - apply Forall_app. split.
    + eapply below_mono; [|exact Hc]. lia.
    + constructor; [simpl; lia | constructor].
  - eapply below_mono; [|exact Hm]. lia.
  - eapply below_mono; [|exact Hr]. lia.
  - rewrite map_app. simpl. apply NoDup_app. split; [done|].
    split; [|apply NoDup_singleton].
    intros id Hin Hid. apply list_elem_of_singleton in Hid as ->.
    apply list_elem_of_In, in_map_iff in Hin as (c & Hid & Hin).
    rewrite Forall_forall in Hc. apply list_elem_of_In, Hc in Hin. lia.
Qed.

Lemma resolve_conversation_wf (a b : UserId) (cid : option nat) (d d1 : Db)
    (o : Outcome (option Conversation)) :
  db_wf d →
  resolve_conversation a b cid d = (o, d1) →
  db_wf d1 ∧ messages d1 = messages d
  ∧ ∀ conv, o = Ok (Some conv) → In conv (conversations d1).
Proof.
  intros Hwf Hres. destruct cid as [cid|].
  - rewrite resolve_by_id in Hres. injection Hres as <- <-.
    split; [done|]. split; [done|].
    intros conv [= Hfind]. by apply find_by_Some in Hfind as [_ Hin].
  - destruct (List.find (all_in a b) (conversations d)) as [c|] eqn:Hfind.
    + rewrite (resolve_by_pair_found _ _ _ _ Hfind) in Hres.
      injection Hres as <- <-. split; [done|]. split; [done|].
      intros conv [= <-]. by apply find_some in Hfind as [Hin _].
    + rewrite (resolve_by_pair_created _ _ _ Hfind) in Hres.
      injection Hres as <- <-. split; [|split; [done|]].
      * by apply create_conversation_wf.
      * intros conv [= <-]. simpl. apply in_or_app. right. by left.
Qed.

Lemma after_send_wf (conv' : Conversation) (m : Message) (d1 : Db) :
  db_wf d1 → msg_id m = next_id d1 → db_wf (after_send conv' m d1).
Proof.
  intros [Hc Hm Hr Hn] Hid. split; simpl.
  - apply below_replace_by. eapply below_mono; [|exact Hc]. lia.
  - apply Forall_app. split.
    + eapply below_mono; [|exact Hm]. lia.
    + constructor; [lia | constructor].
  - eapply below_mono; [|exact Hr]. lia.
  - by rewrite replace_by_keys.
Qed.

Lemma after_delivery_wf (m : Message) (d : Db) :
  db_wf d → db_wf (after_delivery m d).
Proof.
  intros [Hc Hm Hr Hn]. split; simpl; try done. by apply below_replace_by.
Qed.

(** With fresh ids, saving the delivered message rewrites the one row
    that was just inserted. *)
Lemma after_delivery_after_send (conv' : Conversation) (m : Message) (d1 : Db) :
  db_wf d1 → msg_id m = next_id d1 →
  after_delivery m (after_send conv' m d1)
  = after_send conv' (set_status Delivered m) d1.
Proof.
  intros [_ Hm _ _] Hid. unfold after_delivery, after_send. simpl.
  unfold with_messages, with_conversations, bump_id. simpl. f_equal.
  apply replace_by_last; [done|]. simpl. rewrite Hid. by apply below_fresh.
Qed.

(** Every path of the handler keeps the store well formed. *)
Lemma send_message_wf (s : Session) (data : SendData) (srv : Server) :
  db_wf (db srv) → db_wf (db (fst (send_message s data srv))).
Proof.
  intros Hwf. unfold send_message.
  destruct (falsy _ || falsy _ || falsy _); [done|].
  unfold send_message_try, bind.
  destruct (resolve_conversation _ _ _ _) as [o d1] eqn:Hres.
  destruct (resolve_conversation_wf _ _ _ _ _ _ Hwf Hres) as (Hwf1 & _ & _).
  destruct o as [[conv|]|]; simpl; try done.
  unfold Message_create.
  destruct (parse_type _) as [t|]; simpl; [|done].
  destruct (String.eqb _ ""); simpl; [done|].
  destruct (truthy_socket _); simpl.
  - apply after_delivery_wf. by apply after_send_wf.
  - by apply after_send_wf.
Qed.

(** The store after a send that reached [Message.create]: one new row,
    delivered exactly when the registry knows a socket of the receiver. *)
Lemma send_message_store (s : Session) (data : SendData) (srv : Server)
    (r ty c : string) (t : MsgType) (conv : Conversation) (d1 : Db) :
  db_wf (db srv) →
  valid_fields data r ty c t →
  resolve_conversation (sock_user s) r (d_conversationId data) (db srv)
  = (Ok (Some conv), d1) →
  let m := new_message s r t c conv d1 in
  let st := match truthy_socket (connectedUsers srv !! r) with
            | Some _ => Delivered
            | None => Sent
            end in
  db (fst (send_message s data srv))
  = after_send (touched r m conv) (set_status st m) d1.
Proof.
  intros Hwf Hv Hres m st.
  destruct (resolve_conversation_wf _ _ _ _ _ _ Hwf Hres) as (Hwf1 & _ & _).
  subst st. destruct (truthy_socket _) as [sid|] eqn:Hsock.
  - rewrite (send_message_online _ _ _ _ _ _ _ _ _ Hv Hres sid Hsock). simpl.
    by apply after_delivery_after_send.
  - by rewrite (send_message_offline _ _ _ _ _ _ _ _ _ Hv Hres Hsock).
Qed.

Lemma find_new_message (conv' : Conversation) (m : Message) (d1 : Db) :
  db_wf d1 → msg_id m = next_id d1 →
  Message_findById (msg_id m) (after_send conv' m d1) = Some m.
Proof.
  intros [_ Hm _ _] Hid. unfold Message_findById, after_send. simpl.
  rewrite find_by_app.
  assert (find_by msg_id (msg_id m) (messages d1) = None) as ->.
  { apply find_by_None. rewrite Hid. by apply below_fresh. }
  unfold find_by. simpl. by rewrite bool_decide_eq_true_2.
Qed.

Lemma resolve_conversation_total (a b : UserId) (data : SendData) (d : Db) :
  names_conversation data d →
  ∃ conv d1,
    resolve_conversation a b (d_conversationId data) d = (Ok (Some conv), d1).
Proof.
  intros Hn. destruct (d_conversationId data) as [cid|] eqn:Hcid.
  - destruct (Hn cid Hcid) as [conv Hconv].
    exists conv, d. by rewrite resolve_by_id, Hconv.
  - destruct (List.find (all_in a b) (conversations d)) as [conv|] eqn:Hfind.
    + exists conv, d. by apply resolve_by_pair_found.
    + eexists _, _. by apply resolve_by_pair_created.
Qed.

(** The connection handler touches the registry and the user document
    only. *)
Lemma connection_store (s : Session) (srv : Server) :
  conversations (db (fst (connection s srv))) = conversations (db srv)
  ∧ messages (db (fst (connection s srv))) = messages (db srv)
  ∧ requests (db (fst (connection s srv))) = requests (db srv)
  ∧ next_id (db (fst (connection s srv))) = next_id (db srv).
Proof.
  unfold connection, User_update. simpl.
  by destruct (users (db srv) !! sock_user s).
Qed.

Lemma connection_registry (s : Session) (srv : Server) :
  connectedUsers (fst (connection s srv))
  = <[sock_user s := sock_id s]> (connectedUsers srv).
Proof. reflexivity. Qed.


Lemma connection_names (s : Session) (data : SendData) (srv : Server) :
  names_conversation data (db srv) →
  names_conversation data (db (fst (connection s srv))).
Proof.
  intros Hn cid Hcid.
  destruct (connection_store s srv) as (Ec & _). rewrite Ec. by apply Hn.
Qed.

(* ===================================================================== *)
(** ** Delivery on send                                                   *)
(* ===================================================================== *)

(** A valid send to a receiver without an entry in the registry: the
    message is stored with status sent, nothing is pushed, and the sender
    is answered with [message_sent] carrying it. *)
Lemma send_message_receiver_offline
    (s : Session) (data : SendData) (srv : Server)
    (r ty c : string) (t : MsgType) :
  db_wf (db srv) →
  valid_fields data r ty c t →
  names_conversation data (db srv) →
  connectedUsers srv !! r = None →
  ∃ m cid,
    snd (send_message s data srv)
    = [(ToSocket (sock_id s), message_sent m cid)]
    ∧ msg_sender m = sock_user s ∧ msg_receiver m = r ∧ msg_content m = c
    ∧ msg_status m = Sent
    ∧ Message_findById (msg_id m) (db (fst (send_message s data srv)))
      = Some m.
Proof.
  intros Hwf Hv Hn Hoff.
  destruct (resolve_conversation_total (sock_user s) r data (db srv) Hn)
    as (conv & d1 & Hres).
  destruct (resolve_conversation_wf _ _ _ _ _ _ Hwf Hres) as (Hwf1 & _ & _).
  assert (truthy_socket (connectedUsers srv !! r) = None) as Hsock
    by (by rewrite Hoff).
  rewrite (send_message_offline _ _ _ _ _ _ _ _ _ Hv Hres Hsock). simpl.
  eexists _, _. split; [reflexivity|]. repeat split.
  by apply find_new_message.
Qed.


(** C4 (as the code has it). For a valid send from A to B while the
    registry holds a socket of B, B's socket is sent [receive_message]
    with the message as it is at the push, status sent; the status is then
    advanced and persisted, and A receives [message_sent] with the same
    message id and status delivered. *)
Theorem online_receiver_push_then_delivered
    (s : Session) (data : SendData) (srv : Server)
    (r ty c sid : string) (t : MsgType) :
  db_wf (db srv) →
  valid_fields data r ty c t →
  names_conversation data (db srv) →
  connectedUsers srv !! r = Some sid →
  sid ≠ "" →
  let srv' := fst (send_message s data srv) in
  let es := snd (send_message s data srv) in
  ∃ m cid,
    es = [(ToRoom sid, receive_message m cid);
          (ToSocket (sock_id s), message_sent (set_status Delivered m) cid)]
    ∧ msg_sender m = sock_user s ∧ msg_receiver m = r ∧ msg_content m = c
    ∧ msg_status m = Sent
    ∧ msg_id (set_status Delivered m) = msg_id m
    ∧ Message_findById (msg_id m) (db srv') = Some (set_status Delivered m).
Proof.
  intros Hwf Hv Hn Hon Hsid srv' es.
  destruct (resolve_conversation_total (sock_user s) r data (db srv) Hn)
    as (conv & d1 & Hres).
  destruct (resolve_conversation_wf _ _ _ _ _ _ Hwf Hres) as (Hwf1 & _ & _).
  assert (truthy_socket (connectedUsers srv !! r) = Some sid) as Hsock.
  { rewrite Hon. simpl. by rewrite (eqb_empty_false sid Hsid). }
  pose proof (send_message_store s data srv r ty c t conv d1 Hwf Hv Hres)
    as Hdb.
  simpl in Hdb. rewrite Hsock in Hdb.
  pose proof (send_message_online _ _ _ _ _ _ _ _ _ Hv Hres sid Hsock) as Heq.
  subst srv' es. rewrite Hdb. rewrite Heq.
  eexists _, _. split; [reflexivity|]. repeat split.
  apply (find_new_message _ (set_status Delivered (new_message s r t c conv d1))).
  - done.
  - reflexivity.
Qed.

Lemma online_receiver_push_then_delivered_witness :
  db_wf (db Trace.srv_online)
  ∧ valid_fields (Scenario.hi Scenario.bob) Scenario.bob "text" "hi" Text
  ∧ names_conversation (Scenario.hi Scenario.bob) (db Trace.srv_online)
  ∧ connectedUsers Trace.srv_online !! Scenario.bob = Some "sock-b1"
  ∧ "sock-b1" ≠ ""
  ∧ ∃ m cid,
      snd (send_message Scenario.a1 (Scenario.hi Scenario.bob)
             Trace.srv_online)
      = [(ToRoom "sock-b1", receive_message m cid);
         (ToSocket "sock-a1", message_sent (set_status Delivered m) cid)]
      ∧ msg_status m = Sent.
Proof.
  assert (db_wf (db Trace.srv_online)) as Hwf
    by (split; simpl; constructor).
  assert (valid_fields (Scenario.hi Scenario.bob) Scenario.bob "text" "hi" Text)
    as Hv by (split; simpl; (reflexivity || discriminate)).
  assert (names_conversation (Scenario.hi Scenario.bob) (db Trace.srv_online))
    as Hn by (intros cid Hcid; discriminate Hcid).
  assert (connectedUsers Trace.srv_online !! Scenario.bob = Some "sock-b1")
    as Hon by reflexivity.
  assert ("sock-b1" ≠ "") as Hne by discriminate.
  split; [exact Hwf|]. split; [exact Hv|]. split; [exact Hn|].
  split; [exact Hon|]. split; [exact Hne|].
  destruct (online_receiver_push_then_delivered Scenario.a1
              (Scenario.hi Scenario.bob) Trace.srv_online Scenario.bob
              "text" "hi" "sock-b1" Text Hwf Hv Hn Hon Hne)
    as (m & cid & Hes & _ & _ & _ & Hst & _).
  exists m, cid. split; [exact Hes | exact Hst].
Defined.

(** C4, as stated, fails: with A and B both connected, the
    [receive_message] that reaches B carries status sent, not delivered. *)
Lemma receive_message_carries_sent_not_delivered :
  ¬ (∃ m cid,
       In (message_sent m cid) (inbox Scenario.a1 Trace.es_online)
       ∧ msg_status m = Delivered
       ∧ ∃ m' cid',
           In (receive_message m' cid') (inbox Scenario.b1 Trace.es_online)
           ∧ msg_id m' = msg_id m ∧ msg_status m' = Delivered).
Proof.
  intros (m & cid & _ & _ & m' & cid' & Hin & _ & Hst).
  vm_compute in Hin. destruct Hin as [Hin|[]].
  injection Hin as <- _. discriminate Hst.
Qed.

(* ===================================================================== *)
(** ** One socket per user                                                *)
(* ===================================================================== *)


(* ===================================================================== *)
(** ** One conversation per pair, on the send path                        *)
(* ===================================================================== *)

Lemma all_in_comm (a b : UserId) (c : Conversation) :
  all_in a b c = all_in b a c.
Proof. unfold all_in. apply andb_comm. Qed.

Lemma all_in_pair (a b : UserId) (c : Conversation) :
  participants c = [a; b] → all_in a b c = true ∧ all_in b a c = true.
Proof.
  intros Hp. unfold all_in. rewrite Hp.
  rewrite !bool_decide_eq_true_2; [done | set_solver..].
Qed.

Lemma filter_nil_find {A} (f : A → bool) (l : list A) :
  List.filter f l = [] → List.find f l = None.
Proof.
  induction l as [|x l IH]; simpl; [done|].
  destruct (f x); [discriminate | exact IH].
Qed.

Lemma find_none_filter {A} (f : A → bool) (l : list A) :
  List.find f l = None → List.filter f l = [].
Proof.
  induction l as [|x l IH]; simpl; [done|].
  destruct (f x); [discriminate | exact IH].
Qed.

Lemma find_app_none {A} (f : A → bool) (l1 l2 : list A) :
  List.find f l1 = None → List.find f (l1 ++ l2) = List.find f l2.
Proof.
  induction l1 as [|x l1 IH]; simpl; [done|].
  destruct (f x); [discriminate | exact IH].
Qed.

Lemma find_ext_none {A} (f g : A → bool) (l : list A) :
  (∀ x, f x = g x) → List.find f l = None → List.find g l = None.
Proof.
  intros Hfg. induction l as [|x l IH]; simpl; [done|].
  rewrite <- Hfg. destruct (f x); [discriminate | exact IH].
Qed.

Lemma filter_map_length {A} (p : A → bool) (f : A → A) (l : list A) :
  (∀ x, In x l → p (f x) = p x) →
  length (List.filter p (map f l)) = length (List.filter p l).
Proof.
  induction l as [|x l IH]; simpl; [done|].
  intros Hf. rewrite (Hf x) by (by left).
  destruct (p x); simpl; rewrite IH; auto.
Qed.

(** Saving a conversation back under its id changes no participant
    list. *)
Lemma replace_by_pairs (conv conv' : Conversation) (cs : list Conversation)
    (a b : UserId) :
  NoDup (map conv_id cs) → In conv cs →
  conv_id conv' = conv_id conv → participants conv' = participants conv →
  length (List.filter (all_in a b) (replace_by conv_id conv' cs))
  = length (List.filter (all_in a b) cs).
Proof.
  intros Hnd Hin Hid Hp. unfold replace_by. apply filter_map_length.
  intros x Hx. case_bool_decide as Hx'; [|done].
  rewrite Hid in Hx'.
  rewrite (NoDup_map_inj conv_id cs x conv Hnd Hx Hin Hx').
  unfold all_in. by rewrite Hp.
Qed.

Lemma create_pairs_unique (a b : UserId) (n : nat) (cs : list Conversation) :
  pairs_unique cs →
  List.find (all_in a b) cs = None →
  pairs_unique (cs ++ [mkConversation n [a; b] None ∅]).
Proof.
  intros Hu Hnone x y Hxy. rewrite List.filter_app, length_app. simpl.
  destruct (all_in x y _) eqn:Hnew; simpl; [|specialize (Hu x y Hxy); lia].
  assert (List.filter (all_in x y) cs = []) as ->; [|simpl; lia].
  apply find_none_filter.
  unfold all_in in Hnew. simpl in Hnew.
  apply andb_true_iff in Hnew as [Hx Hy].
  apply bool_decide_eq_true_1, list_elem_of_In in Hx, Hy.
  simpl in Hx, Hy.
  destruct Hx as [<-|[<-|[]]], Hy as [<-|[<-|[]]]; try done.
  eapply find_ext_none; [|exact Hnone]. intros c. apply all_in_comm.
Qed.

Lemma resolve_conversation_pairs (a b : UserId) (cid : option nat)
    (d d1 : Db) (o : Outcome (option Conversation)) :
  pairs_unique (conversations d) →
  resolve_conversation a b cid d = (o, d1) →
  pairs_unique (conversations d1).
Proof.
  intros Hu Hres. destruct cid as [cid|].
  - rewrite resolve_by_id in Hres. by injection Hres as <- <-.
  - destruct (List.find (all_in a b) (conversations d)) as [c|] eqn:Hfind.
    + rewrite (resolve_by_pair_found _ _ _ _ Hfind) in Hres.
      by injection Hres as <- <-.
    + rewrite (resolve_by_pair_created _ _ _ Hfind) in Hres.
      injection Hres as <- <-. simpl. by apply create_pairs_unique.
Qed.

(** The send handler keeps "at most one conversation per pair". *)
Lemma send_message_pairs_unique (s : Session) (data : SendData)
    (srv : Server) :
  db_wf (db srv) →
  pairs_unique (conversations (db srv)) →
  pairs_unique (conversations (db (fst (send_message s data srv)))).
Proof.
  intros Hwf Hu. unfold send_message.
  destruct (falsy _ || falsy _ || falsy _); [done|].
  unfold send_message_try, bind.
  destruct (resolve_conversation _ _ _ _) as [o d1] eqn:Hres.
  destruct (resolve_conversation_wf _ _ _ _ _ _ Hwf Hres)
    as (Hwf1 & _ & Hin).
  pose proof (resolve_conversation_pairs _ _ _ _ _ _ Hu Hres) as Hu1.
  destruct o as [[conv|]|]; simpl; try done.
  unfold Message_create.
  destruct (parse_type _) as [t|]; simpl; [|done].
  destruct (String.eqb _ ""); simpl; [done|].
  assert (pairs_unique
            (replace_by conv_id
               (set_unread (default "" (d_receiverId data))
                  (default 0
                     (unreadCount conv !! default "" (d_receiverId data)) + 1)
                  (set_lastMessage (next_id d1) conv))
               (conversations d1))) as Hu2.
  { intros a b Hab.
    rewrite (replace_by_pairs conv);
      [by apply Hu1 | apply Hwf1 | by apply Hin | done..]. }
  by destruct (truthy_socket _).
Qed.

(** The send path when the second handler starts after the first has
    finished. Two distinct users with no conversation between them: a
    first valid send (no conversation id supplied) creates exactly one
    conversation, with the two of them as participants; a second send
    between the same pair, in either direction, reuses it: the collection
    does not grow, the one conversation of the pair keeps its id, and both
    messages belong to it. If no pair of distinct users had more than one
    conversation before, none has after. *)
Theorem one_conversation_per_pair
    (s1 s2 : Session) (data1 data2 : SendData) (srv : Server)
    (a b r2 ty1 c1 ty2 c2 : string) (t1 t2 : MsgType) :
  db_wf (db srv) →
  a ≠ b →
  sock_user s1 = a →
  valid_fields data1 b ty1 c1 t1 →
  d_conversationId data1 = None →
  (sock_user s2 = a ∧ r2 = b) ∨ (sock_user s2 = b ∧ r2 = a) →
  valid_fields data2 r2 ty2 c2 t2 →
  d_conversationId data2 = None →
  List.filter (all_in a b) (conversations (db srv)) = [] →
  let srv1 := fst (send_message s1 data1 srv) in
  let srv2 := fst (send_message s2 data2 srv1) in
  ∃ conv1 conv2 m1 m2,
    conversations (db srv1) = conversations (db srv) ++ [conv1]
    ∧ participants conv1 = [a; b]
    ∧ conversations (db srv2) = conversations (db srv) ++ [conv2]
    ∧ conv_id conv2 = conv_id conv1
    ∧ participants conv2 = [a; b]
    ∧ List.filter (all_in a b) (conversations (db srv2)) = [conv2]
    ∧ messages (db srv2) = messages (db srv) ++ [m1; m2]
    ∧ msg_conversationId m1 = conv_id conv1
    ∧ msg_conversationId m2 = conv_id conv1
    ∧ (pairs_unique (conversations (db srv)) →
       pairs_unique (conversations (db srv2))).
Proof.
  intros Hwf _ Hs1 Hv1 Hc1 Hdir Hv2 Hc2 Hnone srv1 srv2.
  pose proof (filter_nil_find _ _ Hnone) as Hfind0.
  (* first send: the lookup is empty, a conversation is created *)
  pose (conv0 := mkConversation (next_id (db srv)) [a; b] None ∅).
  pose (d1 := bump_id (with_conversations
                         (conversations (db srv) ++ [conv0]) (db srv))).
  assert (resolve_conversation (sock_user s1) b (d_conversationId data1)
            (db srv) = (Ok (Some conv0), d1)) as Hres1.
  { rewrite Hc1, Hs1. by apply resolve_by_pair_created. }
  pose proof (send_message_store s1 data1 srv b ty1 c1 t1 _ _ Hwf Hv1 Hres1)
    as Hdb1.
  cbv zeta in Hdb1. fold srv1 in Hdb1.
  set (m1 := set_status _ _) in Hdb1.
  set (conv1 := touched b _ conv0) in Hdb1.
  assert (conversations (db srv1) = conversations (db srv) ++ [conv1])
    as Hconvs1.
  { rewrite Hdb1. simpl. apply replace_by_last; [done|].
    apply below_fresh, Hwf. }
  assert (messages (db srv1) = messages (db srv) ++ [m1]) as Hmsgs1
    by (by rewrite Hdb1).
  assert (participants conv1 = [a; b]) as Hp1 by done.
  assert (conv_id conv1 = next_id (db srv)) as Hid1 by done.
  (* second send: the lookup finds that conversation *)
  assert (db_wf (db srv1)) as Hwf1 by (by apply send_message_wf).
  assert (List.find (all_in (sock_user s2) r2) (conversations (db srv1))
          = Some conv1) as Hfind1.
  { rewrite Hconvs1.
    destruct (all_in_pair a b conv1 Hp1) as [Hab Hba].
    destruct Hdir as [[-> ->]|[-> ->]].
    - rewrite (find_app_none _ _ _ Hfind0). simpl. by rewrite Hab.
    - rewrite find_app_none.
      + simpl. by rewrite Hba.
      + eapply find_ext_none; [|exact Hfind0].
        intros x. apply all_in_comm. }
  assert (resolve_conversation (sock_user s2) r2 (d_conversationId data2)
            (db srv1) = (Ok (Some conv1), db srv1)) as Hres2.
  { rewrite Hc2. by apply resolve_by_pair_found. }
  pose proof (send_message_store s2 data2 srv1 r2 ty2 c2 t2 _ _ Hwf1 Hv2 Hres2)
    as Hdb2.
  cbv zeta in Hdb2. fold srv2 in Hdb2.
  set (m2 := set_status _ _) in Hdb2.
  set (conv2 := touched r2 _ conv1) in Hdb2.
  assert (conversations (db srv2) = conversations (db srv) ++ [conv2])
    as Hconvs2.
  { rewrite Hdb2. simpl. rewrite Hconvs1. apply replace_by_last; [done|].
    change (conv_id conv2) with (next_id (db srv)).
    apply below_fresh, Hwf. }
  exists conv1, conv2, m1, m2.
  split; [exact Hconvs1|]. split; [exact Hp1|]. split; [exact Hconvs2|].
  split; [done|]. split; [exact Hp1|]. split.
  - rewrite Hconvs2, List.filter_app, Hnone. simpl.
    by destruct (all_in_pair a b conv2 Hp1) as [-> _].
  - split; [|split; [|split]].
    + rewrite Hdb2. simpl. rewrite Hmsgs1, <- app_assoc. done.
    + subst m1. by destruct (truthy_socket _).
    + subst m2. by destruct (truthy_socket _).
    + intros Hu. apply send_message_pairs_unique; [done|].
      by apply send_message_pairs_unique.
Qed.

Lemma one_conversation_per_pair_witness :
  db_wf (db Scenario.srv0)
  ∧ Scenario.alice ≠ Scenario.bob
  ∧ sock_user Scenario.a1 = Scenario.alice
  ∧ valid_fields (Scenario.hi Scenario.bob) Scenario.bob "text" "hi" Text
  ∧ d_conversationId (Scenario.hi Scenario.bob) = None
  ∧ (sock_user Scenario.b1 = Scenario.alice ∧ Scenario.alice = Scenario.bob
     ∨ sock_user Scenario.b1 = Scenario.bob ∧ Scenario.alice = Scenario.alice)
  ∧ valid_fields (Scenario.hi Scenario.alice) Scenario.alice "text" "hi" Text
  ∧ d_conversationId (Scenario.hi Scenario.alice) = None
  ∧ List.filter (all_in Scenario.alice Scenario.bob)
      (conversations (db Scenario.srv0)) = []
  ∧ ∃ conv,
      List.filter (all_in Scenario.alice Scenario.bob)
        (conversations
           (db (fst (send_message Scenario.b1 (Scenario.hi Scenario.alice)
                       (fst (send_message Scenario.a1
                               (Scenario.hi Scenario.bob) Scenario.srv0))))))
      = [conv].
Proof.
  assert (db_wf (db Scenario.srv0)) as Hwf
    by (split; simpl; constructor).
  assert (Scenario.alice ≠ Scenario.bob) as Hab by discriminate.
  assert (sock_user Scenario.a1 = Scenario.alice) as Hs1 by reflexivity.
  assert (valid_fields (Scenario.hi Scenario.bob) Scenario.bob "text" "hi" Text)
    as Hv1 by (split; simpl; (reflexivity || discriminate)).
  assert (d_conversationId (Scenario.hi Scenario.bob) = None) as Hc1
    by reflexivity.
  assert (sock_user Scenario.b1 = Scenario.alice ∧ Scenario.alice = Scenario.bob
          ∨ sock_user Scenario.b1 = Scenario.bob
            ∧ Scenario.alice = Scenario.alice) as Hdir
    by (right; split; reflexivity).
  assert (valid_fields (Scenario.hi Scenario.alice) Scenario.alice
            "text" "hi" Text)
    as Hv2 by (split; simpl; (reflexivity || discriminate)).
  assert (d_conversationId (Scenario.hi Scenario.alice) = None) as Hc2
    by reflexivity.
  assert (List.filter (all_in Scenario.alice Scenario.bob)
            (conversations (db Scenario.srv0)) = []) as Hnone
    by reflexivity.
  split; [exact Hwf|]. split; [exact Hab|]. split; [exact Hs1|].
  split; [exact Hv1|]. split; [exact Hc1|]. split; [exact Hdir|].
  split; [exact Hv2|]. split; [exact Hc2|]. split; [exact Hnone|].
  destruct (one_conversation_per_pair Scenario.a1 Scenario.b1
              (Scenario.hi Scenario.bob) (Scenario.hi Scenario.alice)
              Scenario.srv0 Scenario.alice Scenario.bob Scenario.alice
              "text" "hi" "text" "hi" Text Text
              Hwf Hab Hs1 Hv1 Hc1 Hdir Hv2 Hc2 Hnone)
    as (conv1 & conv2 & m1 & m2 & _ & _ & _ & _ & _ & Hone & _).
  exists conv2. exact Hone.
Defined.

(* ===================================================================== *)
(** ** One conversation per pair, when handlers overlap                   *)
(* ===================================================================== *)

(** A handler that is not interrupted between its lookup and the rest is
    the handler in one piece. *)
Lemma send_message_in_two_steps (s : Session) (data : SendData)
    (srv : Server) :
  falsy (d_receiverId data) || falsy (d_type data) || falsy (d_content data)
  = false →
  d_conversationId data = None →
  send_message_resumed s data (send_message_lookup s data (db srv)) srv
  = send_message s data srv.
Proof.
  intros Hfields Hnone.
  unfold send_message, send_message_resumed, send_message_try,
    send_message_resume, resolve_conversation, send_message_lookup.
  rewrite Hfields, Hnone.
  unfold bind, ret, Conversation_findOne_all. cbn [fst snd].
  destruct (List.find _ (conversations (db srv))) as [conv|]; [done|].
  by destruct (Conversation_create _ (db srv)) as [[c|] d1].
Qed.

(** Resumed with an empty answer, the handler creates a conversation of
    the pair, whatever the store holds by then. *)
Lemma resume_after_empty_lookup_creates (s : Session) (data : SendData)
    (srv : Server) (r ty c : string) (t : MsgType) :
  valid_fields data r ty c t →
  ∃ conv,
    In conv (conversations (db (fst (send_message_resumed s data None srv))))
    ∧ conv_id conv = next_id (db srv)
    ∧ participants conv = [sock_user s; r].
Proof.
  intros [Hr _ Hty Henum Hc Hcne].
  unfold send_message_resumed, send_message_resume.
  rewrite Hr, Hty, Hc. cbn [default from_option]. unfold id.
  unfold bind, ret, Conversation_create, Message_create,
    Conversation_save, Message_save.
  cbn [length bool_decide decide_rel]. rewrite bool_decide_eq_true_2 by done.
  cbn [fst snd]. rewrite Henum, (eqb_empty_false _ Hcne). cbn [fst snd].
  set (conv := set_unread r _ _).
  exists conv. split; [|done].
  assert (In conv (replace_by conv_id conv
                     (conversations (db srv)
                      ++ [mkConversation (next_id (db srv)) [sock_user s; r]
                            None ∅]))) as Hin.
  { unfold replace_by. rewrite map_app. apply in_or_app. right.
    simpl. rewrite bool_decide_eq_true_2 by done. by left. }
  by destruct (truthy_socket _).
Qed.

(** C2, at the failing input. alice and bob are connected and have no
    conversation; alice emits two [send_message] events for bob one right
    after the other, so that the second handler runs its lookup while the
    first waits for its own: both lookups come back empty, both handlers
    create, and two conversations of alice and bob are stored, one
    message in each. The same pair is also duplicated when bob accepts a
    request of alice after they have exchanged a message. *)
Theorem overlapping_sends_duplicate_conversation :
  let found1 :=
    send_message_lookup Scenario.a1 (Scenario.hi Scenario.bob)
      (db Trace.srv_online) in
  let found2 :=
    send_message_lookup Scenario.a1 (Scenario.hi Scenario.bob)
      (db Trace.srv_online) in
  let srv1 :=
    fst (send_message_resumed Scenario.a1 (Scenario.hi Scenario.bob) found1
           Trace.srv_online) in
  let srv2 :=
    fst (send_message_resumed Scenario.a1 (Scenario.hi Scenario.bob) found2
           srv1) in
  conversations (db Trace.srv_online) = []
  ∧ found1 = None ∧ found2 = None
  ∧ List.filter (all_in "alice" "bob") (conversations (db srv2))
    = [mkConversation 0 ["alice"; "bob"] (Some 1) {["bob" := 1]};
       mkConversation 2 ["alice"; "bob"] (Some 3) {["bob" := 1]}]
  ∧ map msg_conversationId (messages (db srv2)) = [0; 2]
  ∧ ¬ pairs_unique (conversations (db srv2))
  ∧ pairs_unique (conversations Trace.db_requested)
  ∧ ¬ pairs_unique
        (conversations (snd (acceptRequest 2 "bob" Trace.db_requested))).
Proof.
  cbv zeta. split; [reflexivity|]. split; [reflexivity|].
  split; [reflexivity|]. split; [reflexivity|]. split; [reflexivity|].
  split; [|split].
  - intros H. specialize (H "alice" "bob" ltac:(discriminate)).
    vm_compute in H. lia.
  - intros a b Hab. cbn [Trace.db_requested conversations bump_id
                        with_requests].
    change (conversations (db Trace.srv_sent))
      with [mkConversation 0 ["alice"; "bob"] (Some 1) {["bob" := 1]}].
    cbn [List.filter]. destruct (all_in a b _); simpl; lia.
  - intros H. specialize (H "alice" "bob" ltac:(discriminate)).
    vm_compute in H. lia.
Qed.

(* ===================================================================== *)
(** ** Message history                                                    *)
(* ===================================================================== *)




(* ===================================================================== *)
(** ** Status marks                                                       *)
(* ===================================================================== *)

(** [findByIdAndUpdate] writes the status it is given over whatever the
    document holds. *)
Lemma findByIdAndUpdate_overwrites (id : nat) (st : Status) (d : Db)
    (m : Message) :
  Message_findById id d = Some m →
  Message_findById id (snd (Message_findByIdAndUpdate id st d))
  = Some (set_status st m).
Proof.
  intros Hfind. unfold Message_findByIdAndUpdate. rewrite Hfind. simpl.
  unfold Message_findById in *. simpl.
  apply find_by_Some in Hfind as Hid. destruct Hid as [Hid _].
  replace id with (msg_id (set_status st m)) at 1 by done.
  rewrite find_by_replace_by. simpl. by rewrite Hid, Hfind.
Qed.

Lemma message_delivered_store (s : Session) (mid : nat) (srv : Server) :
  db (fst (message_delivered s mid srv))
  = snd (Message_findByIdAndUpdate mid Delivered (db srv)).
Proof.
  unfold message_delivered.
  by destruct (Message_findByIdAndUpdate mid Delivered (db srv))
    as [[[m|]|] d'].
Qed.

(** The delivered mark stores delivered, whatever the status was. *)
Lemma message_delivered_overwrites (s : Session) (mid : nat) (srv : Server)
    (m : Message) :
  Message_findById mid (db srv) = Some m →
  Message_findById mid (db (fst (message_delivered s mid srv)))
  = Some (set_status Delivered m).
Proof.
  intros Hfind. rewrite message_delivered_store.
  by apply findByIdAndUpdate_overwrites.
Qed.

(** The other messages are left as they are. *)
Lemma message_delivered_frame (s : Session) (mid mid' : nat) (srv : Server) :
  mid' ≠ mid →
  Message_findById mid' (db (fst (message_delivered s mid srv)))
  = Message_findById mid' (db srv).
Proof.
  intros Hne. rewrite message_delivered_store.
  unfold Message_findByIdAndUpdate.
  destruct (Message_findById mid (db srv)) as [m|] eqn:Hfind; [|done].
  simpl. unfold Message_findById. simpl.
  apply find_by_replace_by_ne. simpl.
  apply find_by_Some in Hfind as [-> _]. congruence.
Qed.

(** Marking delivered twice gives delivered both times. *)
Lemma message_delivered_twice (s s' : Session) (mid : nat) (srv : Server)
    (m : Message) :
  Message_findById mid (db srv) = Some m →
  let srv1 := fst (message_delivered s mid srv) in
  let srv2 := fst (message_delivered s' mid srv1) in
  msg_status <$> Message_findById mid (db srv1) = Some Delivered
  ∧ msg_status <$> Message_findById mid (db srv2) = Some Delivered.
Proof.
  intros Hfind srv1 srv2.
  pose proof (message_delivered_overwrites s mid srv m Hfind) as H1.
  fold srv1 in H1.
  pose proof (message_delivered_overwrites s' mid srv1 _ H1) as H2.
  fold srv2 in H2. by rewrite H1, H2.
Qed.

(** C1, at the failing input. bob has read message 1 (its stored status
    is read); a [message_delivered] for that message then stores
    delivered: the status goes down in the order sent < delivered < read,
    and alice is told so with [message_status_updated]. *)
Theorem delivered_mark_after_read_regresses :
  ∃ before after,
    Message_findById 1 (db Trace.srv_read) = Some before
    ∧ Message_findById 1
        (db (fst (message_delivered Scenario.b1 1 Trace.srv_read)))
      = Some after
    ∧ msg_status before = Read
    ∧ msg_status after = Delivered
    ∧ status_rank (msg_status after) < status_rank (msg_status before)
    ∧ snd (message_delivered Scenario.b1 1 Trace.srv_read)
      = [(ToRoom "sock-a1", message_status_updated 1 Delivered)].
Proof.
  eexists _, _. split; [reflexivity|]. split; [reflexivity|].
  split; [reflexivity|]. split; [reflexivity|]. split; [vm_compute; lia|].
  reflexivity.
Qed.

(* ===================================================================== *)
(** ** Rejected sends                                                     *)
(* ===================================================================== *)

(** A payload without receiver, type or content is rejected before the
    store is touched. *)
Lemma send_message_missing_field (s : Session) (data : SendData)
    (srv : Server) :
  falsy (d_receiverId data) = true ∨ falsy (d_type data) = true
  ∨ falsy (d_content data) = true →
  send_message s data srv
  = (srv, [(ToSocket (sock_id s), message_error "Missing required fields")]).
Proof.
  intros H. unfold send_message.
  assert (falsy (d_receiverId data) || falsy (d_type data)
          || falsy (d_content data) = true) as ->; [|done].
  destruct H as [->|[->| ->]]; [done | | ]; by rewrite ?orb_true_r.
Qed.

(** A type outside the enum passes the check of the required fields and
    is rejected by [Message.create] only, after the conversation was
    resolved: no message is stored, and the store is left as the
    resolution made it. *)
Lemma send_message_bad_type (s : Session) (data : SendData) (srv : Server)
    (r ty c : string) :
  d_receiverId data = Some r → r ≠ "" →
  d_type data = Some ty → ty ≠ "" → parse_type ty = None →
  d_content data = Some c → c ≠ "" →
  send_message s data srv
  = (with_db
       (snd (resolve_conversation (sock_user s) r (d_conversationId data)
               (db srv))) srv,
     [(ToSocket (sock_id s), message_error "Failed to send message")]).
Proof.
  intros Hr Hrne Hty Htyne Hen Hc Hcne.
  unfold send_message, falsy. rewrite Hr, Hty, Hc. simpl.
  rewrite (eqb_empty_false r Hrne), (eqb_empty_false ty Htyne),
    (eqb_empty_false c Hcne). simpl.
  unfold send_message_try, bind.
  destruct (resolve_conversation _ _ _ _) as [[[conv|]|] d1]; simpl; try done.
  unfold Message_create. by rewrite Hen.
Qed.

(** C5, at the failing input. alice sends bob a message of type "video"
    while no conversation between them exists. She receives
    [message_error] and no message is stored, but a conversation between
    the two has been created on the way. *)
Theorem invalid_type_leaves_conversation :
  conversations (db Scenario.srv0) = []
  ∧ snd (send_message Scenario.a1 Trace.video Scenario.srv0)
    = [(ToSocket "sock-a1", message_error "Failed to send message")]
  ∧ messages (db (fst (send_message Scenario.a1 Trace.video Scenario.srv0)))
    = []
  ∧ conversations
      (db (fst (send_message Scenario.a1 Trace.video Scenario.srv0)))
    = [mkConversation 0 ["alice"; "bob"] None ∅].
Proof. split; [|split; [|split]]; reflexivity. Qed.

(* ===================================================================== *)
(** ** Accepting a chat request                                           *)
(* ===================================================================== *)

(** Accepting a pending request as its receiver always appends a new
    conversation: the controller makes no lookup first. *)
Lemma acceptRequest_creates (requestId : nat) (userId : UserId) (d : Db)
    (rq : ChatRequest) :
  ChatRequest_findById requestId d = Some rq →
  req_receiver rq = userId →
  req_status rq = Pending →
  ∃ data d',
    acceptRequest requestId userId d
    = (sendSuccess 200 "Request accepted successfully" data, d')
    ∧ conversations d'
      = conversations d
        ++ [mkConversation (next_id d) [req_sender rq; req_receiver rq]
              None ∅].
Proof.
  intros Hfind <- Hst. unfold acceptRequest. rewrite Hfind.
  rewrite String.eqb_refl, Hst. simpl.
  eexists _, _. split; reflexivity.
Qed.

(** C6, at the failing input. alice and bob already have conversation 0
    when bob accepts alice's pending request: the request succeeds and a
    second conversation between the same two users is stored. *)
Theorem accept_duplicates_conversation :
  List.filter (all_in "alice" "bob") (conversations Trace.db_requested)
  = [mkConversation 0 ["alice"; "bob"] (Some 1) {["bob" := 1]}]
  ∧ fst (acceptRequest 2 "bob" Trace.db_requested)
    = sendSuccess 200 "Request accepted successfully"
        (mkChatRequest 2 "alice" "bob" Accepted "",
         mkConversation 3 ["alice"; "bob"] None ∅)
  ∧ List.filter (all_in "alice" "bob")
      (conversations (snd (acceptRequest 2 "bob" Trace.db_requested)))
    = [mkConversation 0 ["alice"; "bob"] (Some 1) {["bob" := 1]};
       mkConversation 3 ["alice"; "bob"] None ∅].
Proof. split; [|split]; reflexivity. Qed.

(* ===================================================================== *)
(** ** Marking a conversation read                                        *)
(* ===================================================================== *)

(** A row changes only if it is addressed to the caller, in that
    conversation, and not yet read; it then becomes read. *)
Lemma mark_read_lookup (conversationId : nat) (userId : UserId)
    (ms : list Message) (i : nat) (m : Message) :
  ms !! i = Some m →
  mark_read conversationId userId ms !! i
  = Some (if bool_decide (msg_conversationId m = conversationId
                          ∧ msg_receiver m = userId
                          ∧ (msg_status m = Sent ∨ msg_status m = Delivered))
          then set_status Read m else m).
Proof.
  intros Hm. unfold mark_read. rewrite list_lookup_fmap, Hm. simpl.
  f_equal. unfold unread_for.
  rewrite <- bool_decide_or, <- !bool_decide_and.
  by rewrite (bool_decide_ext _ _ (and_assoc _ _ _)).
Qed.

(** HTTP: a participant's call rewrites those rows and sets the caller's
    unread counter of the conversation to 0. *)
Lemma markMessagesAsRead_resets (conversationId : nat) (userId : UserId)
    (d : Db) (conv : Conversation) :
  find_by conv_id conversationId (conversations d) = Some conv →
  isParticipant userId conv = true →
  let d' := snd (markMessagesAsRead conversationId userId d) in
  messages d' = mark_read conversationId userId (messages d)
  ∧ ∃ conv', find_by conv_id conversationId (conversations d') = Some conv'
             ∧ unreadCount conv' !! userId = Some 0.
Proof.
  intros Hfind Hpart d'. subst d'.
  unfold markMessagesAsRead, Conversation_findById. rewrite Hfind, Hpart.
  simpl. split; [done|].
  exists (set_unread userId 0 conv).
  apply find_by_Some in Hfind as Hid. destruct Hid as [Hid _].
  split.
  - replace conversationId with (conv_id (set_unread userId 0 conv)) at 1
      by done.
    rewrite find_by_replace_by. simpl. by rewrite Hid, Hfind.
  - simpl. apply lookup_insert_eq.
Qed.

(** Socket: the conversation form of [message_read] rewrites the same
    rows, and never writes to a conversation. *)
Lemma message_read_conversation_store (s : Session) (conversationId : nat)
    (srv : Server) :
  let srv' :=
    fst (message_read s (mkReadData None (Some conversationId)) srv) in
  messages (db srv')
  = mark_read conversationId (sock_user s) (messages (db srv))
  ∧ conversations (db srv') = conversations (db srv).
Proof. split; reflexivity. Qed.

(** C7, at the failing input. bob has one unread message from alice in
    conversation 0. His [message_read] for the conversation over the
    socket turns the message to read and leaves his unread counter at 1;
    the HTTP endpoint, on the same store, sets it to 0. *)
Theorem socket_read_mark_keeps_unread_counter :
  (unreadCount <$> find_by conv_id 0 (conversations (db Trace.srv_sent)))
    ≫= (.!! "bob") = Some 1
  ∧ msg_status
      <$> Message_findById 1
            (db (fst (message_read Scenario.b1 (mkReadData None (Some 0))
                        Trace.srv_sent)))
    = Some Read
  ∧ (unreadCount
       <$> find_by conv_id 0
             (conversations
                (db (fst (message_read Scenario.b1 (mkReadData None (Some 0))
                            Trace.srv_sent)))))
      ≫= (.!! "bob") = Some 1
  ∧ (unreadCount
       <$> find_by conv_id 0
             (conversations
                (snd (markMessagesAsRead 0 "bob" (db Trace.srv_sent)))))
      ≫= (.!! "bob") = Some 0.
Proof. split; [|split; [|split]]; reflexivity. Qed.

(* ===================================================================== *)
(** ** Events from a non-participant                                      *)
(* ===================================================================== *)

(** No socket handler compares the caller with the participants of the
    conversation, or with the receiver of the message, it is given. *)
Lemma message_read_single_overwrites (s : Session) (mid : nat)
    (cid : option nat) (srv : Server) (m : Message) :
  Message_findById mid (db srv) = Some m →
  Message_findById mid
    (db (fst (message_read s (mkReadData (Some mid) cid) srv)))
  = Some (set_status Read m).
Proof.
  intros Hfind. unfold message_read. simpl.
  pose proof (findByIdAndUpdate_overwrites mid Read (db srv) m Hfind) as H.
  by destruct (Message_findByIdAndUpdate mid Read (db srv)) as [[[m'|]|] d'].
Qed.

(** C8, at the failing input. carol is not a participant of conversation 0
    (alice and bob) and not the receiver of message 1. Her [send_message]
    naming conversation 0 is carried out: a message is stored in that
    conversation, bob's unread counter goes up, and she is answered with
    [message_sent], not with an error. Her [message_read] of message 1
    turns it to read, and no error is emitted. *)
Theorem stranger_events_are_carried_out :
  (isParticipant "carol"
     <$> find_by conv_id 0 (conversations (db Trace.srv_sent))) = Some false
  ∧ snd (send_message Scenario.c1 Trace.intrusion Trace.srv_sent)
    = [(ToSocket "sock-c1",
        message_sent (mkMessage 2 0 "carol" "bob" Text "psst" Sent false) 0)]
  ∧ messages (db (fst (send_message Scenario.c1 Trace.intrusion
                         Trace.srv_sent)))
    = [mkMessage 1 0 "alice" "bob" Text "hi" Sent false;
       mkMessage 2 0 "carol" "bob" Text "psst" Sent false]
  ∧ conversations (db (fst (send_message Scenario.c1 Trace.intrusion
                              Trace.srv_sent)))
    = [mkConversation 0 ["alice"; "bob"] (Some 2) {["bob" := 2]}]
  ∧ msg_status
      <$> Message_findById 1
            (db (fst (message_read Scenario.c1 (mkReadData (Some 1) None)
                        Trace.srv_sent)))
    = Some Read
  ∧ snd (message_read Scenario.c1 (mkReadData (Some 1) None) Trace.srv_sent)
    = [].
Proof. split; [|split; [|split; [|split; [|split]]]]; reflexivity. Qed.

(* ===================================================================== *)
(** ** Reachable worlds                                                   *)
(* ===================================================================== *)






Lemma disconnect_wf (s : Session) (srv : Server) :
  db_wf (db srv) → db_wf (db (fst (disconnect s srv))).
Proof.
  intros [Hc Hm Hr Hn]. unfold disconnect, User_update. simpl.
  by destruct (users (db srv) !! sock_user s).
Qed.



Lemma acceptRequest_wf (rid : nat) (u : UserId) (d : Db) :
  db_wf d → db_wf (snd (acceptRequest rid u d)).
Proof.
  intros Hwf. unfold acceptRequest.
  destruct (ChatRequest_findById rid d) as [rq|]; [|done].
  destruct (negb (String.eqb (req_receiver rq) u)); [done|].
  destruct (negb (bool_decide (req_status rq = Pending))); [done|].
  assert (db_wf (ChatRequest_save (set_req_status Accepted rq) d)) as Hwf1.
  { destruct Hwf as [Hc Hm Hr Hn]. split; simpl; try done.
    by apply below_replace_by. }
  apply (create_conversation_wf _ _ Hwf1).
Qed.







Lemma handle_send (s : Session) (data : SendData) (w : World) :
  server (fst (handle (SendMessage s data) w))
  = fst (send_message s data (server w))
  ∧ snd (handle (SendMessage s data) w) = snd (send_message s data (server w)).
Proof. simpl. by destruct (send_message s data (server w)). Qed.




(* ===================================================================== *)
(** ** One socket per user, in every reachable world                      *)
(* ===================================================================== *)






(** The same send after a third session of bob has come and gone: the
    disconnect emptied the registry entry, and neither of the two sessions
    bob still holds receives the message. *)
Lemma no_push_after_a_disconnect :
  live (run Trace.ins_come_and_gone Trace.w0)
  = [Scenario.a1; Scenario.b1; Scenario.b2]
  ∧ last_registered Scenario.bob Trace.ins_come_and_gone = None
  ∧ pushes Scenario.b1
      (snd (handle (SendMessage Scenario.a1 (Scenario.hi Scenario.bob))
              (run Trace.ins_come_and_gone Trace.w0))) = []
  ∧ pushes Scenario.b2
      (snd (handle (SendMessage Scenario.a1 (Scenario.hi Scenario.bob))
              (run Trace.ins_come_and_gone Trace.w0))) = [].
Proof. vm_compute. done. Qed.

(* ===================================================================== *)
(** ** Presence and the registry                                          *)
(* ===================================================================== *)

Lemma disconnect_store (s : Session) (srv : Server) :
  conversations (db (fst (disconnect s srv))) = conversations (db srv)
  ∧ messages (db (fst (disconnect s srv))) = messages (db srv)
  ∧ requests (db (fst (disconnect s srv))) = requests (db srv)
  ∧ next_id (db (fst (disconnect s srv))) = next_id (db srv).
Proof.
  unfold disconnect, User_update. simpl.
  by destruct (users (db srv) !! sock_user s).
Qed.




(** X1. The disconnect handler removes the registry entry of the user
    whatever socket it holds. When a user has a second session connected,
    the disconnect of the first leaves that session connected but the
    user without entry: a valid message sent to them afterwards is stored
    as sent and nothing is pushed to the session that is still there. *)
Theorem disconnect_unregisters_user_of_other_session
    (w : World) (s s' p : Session) (data : SendData)
    (ty c : string) (t : MsgType) :
  db_wf (db (server w)) →
  In s' (live w) →
  sock_user s' = sock_user s →
  sock_id s' ≠ sock_id s →
  valid_fields data (sock_user s') ty c t →
  names_conversation data (db (server w)) →
  let w' := fst (handle (Disconnect s) w) in
  let es := snd (handle (SendMessage p data) w') in
  In s' (live w')
  ∧ connectedUsers (server w') !! sock_user s' = None
  ∧ (∃ m cid, es = [(ToSocket (sock_id p), message_sent m cid)]
              ∧ msg_status m = Sent)
  ∧ pushes s' es = [].
Proof.
  intros Hwf Hin Hu Hid Hv Hn w' es.
  assert (server w' = fst (disconnect s (server w))) as Hsrv by reflexivity.
  assert (In s' (live w')) as Hin'.
  { subst w'. simpl. apply filter_In. split; [done|].
    apply negb_true_iff, String.eqb_neq. done. }
  assert (connectedUsers (server w') !! sock_user s' = None) as Hnone.
  { rewrite Hsrv. simpl. rewrite Hu. apply lookup_delete_eq. }
  assert (db_wf (db (server w'))) as Hwf'
    by (rewrite Hsrv; by apply disconnect_wf).
  assert (names_conversation data (db (server w'))) as Hn'.
  { intros cid Hcid. rewrite Hsrv.
    destruct (disconnect_store s (server w)) as (-> & _). by apply Hn. }
  destruct (send_message_receiver_offline p data (server w') (sock_user s')
              ty c t Hwf' Hv Hn' Hnone)
    as (m & cid & Hes & _ & _ & _ & Hst & _).
  destruct (handle_send p data w') as [_ Hems].
  split; [done|]. split; [done|].
  subst es. rewrite Hems, Hes. split; [by exists m, cid|].
  unfold pushes, inbox. simpl. by destruct (String.eqb _ _).
Qed.

Lemma disconnect_unregisters_user_of_other_session_witness :
  db_wf (db (server Further.w_two))
  ∧ In Scenario.b2 (live Further.w_two)
  ∧ sock_user Scenario.b2 = sock_user Scenario.b1
  ∧ sock_id Scenario.b2 ≠ sock_id Scenario.b1
  ∧ valid_fields (Scenario.hi Scenario.bob) (sock_user Scenario.b2)
      "text" "hi" Text
  ∧ names_conversation (Scenario.hi Scenario.bob) (db (server Further.w_two))
  ∧ In Scenario.b2 (live (fst (handle (Disconnect Scenario.b1) Further.w_two)))
  ∧ pushes Scenario.b2
      (snd (handle (SendMessage Scenario.a1 (Scenario.hi Scenario.bob))
              (fst (handle (Disconnect Scenario.b1) Further.w_two))))
    = [].
Proof.
  assert (db_wf (db (server Further.w_two))) as Hwf
    by (split; simpl; constructor).
  assert (In Scenario.b2 (live Further.w_two)) as Hin
    by (simpl; auto).
  assert (sock_user Scenario.b2 = sock_user Scenario.b1) as Hu
    by reflexivity.
  assert (sock_id Scenario.b2 ≠ sock_id Scenario.b1) as Hid by discriminate.
  assert (valid_fields (Scenario.hi Scenario.bob) (sock_user Scenario.b2)
            "text" "hi" Text)
    as Hv by (split; simpl; (reflexivity || discriminate)).
  assert (names_conversation (Scenario.hi Scenario.bob)
            (db (server Further.w_two)))
    as Hn by (intros cid Hcid; discriminate Hcid).
  split; [exact Hwf|]. split; [exact Hin|]. split; [exact Hu|].
  split; [exact Hid|]. split; [exact Hv|]. split; [exact Hn|].
  destruct (disconnect_unregisters_user_of_other_session Further.w_two
              Scenario.b1 Scenario.b2 Scenario.a1 (Scenario.hi Scenario.bob)
              "text" "hi" Text Hwf Hin Hu Hid Hv Hn)
    as (Hlive & _ & _ & Hpush).
  split; [exact Hlive | exact Hpush].
Defined.

(** X2. Connecting and then disconnecting a socket of a user who had no
    registry entry gives the registry back as it was and leaves the
    conversations, messages and requests untouched; the user's document,
    if there is one, ends offline with no socket id, and no other user's
    document changes. *)
Theorem connect_disconnect_round_trip (s : Session) (srv : Server) :
  connectedUsers srv !! sock_user s = None →
  let srv' := fst (disconnect s (fst (connection s srv))) in
  connectedUsers srv' = connectedUsers srv
  ∧ conversations (db srv') = conversations (db srv)
  ∧ messages (db srv') = messages (db srv)
  ∧ requests (db srv') = requests (db srv)
  ∧ (is_Some (users (db srv) !! sock_user s) →
     users (db srv') !! sock_user s = Some (mkUser false None))
  ∧ (∀ u, u ≠ sock_user s → users (db srv') !! u = users (db srv) !! u)
  ∧ dom (users (db srv')) = dom (users (db srv)).
Proof.
  intros Hnone srv'. subst srv'.
  destruct (disconnect_store s (fst (connection s srv))) as (Ec & Em & Er & _).
  destruct (connection_store s srv) as (Ec' & Em' & Er' & _).
  split; [|split; [|split; [|split; [|split; [|split]]]]].
  - simpl. rewrite delete_insert_eq. by apply delete_id.
  - by rewrite Ec, Ec'.
  - by rewrite Em, Em'.
  - by rewrite Er, Er'.
  - intros [usr Husr]. unfold disconnect, connection, User_update. simpl.
    rewrite Husr. simpl. rewrite lookup_insert_eq. simpl.
    apply lookup_insert_eq.
  - intros u Hu. unfold disconnect, connection, User_update. simpl.
    destruct (users (db srv) !! sock_user s) as [usr|] eqn:Husr; simpl.
    + rewrite lookup_insert_eq. simpl. by rewrite !lookup_insert_ne.
    + by rewrite Husr.
  - unfold disconnect, connection, User_update. simpl.
    destruct (users (db srv) !! sock_user s) as [usr|] eqn:Husr; simpl.
    + rewrite lookup_insert_eq. simpl. rewrite insert_insert_eq.
      apply dom_insert_lookup_L. eauto.
    + by rewrite Husr.
Qed.

Lemma connect_disconnect_round_trip_witness :
  connectedUsers Scenario.srv0 !! sock_user Scenario.a1 = None
  ∧ connectedUsers
      (fst (disconnect Scenario.a1 (fst (connection Scenario.a1 Scenario.srv0))))
    = connectedUsers Scenario.srv0.
Proof.
  assert (connectedUsers Scenario.srv0 !! sock_user Scenario.a1 = None)
    as Hnone by reflexivity.
  split; [exact Hnone|].
  exact (proj1 (connect_disconnect_round_trip Scenario.a1 Scenario.srv0 Hnone)).
Defined.

(* ===================================================================== *)
(** ** Who an emission reaches                                            *)
(* ===================================================================== *)





(* ===================================================================== *)
(** ** More of the send and read handlers                                 *)
(* ===================================================================== *)

Lemma mark_read_idempotent (cid : nat) (u : UserId) (ms : list Message) :
  mark_read cid u (mark_read cid u ms) = mark_read cid u ms.
Proof.
  unfold mark_read. rewrite map_map. apply map_ext. intros m.
  destruct (unread_for cid u m) eqn:Hm; [|by rewrite Hm].
  assert (unread_for cid u (set_status Read m) = false) as ->; [|done].
  unfold unread_for. simpl. apply andb_false_r.
Qed.

(** X5. The conversation form of [message_read] is idempotent on the
    store, and its notifications do not depend on what it changed: an
    immediate second call leaves the store as the first made it and
    emits the same [messages_read] events again. *)
Theorem conversation_read_mark_repeats
    (s : Session) (conversationId : nat) (srv : Server) :
  let data := mkReadData None (Some conversationId) in
  let first := message_read s data srv in
  let second := message_read s data (fst first) in
  fst second = fst first ∧ snd second = snd first.
Proof.
  intros data first second. subst data first second.
  unfold message_read, Message_updateMany, Message_find. simpl.
  fold (mark_read conversationId (sock_user s) (messages (db srv))).
  fold (mark_read conversationId (sock_user s)
          (mark_read conversationId (sock_user s) (messages (db srv)))).
  rewrite mark_read_idempotent. split; reflexivity.
Qed.

(** X6. A [send_message] that names a conversation id under which nothing
    is stored is answered with one [message_error] to the sender, and
    neither the store nor the registry changes. *)
Theorem send_to_unknown_conversation_rejected
    (s : Session) (data : SendData) (srv : Server) (cid : nat) :
  d_conversationId data = Some cid →
  find_by conv_id cid (conversations (db srv)) = None →
  ∃ error,
    send_message s data srv
    = (srv, [(ToSocket (sock_id s), message_error error)]).
Proof.
  intros Hcid Hfind. unfold send_message.
  destruct (falsy _ || falsy _ || falsy _); [by eexists|].
  unfold send_message_try, bind. rewrite Hcid, resolve_by_id, Hfind. simpl.
  eexists. by destruct srv.
Qed.

Lemma send_to_unknown_conversation_rejected_witness :
  d_conversationId Trace.intrusion = Some 0
  ∧ find_by conv_id 0 (conversations (db Scenario.srv0)) = None
  ∧ ∃ error,
      send_message Scenario.c1 Trace.intrusion Scenario.srv0
      = (Scenario.srv0, [(ToSocket "sock-c1", message_error error)]).
Proof.
  assert (d_conversationId Trace.intrusion = Some 0) as Hcid by reflexivity.
  assert (find_by conv_id 0 (conversations (db Scenario.srv0)) = None)
    as Hfind by reflexivity.
  split; [exact Hcid|]. split; [exact Hfind|].
  exact (send_to_unknown_conversation_rejected Scenario.c1 Trace.intrusion
           Scenario.srv0 0 Hcid Hfind).
Defined.

Lemma find_by_unique {A} (key : A → nat) (l : list A) (x : A) :
  NoDup (map key l) → In x l → find_by key (key x) l = Some x.
Proof.
  intros Hnd Hin.
  destruct (find_by key (key x) l) as [y|] eqn:Hfind.
  - apply find_by_Some in Hfind as [Hk Hy].
    by rewrite (NoDup_map_inj key l y x Hnd Hy Hin Hk).
  - apply find_by_None in Hfind. rewrite Forall_forall in Hfind.
    by destruct (Hfind x (proj2 (list_elem_of_In _ _) Hin)).
Qed.

(** X7. A valid send touches one conversation, the one named in the
    confirmation: its [lastMessage] becomes the id of the message just
    stored, the receiver's unread counter in it goes up by exactly one
    (from 0 if there was none), every other user's counter in it and
    every other conversation stay as they were. *)
Theorem send_message_counts_one_unread
    (s : Session) (data : SendData) (srv : Server)
    (r ty c : string) (t : MsgType) :
  db_wf (db srv) →
  valid_fields data r ty c t →
  names_conversation data (db srv) →
  let srv' := fst (send_message s data srv) in
  ∃ m cid conv',
    In (ToSocket (sock_id s), message_sent m cid) (snd (send_message s data srv))
    ∧ find_by conv_id cid (conversations (db srv')) = Some conv'
    ∧ lastMessage conv' = Some (msg_id m)
    ∧ Message_findById (msg_id m) (db srv') = Some m
    ∧ msg_conversationId m = cid
    ∧ unreadCount conv' !! r
      = Some (S (default 0
                   (find_by conv_id cid (conversations (db srv))
                    ≫= λ conv, unreadCount conv !! r)))
    ∧ (∀ u, u ≠ r →
         unreadCount conv' !! u
         = find_by conv_id cid (conversations (db srv))
           ≫= λ conv, unreadCount conv !! u)
    ∧ (∀ cid', cid' ≠ cid →
         find_by conv_id cid' (conversations (db srv'))
         = find_by conv_id cid' (conversations (db srv))).
Proof.
  intros Hwf Hv Hn srv'.
  destruct (resolve_conversation_total (sock_user s) r data (db srv) Hn)
    as (conv & d1 & Hres).
  destruct (resolve_conversation_wf _ _ _ _ _ _ Hwf Hres)
    as (Hwf1 & Hm1 & Hin1).
  specialize (Hin1 conv eq_refl).
  pose proof (send_message_store s data srv r ty c t conv d1 Hwf Hv Hres)
    as Hdb.
  cbv zeta in Hdb. fold srv' in Hdb.
  set (m0 := new_message s r t c conv d1) in *.
  set (st := match truthy_socket _ with Some _ => Delivered | None => Sent end)
    in Hdb.
  exists (set_status st m0), (conv_id conv), (touched r m0 conv).
  (* what the conversation was before *)
  assert (find_by conv_id (conv_id conv) (conversations d1) = Some conv)
    as Hself by (apply find_by_unique; [apply Hwf1 | done]).
  assert (∀ u, find_by conv_id (conv_id conv) (conversations (db srv))
               ≫= (λ conv0, unreadCount conv0 !! u)
               = unreadCount conv !! u) as Hbefore.
  { intros u. destruct (d_conversationId data) as [cid0|] eqn:Hcid.
    - rewrite resolve_by_id in Hres. injection Hres as Hf <-.
      by rewrite Hself.
    - destruct (List.find (all_in (sock_user s) r) (conversations (db srv)))
        as [c0|] eqn:Hfind.
      + rewrite (resolve_by_pair_found _ _ _ _ Hfind) in Hres.
        injection Hres as -> <-. by rewrite Hself.
      + rewrite (resolve_by_pair_created _ _ _ Hfind) in Hres.
        injection Hres as <- <-. simpl.
        assert (find_by conv_id (next_id (db srv)) (conversations (db srv))
                = None) as ->.
        { apply find_by_None. apply below_fresh, Hwf. }
        simpl. by rewrite lookup_empty. }
  assert (∀ cid', cid' ≠ conv_id conv →
            find_by conv_id cid' (conversations d1)
            = find_by conv_id cid' (conversations (db srv))) as Hothers.
  { intros cid' Hne. destruct (d_conversationId data) as [cid0|] eqn:Hcid.
    - rewrite resolve_by_id in Hres. by injection Hres as _ <-.
    - destruct (List.find (all_in (sock_user s) r) (conversations (db srv)))
        as [c0|] eqn:Hfind.
      + rewrite (resolve_by_pair_found _ _ _ _ Hfind) in Hres.
        by injection Hres as _ <-.
      + rewrite (resolve_by_pair_created _ _ _ Hfind) in Hres.
        injection Hres as <- <-. simpl. rewrite find_by_app.
        destruct (find_by conv_id cid' (conversations (db srv))); [done|].
        unfold find_by. simpl. rewrite bool_decide_eq_false_2; [done|].
        simpl in Hne. congruence. }
  split.
  { destruct (truthy_socket (connectedUsers srv !! r)) as [sid|] eqn:Hsock.
    - rewrite (send_message_online _ _ _ _ _ _ _ _ _ Hv Hres sid Hsock).
      subst st. simpl. right. by left.
    - rewrite (send_message_offline _ _ _ _ _ _ _ _ _ Hv Hres Hsock).
      subst st. simpl. by left. }
  rewrite Hdb. split; [|split; [done|split; [|split; [done|split; [|split]]]]].
  - simpl. change (conv_id conv) with (conv_id (touched r m0 conv)) at 1.
    rewrite find_by_replace_by. simpl. by rewrite Hself.
  - by apply (find_new_message _ (set_status st m0)).
  - rewrite Hbefore. simpl. rewrite lookup_insert_eq. f_equal. lia.
  - intros u Hu. rewrite Hbefore. simpl. by rewrite lookup_insert_ne.
  - intros cid' Hne. simpl.
    rewrite find_by_replace_by_ne by (simpl; congruence).
    by apply Hothers.
Qed.

Lemma send_message_counts_one_unread_witness :
  db_wf (db Trace.srv_sent)
  ∧ valid_fields (Scenario.hi Scenario.bob) "bob" "text" "hi" Text
  ∧ names_conversation (Scenario.hi Scenario.bob) (db Trace.srv_sent)
  ∧ ∃ conv',
      find_by conv_id 0
        (conversations
           (db (fst (send_message Scenario.a1 (Scenario.hi Scenario.bob)
                       Trace.srv_sent)))) = Some conv'
      ∧ unreadCount conv' !! "bob" = Some 2.
Proof.
  assert (db_wf (db Trace.srv_sent)) as Hwf.
  { split; simpl; repeat constructor. set_solver. }
  assert (valid_fields (Scenario.hi Scenario.bob) "bob" "text" "hi" Text)
    as Hv by (split; simpl; (reflexivity || discriminate)).
  assert (names_conversation (Scenario.hi Scenario.bob) (db Trace.srv_sent))
    as Hn by (intros cid Hcid; discriminate Hcid).
  split; [exact Hwf|]. split; [exact Hv|]. split; [exact Hn|].
  destruct (send_message_counts_one_unread Scenario.a1
              (Scenario.hi Scenario.bob) Trace.srv_sent "bob" "text" "hi" Text
              Hwf Hv Hn)
    as (m & cid & conv' & Hin & Hfind & _ & _ & Hcid & Hcount & _).
  assert (cid = 0) as ->.
  { destruct Hin as [Hin|[]]. by injection Hin as _ <-. }
  exists conv'. split; [exact Hfind | exact Hcount].
Defined.

(* ===================================================================== *)
(** ** What every handler keeps                                           *)
(* ===================================================================== *)

Lemma status_kept_refl (l : list Message) : status_kept l l.
Proof. intros k m Hk. by exists m. Qed.

Lemma status_kept_app (l x : list Message) : status_kept l (l ++ x).
Proof.
  intros k m Hk. exists m. split; [|done].
  rewrite lookup_app_l; [done|]. by eapply lookup_lt_Some.
Qed.

Lemma status_kept_map (f : Message → Message) (l : list Message) :
  (∀ m, msg_id (f m) = msg_id m
        ∧ status_rank (msg_status m) ≤ status_rank (msg_status (f m))) →
  status_kept l (map f l).
Proof.
  intros Hf k m Hk. exists (f m). split; [|apply Hf].
  change (map f l) with (f <$> l). by rewrite list_lookup_fmap, Hk.
Qed.

Lemma status_kept_replace (x : Message) (l : list Message) :
  (∀ m, In m l → msg_id m = msg_id x →
        status_rank (msg_status m) ≤ status_rank (msg_status x)) →
  status_kept l (replace_by msg_id x l).
Proof.
  intros Hx k m Hk. unfold replace_by.
  change (map ?f l) with (f <$> l). rewrite list_lookup_fmap, Hk. simpl.
  case_bool_decide as Hid.
  - exists x. split; [done|]. split; [done|].
    apply Hx; [|done]. apply list_elem_of_In. by eapply list_elem_of_lookup_2.
  - by exists m.
Qed.

Lemma rank_le_read (st : Status) : status_rank st ≤ status_rank Read.
Proof. destruct st; simpl; lia. Qed.

Lemma updateMany_status_kept (filter : Message → bool) (st : Status) (d : Db) :
  (∀ m, filter m = true → status_rank (msg_status m) ≤ status_rank st) →
  status_kept (messages d) (messages (snd (Message_updateMany filter st d))).
Proof.
  intros Hst. simpl. apply status_kept_map. intros m.
  destruct (filter m) eqn:Hm; [|done]. split; [done|]. by apply Hst.
Qed.

Lemma send_message_status_kept (s : Session) (data : SendData) (srv : Server) :
  db_wf (db srv) →
  status_kept (messages (db srv)) (messages (db (fst (send_message s data srv)))).
Proof.
  intros Hwf. unfold send_message.
  destruct (falsy _ || falsy _ || falsy _); [apply status_kept_refl|].
  unfold send_message_try, bind.
  destruct (resolve_conversation _ _ _ _) as [o d1] eqn:Hres.
  destruct (resolve_conversation_wf _ _ _ _ _ _ Hwf Hres) as (Hwf1 & Hm & _).
  destruct o as [[conv|]|]; simpl; try (rewrite Hm; apply status_kept_refl).
  unfold Message_create.
  destruct (parse_type _) as [t|]; simpl;
    [|rewrite Hm; apply status_kept_refl].
  destruct (String.eqb _ ""); simpl; [rewrite Hm; apply status_kept_refl|].
  destruct (truthy_socket _); simpl.
  - rewrite replace_by_last; [rewrite Hm; apply status_kept_app|done|].
    simpl. apply below_fresh, Hwf1.
  - rewrite Hm. apply status_kept_app.
Qed.

(** X8. No handler but the delivered mark lowers the status of a stored
    message: along every other socket event or controller call a message
    keeps its place and id, and its status stays or rises in the order
    sent, delivered, read. *)
Theorem status_only_rises_outside_delivered_mark (i : Input) (w : World) :
  db_wf (db (server w)) →
  (∀ s messageId, i ≠ MessageDelivered s messageId) →
  status_kept (messages (db (server w)))
              (messages (db (server (fst (handle i w))))).
Proof.
  intros Hwf Hi. destruct i; simpl.
  - destruct (connection_store s (server w)) as (_ & Em & _).
    unfold connection in Em. simpl in Em. rewrite Em. apply status_kept_refl.
  - destruct (disconnect_store s (server w)) as (_ & Em & _).
    unfold disconnect in Em. simpl in Em. rewrite Em. apply status_kept_refl.
  - pose proof (send_message_status_kept s data (server w) Hwf) as H.
    by destruct (send_message s data (server w)).
  - by destruct (Hi s messageId).
  - unfold message_read. destruct (rd_messageId data) as [mid|].
    + unfold Message_findByIdAndUpdate.
      destruct (Message_findById mid (db (server w))) as [m0|]; simpl;
        [|apply status_kept_refl].
      apply status_kept_replace. intros m _ _. apply rank_le_read.
    + destruct (rd_conversationId data) as [cid|]; [|apply status_kept_refl].
      apply (updateMany_status_kept _ Read). intros m _. apply rank_le_read.
  - unfold http, getMessages, Conversation_findById.
    destruct (find_by conv_id conversationId _) as [conv|]; simpl;
      [|apply status_kept_refl].
    destruct (negb (isParticipant userId conv)); [apply status_kept_refl|].
    destruct (_ <? 0)%Z; [apply status_kept_refl|].
    apply (updateMany_status_kept _ Delivered). intros m Hm.
    unfold sent_to in Hm. apply andb_true_iff in Hm as [_ Hm].
    apply bool_decide_eq_true_1 in Hm. rewrite Hm. simpl. lia.
  - unfold http, markMessagesAsRead, Conversation_findById.
    destruct (find_by conv_id conversationId _) as [conv|]; simpl;
      [|apply status_kept_refl].
    destruct (negb (isParticipant userId conv)); [apply status_kept_refl|].
    simpl. apply status_kept_map. intros m.
    destruct (unread_for _ _ m); [|done]. split; [done|]. apply rank_le_read.
  - unfold http, acceptRequest.
    destruct (ChatRequest_findById requestId _) as [rq|];
      [|apply status_kept_refl].
    destruct (negb (String.eqb _ _)); [apply status_kept_refl|].
    destruct (negb (bool_decide _)); apply status_kept_refl.
Qed.

Lemma status_only_rises_outside_delivered_mark_witness :
  db_wf (db Trace.srv_sent)
  ∧ (∀ s messageId,
       GetMessages 0 "bob" 1 50 ≠ MessageDelivered s messageId)
  ∧ status_kept (messages (db Trace.srv_sent))
      (messages
         (db (server (fst (handle (GetMessages 0 "bob" 1 50)
                             (mkWorld Trace.srv_sent [])))))).
Proof.
  assert (db_wf (db Trace.srv_sent)) as Hwf.
  { split; simpl; repeat constructor. set_solver. }
  assert (∀ s messageId,
            GetMessages 0 "bob" 1 50 ≠ MessageDelivered s messageId) as Hi
    by discriminate.
  split; [exact Hwf|]. split; [exact Hi|].
  exact (status_only_rises_outside_delivered_mark (GetMessages 0 "bob" 1 50)
           (mkWorld Trace.srv_sent []) Hwf Hi).
Defined.

Lemma find_by_map {A} (key : A → nat) (f : A → A) (id : nat) (l : list A) :
  (∀ x, key (f x) = key x) →
  find_by key id (map f l) = f <$> find_by key id l.
Proof.
  intros Hf. unfold find_by. induction l as [|x l IH]; simpl; [done|].
  rewrite Hf. by case_bool_decide.
Qed.

Lemma In_replace_by {A} (key : A → nat) (x y : A) (l : list A) :
  In y (replace_by key x l) →
  (y = x ∧ ∃ z, In z l ∧ key z = key x) ∨ In y l.
Proof.
  unfold replace_by. intros Hin. apply in_map_iff in Hin as (z & Hz & Hin).
  case_bool_decide as Hk; subst y; [left | by right].
  split; [done|]. by exists z.
Qed.

Lemma msgs_kept_refl (l : list Message) : msgs_kept l l.
Proof. intros mid m Hm. by exists m. Qed.

Lemma msgs_kept_app (l x : list Message) : msgs_kept l (l ++ x).
Proof. intros mid m Hm. exists m. by rewrite find_by_app, Hm. Qed.

Lemma msgs_kept_map (f : Message → Message) (l : list Message) :
  (∀ m, msg_id (f m) = msg_id m
        ∧ msg_conversationId (f m) = msg_conversationId m) →
  msgs_kept l (map f l).
Proof.
  intros Hf mid m Hm. exists (f m).
  rewrite find_by_map by apply Hf. rewrite Hm. split; [done|apply Hf].
Qed.

Lemma msgs_kept_replace (x : Message) (l : list Message) :
  (∀ m0, find_by msg_id (msg_id x) l = Some m0 →
         msg_conversationId x = msg_conversationId m0) →
  msgs_kept l (replace_by msg_id x l).
Proof.
  intros Hx mid m Hm. destruct (decide (msg_id x = mid)) as [<-|Hne].
  - exists x. rewrite find_by_replace_by, Hm. split; [done|]. by apply Hx.
  - exists m. by rewrite find_by_replace_by_ne.
Qed.

(** What is asked of a step for both invariants to pass over it. *)
Lemma invariants_step (d d' : Db) :
  convs_from d d' →
  msgs_kept (messages d) (messages d') →
  (last_message_ok d → last_message_ok d')
  ∧ (two_participants d → two_participants d').
Proof.
  intros Hc Hm. split.
  - intros Hok c' mid Hin Hlast. destruct (Hc c' Hin) as [_ Hl].
    destruct Hl as [Hl|[(c & Hcin & Hid & Hl)|(m & Hl & Hfind & Hconv)]].
    + congruence.
    + rewrite Hl in Hlast. destruct (Hok c mid Hcin Hlast) as (m & Hf & Hmc).
      destruct (Hm mid m Hf) as (m' & Hf' & Hmc').
      exists m'. split; [done|]. congruence.
    + rewrite Hl in Hlast. injection Hlast as <-. by exists m.
  - unfold two_participants. rewrite !Forall_forall. intros Hok c' Hin.
    apply list_elem_of_In in Hin. destruct (Hc c' Hin) as [Hp _].
    destruct Hp as [(c & Hcin & ->)|Hp]; [|done].
    apply Hok. by apply list_elem_of_In.
Qed.

Lemma convs_from_same (d d' : Db) :
  conversations d' = conversations d → convs_from d d'.
Proof.
  intros Heq c' Hin. rewrite Heq in Hin.
  split; [left | right; left]; by exists c'.
Qed.

(** Replacing a stored conversation by one with its participants and
    [lastMessage]. *)
Lemma convs_from_resave (d d' : Db) (conv conv' : Conversation) :
  conversations d' = replace_by conv_id conv' (conversations d) →
  In conv (conversations d) →
  conv_id conv' = conv_id conv → participants conv' = participants conv →
  lastMessage conv' = lastMessage conv →
  convs_from d d'.
Proof.
  intros Heq Hin Hid Hp Hl c' Hc'. rewrite Heq in Hc'.
  apply In_replace_by in Hc' as [[-> _]|Hc'].
  - split; [left | right; left]; by exists conv.
  - split; [left | right; left]; by exists c'.
Qed.

Lemma convs_from_create (d d' : Db) (ps : list UserId) (n : nat) :
  conversations d' = conversations d ++ [mkConversation n ps None ∅] →
  length ps = 2 →
  convs_from d d'.
Proof.
  intros Heq Hps c' Hc'. rewrite Heq in Hc'.
  apply in_app_or in Hc' as [Hc'|[<-|[]]].
  - split; [left | right; left]; by exists c'.
  - split; [by right | by left].
Qed.

Lemma resolve_conversation_from (a b : UserId) (cid : option nat) (d d1 : Db)
    (o : Outcome (option Conversation)) :
  resolve_conversation a b cid d = (o, d1) →
  convs_from d d1 ∧ messages d1 = messages d.
Proof.
  intros Hres. destruct cid as [cid|].
  - rewrite resolve_by_id in Hres. injection Hres as _ <-.
    split; [by apply convs_from_same | done].
  - destruct (List.find (all_in a b) (conversations d)) as [c|] eqn:Hfind.
    + rewrite (resolve_by_pair_found _ _ _ _ Hfind) in Hres.
      injection Hres as _ <-. split; [by apply convs_from_same | done].
    + rewrite (resolve_by_pair_created _ _ _ Hfind) in Hres.
      injection Hres as _ <-. split; [|done].
      by eapply convs_from_create.
Qed.

(** The store after a send that went through. *)
Lemma after_send_from (d d1 : Db) (conv : Conversation) (r : UserId)
    (m m' : Message) :
  db_wf d1 →
  convs_from d d1 → messages d1 = messages d →
  In conv (conversations d1) →
  msg_id m = next_id d1 → msg_id m' = next_id d1 →
  msg_conversationId m' = conv_id conv →
  convs_from d (after_send (touched r m conv) m' d1)
  ∧ msgs_kept (messages d) (messages (after_send (touched r m conv) m' d1)).
Proof.
  intros Hwf1 Hfrom Hmsgs Hin Hid Hid' Hconv. split.
  - intros c' Hc'. simpl in Hc'.
    apply In_replace_by in Hc' as [[-> _]|Hc'].
    + split.
      * destruct (Hfrom conv Hin) as [Hp _]. exact Hp.
      * right. right. exists m'. simpl. rewrite Hid, Hid'.
        split; [done|]. split; [|done]. rewrite <- Hid'.
        by apply find_new_message.
    + destruct (Hfrom c' Hc') as [Hp Hl]. split; [done|].
      destruct Hl as [Hl|[Hl|(m0 & Hl & Hf & Hmc)]]; [by left|by right; left|].
      right. right. exists m0. split; [done|]. split; [|done].
      unfold Message_findById. simpl. rewrite find_by_app.
      unfold Message_findById in Hf. by rewrite Hf.
  - simpl. rewrite Hmsgs. apply msgs_kept_app.
Qed.

Lemma send_message_from (s : Session) (data : SendData) (srv : Server) :
  db_wf (db srv) →
  convs_from (db srv) (db (fst (send_message s data srv)))
  ∧ msgs_kept (messages (db srv))
              (messages (db (fst (send_message s data srv)))).
Proof.
  intros Hwf. unfold send_message.
  destruct (falsy _ || falsy _ || falsy _);
    [split; [by apply convs_from_same | apply msgs_kept_refl]|].
  unfold send_message_try, bind.
  destruct (resolve_conversation _ _ _ _) as [o d1] eqn:Hres.
  destruct (resolve_conversation_wf _ _ _ _ _ _ Hwf Hres) as (Hwf1 & _ & Hin).
  destruct (resolve_conversation_from _ _ _ _ _ _ Hres) as [Hfrom Hmsgs].
  assert (convs_from (db srv) d1 ∧ msgs_kept (messages (db srv)) (messages d1))
    as Hd1 by (split; [done|]; rewrite Hmsgs; apply msgs_kept_refl).
  destruct o as [[conv|]|]; simpl; try exact Hd1.
  unfold Message_create.
  destruct (parse_type _) as [t|]; simpl; [|exact Hd1].
  destruct (String.eqb _ ""); simpl; [exact Hd1|].
  specialize (Hin conv eq_refl).
  set (m := mkMessage (next_id d1) (conv_id conv) _ _ t _ Sent false).
  destruct (truthy_socket _); simpl.
  - change (convs_from (db srv)
              (after_delivery m
                 (after_send (touched (default "" (d_receiverId data)) m conv)
                    m d1))
            ∧ msgs_kept (messages (db srv))
                (messages
                   (after_delivery m
                      (after_send
                         (touched (default "" (d_receiverId data)) m conv)
                         m d1)))).
    rewrite after_delivery_after_send by done.
    by apply (after_send_from (db srv) d1 conv _ m (set_status Delivered m)).
  - by apply (after_send_from (db srv) d1 conv _ m m).
Qed.

Lemma step_same (d d' : Db) :
  conversations d' = conversations d → messages d' = messages d →
  convs_from d d' ∧ msgs_kept (messages d) (messages d').
Proof.
  intros Hc Hm. split; [by apply convs_from_same|].
  rewrite Hm. apply msgs_kept_refl.
Qed.

Lemma findByIdAndUpdate_from (id : nat) (st : Status) (d : Db) :
  convs_from d (snd (Message_findByIdAndUpdate id st d))
  ∧ msgs_kept (messages d)
              (messages (snd (Message_findByIdAndUpdate id st d))).
Proof.
  unfold Message_findByIdAndUpdate.
  destruct (Message_findById id d) as [m0|] eqn:Hfind; simpl;
    [|by apply step_same].
  split; [by apply convs_from_same|]. simpl.
  apply msgs_kept_replace. simpl. intros m1 Hm1.
  apply find_by_Some in Hfind as Hid. destruct Hid as [<- _].
  unfold Message_findById in Hfind. congruence.
Qed.

Lemma updateMany_from (filter : Message → bool) (st : Status) (d : Db) :
  convs_from d (snd (Message_updateMany filter st d))
  ∧ msgs_kept (messages d) (messages (snd (Message_updateMany filter st d))).
Proof.
  split; [by apply convs_from_same|]. simpl.
  apply msgs_kept_map. intros m. by destruct (filter m).
Qed.

Lemma handle_from (i : Input) (w : World) :
  db_wf (db (server w)) →
  convs_from (db (server w)) (db (server (fst (handle i w))))
  ∧ msgs_kept (messages (db (server w)))
              (messages (db (server (fst (handle i w))))).
Proof.
  intros Hwf. destruct i; simpl.
  - destruct (connection_store s (server w)) as (Ec & Em & _).
    by apply step_same.
  - destruct (disconnect_store s (server w)) as (Ec & Em & _).
    by apply step_same.
  - pose proof (send_message_from s data (server w) Hwf) as H.
    by destruct (send_message s data (server w)).
  - pose proof (findByIdAndUpdate_from messageId Delivered (db (server w)))
      as H.
    rewrite <- message_delivered_store with (s := s) in H.
    by destruct (message_delivered s messageId (server w)).
  - unfold message_read. destruct (rd_messageId data) as [mid|].
    + pose proof (findByIdAndUpdate_from mid Read (db (server w))) as H.
      by destruct (Message_findByIdAndUpdate mid Read (db (server w)))
        as [[[m|]|] d'].
    + destruct (rd_conversationId data) as [cid|]; [|by apply step_same].
      apply (updateMany_from _ Read).
  - unfold http, getMessages, Conversation_findById.
    destruct (find_by conv_id conversationId _) as [conv|]; simpl;
      [|by apply step_same].
    destruct (negb (isParticipant userId conv)); [by apply step_same|].
    destruct (_ <? 0)%Z; [by apply step_same|].
    apply (updateMany_from _ Delivered).
  - unfold http, markMessagesAsRead, Conversation_findById.
    destruct (find_by conv_id conversationId _) as [conv|] eqn:Hfind; simpl;
      [|by apply step_same].
    destruct (negb (isParticipant userId conv)); [by apply step_same|].
    simpl. split.
    + apply find_by_Some in Hfind as [_ Hin].
      by apply (convs_from_resave _ _ conv (set_unread userId 0 conv)).
    + apply msgs_kept_map. intros m. by destruct (unread_for _ _ m).
  - unfold http, acceptRequest.
    destruct (ChatRequest_findById requestId _) as [rq|];
      [|by apply step_same].
    destruct (negb (String.eqb _ _)); [by apply step_same|].
    destruct (negb (bool_decide _)); [by apply step_same|]. simpl.
    split; [|apply msgs_kept_refl].
    by eapply convs_from_create.
Qed.

Lemma In_remove_by {A} (key : A → nat) (id : nat) (l : list A) (x : A) :
  NoDup (map key l) → In x (remove_by key id l) → In x l ∧ key x ≠ id.
Proof.
  induction l as [|a l IH]; simpl; [done|].
  intros Hnd Hin. apply NoDup_cons in Hnd as [Ha Hnd].
  case_bool_decide as Hk.
  - split; [by right|]. intros Hx. apply Ha. rewrite Hk, <- Hx.
    apply list_elem_of_In. by apply in_map.
  - destruct Hin as [<-|Hin]; [split; [by left | done]|].
    destruct (IH Hnd Hin). split; [by right | done].
Qed.

Lemma find_by_filter {A} (key : A → nat) (id : nat) (p : A → bool)
    (l : list A) (m : A) :
  find_by key id l = Some m → p m = true →
  find_by key id (List.filter p l) = Some m.
Proof.
  unfold find_by. induction l as [|a l IH]; simpl; [done|].
  intros Hfind Hp. case_bool_decide as Hk.
  - injection Hfind as ->. rewrite Hp. simpl.
    by rewrite bool_decide_eq_true_2.
  - destruct (p a); simpl; [rewrite bool_decide_eq_false_2 by done|];
      by apply IH.
Qed.

Lemma deleteMessage_from (mid : nat) (u : UserId) (d : Db) :
  convs_from d (snd (deleteMessage mid u d))
  ∧ msgs_kept (messages d) (messages (snd (deleteMessage mid u d))).
Proof.
  unfold deleteMessage.
  destruct (Message_findById mid d) as [m0|] eqn:Hfind; simpl;
    [|by apply step_same].
  destruct (negb (String.eqb _ _)); [by apply step_same|]. simpl.
  split; [by apply convs_from_same|].
  apply msgs_kept_replace. simpl. intros m1 Hm1.
  apply find_by_Some in Hfind as Hid. destruct Hid as [<- _].
  unfold Message_findById in Hfind. congruence.
Qed.

Lemma sendChatRequest_store (a b : UserId) (msg : option string) (d : Db) :
  conversations (snd (sendChatRequest a b msg d)) = conversations d
  ∧ messages (snd (sendChatRequest a b msg d)) = messages d
  ∧ users (snd (sendChatRequest a b msg d)) = users d.
Proof.
  unfold sendChatRequest.
  destruct (String.eqb a b); [done|].
  destruct (users d !! b); [|done].
  destruct (List.find (between a b) (requests d)) as [e|].
  - destruct (req_status e); try done.
    unfold ChatRequest_resave. simpl.
    destruct (negb (message_fits _)); [done|].
    by destruct (existsb _ _).
  - unfold ChatRequest_create. simpl.
    destruct (negb (message_fits _)); [done|].
    by destruct (existsb _ _).
Qed.

Lemma rejectRequest_store (rid : nat) (u : UserId) (d : Db) :
  conversations (snd (rejectRequest rid u d)) = conversations d
  ∧ messages (snd (rejectRequest rid u d)) = messages d.
Proof.
  unfold rejectRequest.
  destruct (ChatRequest_findById rid d) as [rq|]; [|done].
  destruct (negb (String.eqb _ _)); [done|].
  by destruct (negb (bool_decide _)).
Qed.

Lemma deleteConversation_keeps (cid : nat) (u : UserId) (d : Db) :
  db_wf d →
  (last_message_ok d → last_message_ok (snd (deleteConversation cid u d)))
  ∧ (two_participants d → two_participants (snd (deleteConversation cid u d))).
Proof.
  intros Hwf. unfold deleteConversation, Conversation_findById.
  destruct (find_by conv_id cid (conversations d)) as [conv|]; [|done].
  destruct (negb (isParticipant u conv)); [done|]. simpl. split.
  - intros Hok c' mid Hin Hlast. simpl in Hin.
    apply In_remove_by in Hin as [Hin Hne]; [|apply Hwf].
    destruct (Hok c' mid Hin Hlast) as (m & Hfind & Hconv).
    exists m. split; [|done]. unfold Message_findById. simpl.
    apply find_by_filter; [done|].
    apply negb_true_iff, bool_decide_eq_false_2. congruence.
  - unfold two_participants. rewrite !Forall_forall. intros Hok c' Hin.
    simpl in Hin. apply list_elem_of_In in Hin.
    apply In_remove_by in Hin as [Hin _]; [|apply Hwf].
    apply Hok. by apply list_elem_of_In.
Qed.

Lemma serve_keeps (c : Call) (d : Db) :
  db_wf d →
  (last_message_ok d → last_message_ok (serve c d))
  ∧ (two_participants d → two_participants (serve c d)).
Proof.
  intros Hwf. destruct c; simpl.
  - destruct (deleteMessage_from messageId userId d) as [Hc Hm].
    by apply invariants_step.
  - by apply deleteConversation_keeps.
  - destruct (sendChatRequest_store senderId receiverId message d)
      as (Hc & Hm & _).
    apply invariants_step; by apply step_same.
  - destruct (rejectRequest_store requestId userId d) as (Hc & Hm).
    apply invariants_step; by apply step_same.
Qed.

(** X9. No handler leaves a dangling [lastMessage]: if every conversation's
    [lastMessage] is the id of a stored message of that conversation, the
    same holds after any socket event and after any controller call,
    deletions included. *)
Theorem last_message_never_dangles (i : Input) (c : Call) (w : World) :
  db_wf (db (server w)) →
  last_message_ok (db (server w)) →
  last_message_ok (db (server (fst (handle i w))))
  ∧ last_message_ok (serve c (db (server w))).
Proof.
  intros Hwf Hok. split.
  - destruct (handle_from i w Hwf) as [Hc Hm].
    by apply (invariants_step _ _ Hc Hm).
  - by apply serve_keeps.
Qed.

(** X10. Every handler keeps conversations at exactly two participants:
    the two creating paths store two, and every save writes back the
    participants it loaded. *)
Theorem conversations_keep_two_participants
    (i : Input) (c : Call) (w : World) :
  db_wf (db (server w)) →
  two_participants (db (server w)) →
  two_participants (db (server (fst (handle i w))))
  ∧ two_participants (serve c (db (server w))).
Proof.
  intros Hwf Hok. split.
  - destruct (handle_from i w Hwf) as [Hc Hm].
    by apply (invariants_step _ _ Hc Hm).
  - by apply serve_keeps.
Qed.

Lemma last_message_never_dangles_witness :
  db_wf (db (server (mkWorld Trace.srv_sent [])))
  ∧ last_message_ok (db (server (mkWorld Trace.srv_sent [])))
  ∧ last_message_ok
      (db (server (fst (handle (SendMessage Scenario.b1
                                  (Scenario.hi Scenario.alice))
                          (mkWorld Trace.srv_sent [])))))
  ∧ last_message_ok
      (serve (DeleteConversation 0 "alice")
             (db (server (mkWorld Trace.srv_sent [])))).
Proof.
  assert (db_wf (db (server (mkWorld Trace.srv_sent [])))) as Hwf.
  { split; simpl; repeat constructor. set_solver. }
  assert (last_message_ok (db (server (mkWorld Trace.srv_sent [])))) as Hok.
  { intros c mid [<-|[]] [= <-]. eexists. split; reflexivity. }
  split; [exact Hwf|]. split; [exact Hok|].
  exact (last_message_never_dangles
           (SendMessage Scenario.b1 (Scenario.hi Scenario.alice))
           (DeleteConversation 0 "alice") (mkWorld Trace.srv_sent [])
           Hwf Hok).
Defined.

Lemma conversations_keep_two_participants_witness :
  db_wf (db (server (mkWorld Trace.srv_sent [])))
  ∧ two_participants (db (server (mkWorld Trace.srv_sent [])))
  ∧ two_participants
      (db (server (fst (handle (AcceptRequest 2 "bob")
                          (mkWorld (mkServer Trace.db_requested ∅) [])))))
  ∧ two_participants
      (serve (DeleteMessage 1 "alice")
             (db (server (mkWorld Trace.srv_sent [])))).
Proof.
  assert (db_wf (db (server (mkWorld Trace.srv_sent [])))) as Hwf.
  { split; simpl; repeat constructor. set_solver. }
  assert (two_participants (db (server (mkWorld Trace.srv_sent [])))) as Hok
    by (repeat constructor).
  assert (db_wf (db (server (mkWorld (mkServer Trace.db_requested ∅) []))))
    as Hwf'.
  { split; simpl; repeat constructor. set_solver. }
  assert (two_participants
            (db (server (mkWorld (mkServer Trace.db_requested ∅) []))))
    as Hok' by (repeat constructor).
  split; [exact Hwf|]. split; [exact Hok|]. split.
  - exact (proj1 (conversations_keep_two_participants (AcceptRequest 2 "bob")
                    (DeleteMessage 1 "alice")
                    (mkWorld (mkServer Trace.db_requested ∅) []) Hwf' Hok')).
  - exact (proj2 (conversations_keep_two_participants (AcceptRequest 2 "bob")
                    (DeleteMessage 1 "alice")
                    (mkWorld Trace.srv_sent []) Hwf Hok)).
Defined.

(** X11. The send handler does not tell a message to oneself from any
    other. With no conversation id supplied, the lookup by [$all] over the
    pair (a, a) matches any conversation the sender is in: the message is
    filed in the first such conversation, whoever its other participant
    is, and no conversation is created; only when the sender is in none
    is a conversation created, with the sender as both participants. *)
Theorem message_to_oneself
    (s : Session) (data : SendData) (srv : Server)
    (ty c : string) (t : MsgType) :
  db_wf (db srv) →
  valid_fields data (sock_user s) ty c t →
  d_conversationId data = None →
  let a := sock_user s in
  let srv' := fst (send_message s data srv) in
  match List.find (λ conv, bool_decide (a ∈ participants conv))
                  (conversations (db srv)) with
  | Some conv =>
      length (conversations (db srv')) = length (conversations (db srv))
      ∧ ∃ m, messages (db srv') = messages (db srv) ++ [m]
             ∧ msg_sender m = a ∧ msg_receiver m = a
             ∧ msg_conversationId m = conv_id conv
  | None =>
      ∃ conv m,
        conversations (db srv') = conversations (db srv) ++ [conv]
        ∧ participants conv = [a; a]
        ∧ unreadCount conv !! a = Some 1
        ∧ messages (db srv') = messages (db srv) ++ [m]
        ∧ msg_conversationId m = conv_id conv
  end.
Proof.
  intros Hwf Hv Hcid a srv'.
  assert (∀ l, List.find (all_in a a) l
               = List.find (λ conv, bool_decide (a ∈ participants conv)) l)
    as Hsame.
  { intros l. induction l as [|x l IH]; simpl; [done|].
    unfold all_in at 1. rewrite andb_diag. by destruct (bool_decide _). }
  destruct (List.find (λ conv, bool_decide (a ∈ participants conv))
              (conversations (db srv))) as [conv|] eqn:Hfind;
    rewrite <- Hsame in Hfind.
  - assert (resolve_conversation (sock_user s) (sock_user s)
              (d_conversationId data) (db srv) = (Ok (Some conv), db srv))
      as Hres by (rewrite Hcid; by apply resolve_by_pair_found).
    pose proof (send_message_store s data srv _ ty c t conv (db srv)
                  Hwf Hv Hres) as Hdb.
    cbv zeta in Hdb. fold srv' in Hdb. rewrite Hdb. simpl. split.
    + apply length_map.
    + eexists. split; [reflexivity|]. by destruct (truthy_socket _).
  - pose (conv0 := mkConversation (next_id (db srv)) [a; a] None ∅).
    assert (resolve_conversation (sock_user s) (sock_user s)
              (d_conversationId data) (db srv)
            = (Ok (Some conv0),
               bump_id (with_conversations (conversations (db srv) ++ [conv0])
                          (db srv)))) as Hres
      by (rewrite Hcid; by apply resolve_by_pair_created).
    pose proof (send_message_store s data srv _ ty c t _ _ Hwf Hv Hres)
      as Hdb.
    cbv zeta in Hdb. fold srv' in Hdb. rewrite Hdb. simpl.
    eexists _, _. split.
    { apply replace_by_last; [done|]. apply below_fresh, Hwf. }
    split; [done|]. split; [apply lookup_insert_eq|].
    split; [reflexivity|]. by destruct (truthy_socket _).
Qed.

Lemma message_to_oneself_witness :
  db_wf (db Trace.srv_sent)
  ∧ valid_fields (Scenario.hi Scenario.alice) (sock_user Scenario.a1)
      "text" "hi" Text
  ∧ d_conversationId (Scenario.hi Scenario.alice) = None
  ∧ ∃ m,
      messages (db (fst (send_message Scenario.a1 (Scenario.hi Scenario.alice)
                           Trace.srv_sent)))
      = messages (db Trace.srv_sent) ++ [m]
      ∧ msg_receiver m = "alice"
      ∧ msg_conversationId m = 0.
Proof.
  assert (db_wf (db Trace.srv_sent)) as Hwf.
  { split; simpl; repeat constructor. set_solver. }
  assert (valid_fields (Scenario.hi Scenario.alice) (sock_user Scenario.a1)
            "text" "hi" Text)
    as Hv by (split; simpl; (reflexivity || discriminate)).
  assert (d_conversationId (Scenario.hi Scenario.alice) = None) as Hcid
    by reflexivity.
  split; [exact Hwf|]. split; [exact Hv|]. split; [exact Hcid|].
  pose proof (message_to_oneself Scenario.a1 (Scenario.hi Scenario.alice)
                Trace.srv_sent "text" "hi" Text Hwf Hv Hcid) as H.
  simpl in H. destruct H as (_ & m & Hm & _ & Hr & Hc).
  exists m. split; [exact Hm|]. split; [exact Hr | exact Hc].
Defined.

(* ===================================================================== *)
(** ** The message and conversation controllers                           *)
(* ===================================================================== *)

(** X12. The controllers that work on a conversation refuse a caller who
    is no participant of it, or who names a conversation that is not
    stored: the answer is 403 or 404 and the store is left as it was. *)
Theorem strangers_are_refused
    (conversationId : nat) (userId : UserId) (page limit : Z) (d : Db) :
  (∀ conv, find_by conv_id conversationId (conversations d) = Some conv →
           isParticipant userId conv = false) →
  (refused (fst (getMessages conversationId userId page limit d))
   ∧ snd (getMessages conversationId userId page limit d) = d)
  ∧ (refused (fst (markMessagesAsRead conversationId userId d))
     ∧ snd (markMessagesAsRead conversationId userId d) = d)
  ∧ (refused (fst (getConversation conversationId userId d))
     ∧ snd (getConversation conversationId userId d) = d)
  ∧ (refused (fst (deleteConversation conversationId userId d))
     ∧ snd (deleteConversation conversationId userId d) = d).
Proof.
  intros Hno.
  unfold getMessages, markMessagesAsRead, getConversation, deleteConversation,
    Conversation_findById.
  destruct (find_by conv_id conversationId (conversations d)) as [conv|].
  - rewrite (Hno conv eq_refl). simpl. repeat split; by left.
  - simpl. repeat split; by right.
Qed.

Lemma strangers_are_refused_witness :
  (∀ conv, find_by conv_id 0 (conversations (db Trace.srv_sent)) = Some conv →
           isParticipant "carol" conv = false)
  ∧ refused (fst (deleteConversation 0 "carol" (db Trace.srv_sent)))
  ∧ snd (deleteConversation 0 "carol" (db Trace.srv_sent)) = db Trace.srv_sent.
Proof.
  assert (∀ conv,
            find_by conv_id 0 (conversations (db Trace.srv_sent)) = Some conv →
            isParticipant "carol" conv = false) as Hno
    by (intros conv [= <-]; reflexivity).
  split; [exact Hno|].
  exact (proj2 (proj2 (proj2 (strangers_are_refused 0 "carol" 1 50
                                (db Trace.srv_sent) Hno)))).
Defined.

(** X13. The page of the history endpoint. When the call succeeds, the
    messages returned are, in creation order and with the status they had
    before this call's update, the stretch of the conversation's messages
    that ends [skip] before the latest one and, for a limit other than 0,
    is at most |limit| long; [totalMessages] is the size of the whole
    conversation. *)
Theorem getMessages_page
    (conversationId : nat) (userId : UserId) (page limit : Z) (d : Db)
    (text : string) (data : MessagesData) :
  fst (getMessages conversationId userId page limit d)
  = sendSuccess 200 text data →
  let all :=
    Message_find (λ m, bool_decide (msg_conversationId m = conversationId)) d in
  let older := take (length all - Z.to_nat ((page - 1) * limit)) all in
  md_messages data
  = (if bool_decide (limit = 0%Z) then older
     else drop (length older - Z.abs_nat limit) older)
  ∧ md_messages data `sublist_of` messages d
  ∧ length (md_messages data)
    ≤ (if bool_decide (limit = 0%Z) then length all else Z.abs_nat limit)
  ∧ totalMessages (md_pagination data) = length all.
Proof.
  intros Hres all older.
  unfold getMessages, Conversation_findById in Hres.
  destruct (find_by conv_id conversationId (conversations d)) as [conv|];
    [|discriminate Hres].
  destruct (negb (isParticipant userId conv)); [discriminate Hres|].
  cbv zeta in Hres.
  destruct ((page - 1) * limit <? 0)%Z; [discriminate Hres|].
  injection Hres as _ <-.
  cbn [md_messages md_pagination totalMessages].
  assert (rev (recent_page conversationId ((page - 1) * limit) limit d)
          = (if bool_decide (limit = 0%Z) then older
             else drop (length older - Z.abs_nat limit) older)) as Heq.
  { unfold recent_page. fold all. rewrite skipn_rev.
    fold older. case_bool_decide.
    - apply rev_involutive.
    - by rewrite firstn_rev, rev_involutive. }
  rewrite Heq. split; [done|].
  assert (older `sublist_of` messages d) as Hsub.
  { subst older all. etrans; [apply sublist_take|].
    unfold Message_find. clear.
    induction (messages d) as [|m l IH]; simpl; [constructor|].
    destruct (bool_decide _); by constructor. }
  split; [|split; [|done]].
  - case_bool_decide; [done|]. etrans; [apply sublist_drop | done].
  - case_bool_decide.
    + subst older. rewrite length_take. lia.
    + rewrite length_drop. lia.
Qed.

Lemma getMessages_page_witness :
  fst (getMessages 0 "bob" 1 50 (db Trace.srv_sent))
  = sendSuccess 200 "Messages retrieved successfully"
      (mkMessagesData [mkMessage 1 0 "alice" "bob" Text "hi" Sent false]
         (mkPagination 1 (Some 1%Z) 1 false))
  ∧ md_messages
      (mkMessagesData [mkMessage 1 0 "alice" "bob" Text "hi" Sent false]
         (mkPagination 1 (Some 1%Z) 1 false))
    `sublist_of` messages (db Trace.srv_sent).
Proof.
  assert (fst (getMessages 0 "bob" 1 50 (db Trace.srv_sent))
          = sendSuccess 200 "Messages retrieved successfully"
              (mkMessagesData
                 [mkMessage 1 0 "alice" "bob" Text "hi" Sent false]
                 (mkPagination 1 (Some 1%Z) 1 false))) as Hres
    by reflexivity.
  split; [exact Hres|].
  exact (proj1 (proj2 (getMessages_page 0 "bob" 1 50 (db Trace.srv_sent)
                         _ _ Hres))).
Defined.

Lemma sent_to_idempotent (cid : nat) (u : UserId) (ms : list Message) :
  map (λ m, if sent_to cid u m then set_status Delivered m else m)
      (map (λ m, if sent_to cid u m then set_status Delivered m else m) ms)
  = map (λ m, if sent_to cid u m then set_status Delivered m else m) ms.
Proof.
  rewrite map_map. apply map_ext. intros m.
  destruct (sent_to cid u m) eqn:Hm; [|by rewrite Hm].
  assert (sent_to cid u (set_status Delivered m) = false) as ->; [|done].
  unfold sent_to. simpl. apply andb_false_r.
Qed.

(** X14. Fetching the history twice marks nothing more than fetching it
    once: after a call that succeeded, no message of the conversation
    addressed to the caller is still sent, and the same call made again
    succeeds and leaves the store as the first made it. *)
Theorem getMessages_marks_once
    (conversationId : nat) (userId : UserId) (page limit : Z) (d : Db) :
  is_error (fst (getMessages conversationId userId page limit d)) = false →
  let d1 := snd (getMessages conversationId userId page limit d) in
  Forall (λ m, sent_to conversationId userId m = false) (messages d1)
  ∧ is_error (fst (getMessages conversationId userId page limit d1)) = false
  ∧ snd (getMessages conversationId userId page limit d1) = d1.
Proof.
  intros Hok d1. subst d1. revert Hok.
  unfold getMessages, Conversation_findById.
  destruct (find_by conv_id conversationId (conversations d)) as [conv|] eqn:Hf;
    cbn [fst snd]; [|discriminate].
  destruct (negb (isParticipant userId conv)) eqn:Hp; cbn [fst snd];
    [discriminate|].
  cbv zeta.
  destruct ((page - 1) * limit <? 0)%Z eqn:Hs; cbn [fst snd]; [discriminate|].
  intros _.
  cbn [Message_updateMany fst snd conversations with_messages].
  rewrite Hf, Hp. cbn [fst snd is_error]. split; [|split; [done|]].
  - apply Forall_forall. intros m Hm. cbn [messages] in Hm.
    apply list_elem_of_In, in_map_iff in Hm as (m0 & <- & _).
    destruct (sent_to conversationId userId m0) eqn:Hm0; [|done].
    unfold sent_to. simpl. apply andb_false_r.
  - unfold with_messages. simpl. by rewrite sent_to_idempotent.
Qed.

Lemma getMessages_marks_once_witness :
  is_error (fst (getMessages 0 "bob" 1 50 (db Trace.srv_sent))) = false
  ∧ snd (getMessages 0 "bob" 1 50
           (snd (getMessages 0 "bob" 1 50 (db Trace.srv_sent))))
    = snd (getMessages 0 "bob" 1 50 (db Trace.srv_sent)).
Proof.
  split; [reflexivity|].
  exact (proj2 (proj2 (getMessages_marks_once 0 "bob" 1 50
                         (db Trace.srv_sent) eq_refl))).
Defined.

Lemma replace_by_idem {A} (key : A → nat) (x : A) (l : list A) :
  replace_by key x (replace_by key x l) = replace_by key x l.
Proof.
  unfold replace_by. rewrite map_map. apply map_ext. intros a.
  destruct (decide (key a = key x)) as [Ha|Ha].
  - rewrite !(bool_decide_eq_true_2 _ Ha).
    by rewrite bool_decide_eq_true_2.
  - by rewrite !(bool_decide_eq_false_2 _ Ha).
Qed.

Lemma mark_read_none_left (cid : nat) (u : UserId) (ms : list Message) :
  List.filter (unread_for cid u) (mark_read cid u ms) = [].
Proof.
  induction ms as [|m l IH]; [done|]. simpl.
  destruct (unread_for cid u m) eqn:Hm.
  - assert (unread_for cid u (set_status Read m) = false) as ->; [|done].
    unfold unread_for. simpl. apply andb_false_r.
  - by rewrite Hm.
Qed.

(** X15. The read mark of the HTTP endpoint repeats without effect: after
    a call that succeeded, the same call succeeds again, reports 0
    updated messages and leaves messages, unread counters and the rest of
    the store as the first call made them. *)
Theorem markMessagesAsRead_repeats
    (conversationId : nat) (userId : UserId) (d : Db) :
  is_error (fst (markMessagesAsRead conversationId userId d)) = false →
  let d1 := snd (markMessagesAsRead conversationId userId d) in
  markMessagesAsRead conversationId userId d1
  = (sendSuccess 200 "Messages marked as read" 0, d1).
Proof.
  intros Hok d1. subst d1. revert Hok.
  unfold markMessagesAsRead, Conversation_findById.
  destruct (find_by conv_id conversationId (conversations d)) as [conv|] eqn:Hf;
    cbn [fst snd]; [|discriminate].
  destruct (negb (isParticipant userId conv)) eqn:Hp; cbn [fst snd];
    [discriminate|].
  intros _.
  pose proof (find_by_Some _ _ _ _ Hf) as [Hin Hid].
  cbn [Message_updateMany Conversation_save fst snd conversations
       with_messages with_conversations messages].
  assert (find_by conv_id conversationId
            (replace_by conv_id (set_unread userId 0 conv) (conversations d))
          = Some (set_unread userId 0 conv)) as ->.
  { pose proof (find_by_replace_by conv_id (set_unread userId 0 conv)
                  (conversations d)) as Hr.
    cbn [set_unread conv_id] in Hr. rewrite Hin, Hf in Hr. exact Hr. }
  change (isParticipant userId (set_unread userId 0 conv))
    with (isParticipant userId conv). rewrite Hp.
  fold (mark_read conversationId userId (messages d)).
  rewrite mark_read_none_left. fold (mark_read conversationId userId
    (mark_read conversationId userId (messages d))).
  rewrite mark_read_idempotent. cbn [length].
  assert (set_unread userId 0 (set_unread userId 0 conv)
          = set_unread userId 0 conv) as ->.
  { unfold set_unread. simpl. by rewrite insert_insert_eq. }
  by rewrite replace_by_idem.
Qed.

Lemma markMessagesAsRead_repeats_witness :
  is_error (fst (markMessagesAsRead 0 "bob" (db Trace.srv_sent))) = false
  ∧ fst (markMessagesAsRead 0 "bob"
           (snd (markMessagesAsRead 0 "bob" (db Trace.srv_sent))))
    = sendSuccess 200 "Messages marked as read" 0.
Proof.
  split; [reflexivity|].
  exact (f_equal fst
           (markMessagesAsRead_repeats 0 "bob" (db Trace.srv_sent) eq_refl)).
Defined.

(** X16. Deleting a message is a soft delete that only its sender may
    ask for. For a stored message: any other caller is answered 403 and
    the store is left as it was; for the sender, the message stays stored
    under its id with its conversation, parties, type and status, its
    content replaced by the deletion marker and [isDeleted] set; the ids
    of the stored messages, the other messages and the conversations
    (so also a [lastMessage] that names it) are as before, and deleting
    it again changes nothing more. *)
Theorem deleteMessage_soft_delete
    (messageId : nat) (userId : UserId) (d : Db) (m : Message) :
  Message_findById messageId d = Some m →
  (msg_sender m ≠ userId →
   deleteMessage messageId userId d
   = (sendError 403 "Not authorized to delete this message", d))
  ∧ (msg_sender m = userId →
     let d' := snd (deleteMessage messageId userId d) in
     fst (deleteMessage messageId userId d)
     = sendSuccess 200 "Message deleted successfully" (set_deleted m)
     ∧ Message_findById messageId d' = Some (set_deleted m)
     ∧ map msg_id (messages d') = map msg_id (messages d)
     ∧ (∀ mid, mid ≠ messageId →
               Message_findById mid d' = Message_findById mid d)
     ∧ conversations d' = conversations d
     ∧ snd (deleteMessage messageId userId d') = d').
Proof.
  intros Hf. pose proof (find_by_Some _ _ _ _ Hf) as [Hid Hin].
  unfold deleteMessage. rewrite Hf. split.
  - intros Hne. apply String.eqb_neq in Hne. by rewrite Hne.
  - intros Heq. apply String.eqb_eq in Heq. rewrite Heq.
    cbn [negb Message_save fst snd].
    assert (find_by msg_id messageId
              (replace_by msg_id (set_deleted m) (messages d))
            = Some (set_deleted m)) as Hnew.
    { pose proof (find_by_replace_by msg_id (set_deleted m) (messages d))
        as Hr.
      cbn [set_deleted msg_id] in Hr.
      unfold Message_findById in Hf. rewrite Hid, Hf in Hr. exact Hr. }
    split; [done|]. split; [exact Hnew|].
    split; [apply replace_by_keys|].
    split; [|split; [done|]].
    + intros mid Hmid. unfold Message_findById. cbn [messages with_messages].
      apply find_by_replace_by_ne. simpl. congruence.
    + unfold Message_findById. cbn [messages with_messages].
      rewrite Hnew. cbn [set_deleted msg_sender]. rewrite Heq.
      cbn [negb fst snd]. unfold with_messages. cbn.
      assert (set_deleted (set_deleted m) = set_deleted m) as -> by done.
      by rewrite replace_by_idem.
Qed.

Lemma deleteMessage_soft_delete_witness :
  Message_findById 1 (db Trace.srv_sent)
  = Some (mkMessage 1 0 "alice" "bob" Text "hi" Sent false)
  ∧ deleteMessage 1 "bob" (db Trace.srv_sent)
    = (sendError 403 "Not authorized to delete this message",
       db Trace.srv_sent)
  ∧ Message_findById 1 (snd (deleteMessage 1 "alice" (db Trace.srv_sent)))
    = Some (mkMessage 1 0 "alice" "bob" Text "This message was deleted"
              Sent true).
Proof.
  assert (Message_findById 1 (db Trace.srv_sent)
          = Some (mkMessage 1 0 "alice" "bob" Text "hi" Sent false)) as Hf
    by reflexivity.
  split; [exact Hf|]. split.
  - apply (proj1 (deleteMessage_soft_delete 1 "bob" _ _ Hf)). discriminate.
  - exact (proj1 (proj2 (proj2 (deleteMessage_soft_delete 1 "alice" _ _ Hf)
                           eq_refl))).
Defined.

Lemma find_by_remove_by_ne {A} (key : A → nat) (id id' : nat) (l : list A) :
  id' ≠ id → find_by key id' (remove_by key id l) = find_by key id' l.
Proof.
  intros Hne. unfold find_by. induction l as [|x l IH]; simpl; [done|].
  destruct (decide (key x = id)) as [Hx|Hx].
  - rewrite (bool_decide_eq_true_2 _ Hx).
    rewrite bool_decide_eq_false_2 by congruence. done.
  - rewrite (bool_decide_eq_false_2 _ Hx). simpl. by rewrite IH.
Qed.

Lemma find_by_remove_by {A} (key : A → nat) (id : nat) (l : list A) :
  NoDup (map key l) → find_by key id (remove_by key id l) = None.
Proof.
  intros Hnd. apply find_by_None. apply Forall_forall. intros x Hx.
  apply list_elem_of_In in Hx.
  by apply (In_remove_by key id l x Hnd) in Hx as [_ Hx].
Qed.

(** X17. Deleting a conversation takes its messages with it. On a
    well-formed store, when a participant deletes a conversation the call
    succeeds; afterwards the conversation is not found under its id, the
    stored messages are exactly the earlier ones of the other
    conversations, the other conversations and the chat requests are as
    before, and a second deletion is answered 404. *)
Theorem deleteConversation_cascades
    (conversationId : nat) (userId : UserId) (d : Db) (conv : Conversation) :
  db_wf d →
  find_by conv_id conversationId (conversations d) = Some conv →
  isParticipant userId conv = true →
  let d' := snd (deleteConversation conversationId userId d) in
  fst (deleteConversation conversationId userId d)
  = sendSuccess 200 "Conversation deleted successfully" tt
  ∧ find_by conv_id conversationId (conversations d') = None
  ∧ (∀ m, In m (messages d')
          ↔ In m (messages d) ∧ msg_conversationId m ≠ conversationId)
  ∧ (∀ cid, cid ≠ conversationId →
            find_by conv_id cid (conversations d')
            = find_by conv_id cid (conversations d))
  ∧ requests d' = requests d
  ∧ deleteConversation conversationId userId d'
    = (sendError 404 "Conversation not found", d').
Proof.
  intros Hwf Hf Hp d'. subst d'.
  assert (find_by conv_id conversationId
            (remove_by conv_id conversationId (conversations d)) = None)
    as Hgone by (apply find_by_remove_by, Hwf).
  assert (deleteConversation conversationId userId d
          = (sendSuccess 200 "Conversation deleted successfully" tt,
             Conversation_findByIdAndDelete conversationId
               (Message_deleteMany conversationId d))) as Hd.
  { unfold deleteConversation, Conversation_findById. by rewrite Hf, Hp. }
  rewrite Hd. cbn [fst snd].
  split; [done|]. split; [exact Hgone|]. split; [|split; [|split; [done|]]].
  - intros m. cbn [messages Conversation_findByIdAndDelete Message_deleteMany
                   with_conversations with_messages].
    rewrite filter_In, negb_true_iff, bool_decide_eq_false. tauto.
  - intros cid Hcid. by apply find_by_remove_by_ne.
  - unfold deleteConversation, Conversation_findById.
    cbn [conversations Conversation_findByIdAndDelete Message_deleteMany
         with_conversations with_messages].
    by rewrite Hgone.
Qed.

Lemma deleteConversation_cascades_witness :
  db_wf (db Trace.srv_sent)
  ∧ messages (db Trace.srv_sent)
    = [mkMessage 1 0 "alice" "bob" Text "hi" Sent false]
  ∧ ¬ In (mkMessage 1 0 "alice" "bob" Text "hi" Sent false)
         (messages (snd (deleteConversation 0 "bob" (db Trace.srv_sent)))).
Proof.
  assert (db_wf (db Trace.srv_sent)) as Hwf.
  { split; vm_compute; repeat constructor; try lia.
    all: intros H; by apply elem_of_nil in H. }
  split; [exact Hwf|]. split; [reflexivity|].
  intros Hin.
  assert (find_by conv_id 0 (conversations (db Trace.srv_sent))
          = Some (mkConversation 0 ["alice"; "bob"] (Some 1) {["bob" := 1]}))
    as Hf by reflexivity.
  pose proof (deleteConversation_cascades 0 "bob" (db Trace.srv_sent) _
                Hwf Hf eq_refl) as (_ & _ & Hms & _).
  apply Hms in Hin as [_ Hne]. by apply Hne.
Defined.

(* ===================================================================== *)
(** ** The chat-request controller                                        *)
(* ===================================================================== *)

Lemma between_sym (a b : UserId) (r : ChatRequest) :
  between a b r = between b a r.
Proof. unfold between. apply orb_comm. Qed.

Lemma between_cases (a b : UserId) (r : ChatRequest) :
  between a b r = true →
  (req_sender r = a ∧ req_receiver r = b)
  ∨ (req_sender r = b ∧ req_receiver r = a).
Proof.
  unfold between. intros H. apply orb_true_iff in H as [H|H];
    apply andb_true_iff in H as [H1 H2];
    apply String.eqb_eq in H1, H2; auto.
Qed.

Lemma between_direct (a b : UserId) (r : ChatRequest) :
  req_sender r = a → req_receiver r = b → between a b r = true.
Proof.
  intros <- <-. unfold between. by rewrite !String.eqb_refl.
Qed.

(** Two requests between the same two users match the same filters. *)
Lemma between_same (s r : UserId) (x y : ChatRequest) :
  between s r x = true → between s r y = true →
  ∀ a b, between a b x = between a b y.
Proof.
  intros Hx Hy a b.
  apply between_cases in Hx as [[Hx1 Hx2]|[Hx1 Hx2]],
                         Hy as [[Hy1 Hy2]|[Hy1 Hy2]];
    unfold between; rewrite Hx1, Hx2, Hy1, Hy2; try done;
    by destruct (String.eqb s a), (String.eqb r b),
                (String.eqb s b), (String.eqb r a).
Qed.

Lemma between_filter (s r a b : UserId) (x : ChatRequest)
    (l : list ChatRequest) :
  between s r x = true → between a b x = true →
  List.filter (between a b) l = List.filter (between s r) l.
Proof.
  intros Hs Ha. apply filter_ext. intros y.
  apply between_cases in Hs as [[Hs1 Hs2]|[Hs1 Hs2]],
                         Ha as [[Ha1 Ha2]|[Ha1 Ha2]];
    subst; unfold between; try done;
    by destruct (String.eqb (req_sender y) (req_sender x)),
                (String.eqb (req_receiver y) (req_receiver x)),
                (String.eqb (req_sender y) (req_receiver x)),
                (String.eqb (req_receiver y) (req_sender x)).
Qed.

Lemma requests_ok_save (d : Db) (e e' : ChatRequest) :
  requests_ok d → In e (requests d) →
  req_id e' = req_id e →
  (∀ a b, between a b e' = between a b e) →
  req_sender e' ≠ req_receiver e' →
  requests_ok (ChatRequest_save e' d).
Proof.
  intros [Hids Hself Huniq] Hin Hid Hbt Hne.
  split; cbn [ChatRequest_save requests with_requests].
  - by rewrite replace_by_keys.
  - apply Forall_forall. intros y Hy. apply list_elem_of_In in Hy.
    apply In_replace_by in Hy as [[-> _]|Hy]; [done|].
    rewrite Forall_forall in Hself. apply Hself. by apply list_elem_of_In.
  - intros a b. unfold replace_by. rewrite filter_map_length; [apply Huniq|].
    intros y Hy. case_bool_decide as Hk; [|done].
    assert (y = e) as ->; [|apply Hbt].
    apply (NoDup_map_inj req_id (requests d)); try done. congruence.
Qed.

Lemma wf_save (d : Db) (e' : ChatRequest) :
  db_wf d → db_wf (ChatRequest_save e' d).
Proof.
  intros [Hc Hm Hr Hn]. split; simpl; try done. by apply below_replace_by.
Qed.

Lemma sendChatRequest_ok (s r : UserId) (msg : option string) (d : Db) :
  db_wf d → requests_ok d →
  db_wf (snd (sendChatRequest s r msg d))
  ∧ requests_ok (snd (sendChatRequest s r msg d)).
Proof.
  intros Hwf Hok. unfold sendChatRequest.
  destruct (String.eqb s r) eqn:Hsr; [done|]. apply String.eqb_neq in Hsr.
  destruct (users d !! r); [|done].
  set (text := if falsy msg then "" else default "" msg).
  destruct (List.find (between s r) (requests d)) as [e|] eqn:Hfind.
  - apply find_some in Hfind as [Hin Hbt].
    destruct (req_status e); [done|done|].
    unfold ChatRequest_resave. cbn [req_message req_id].
    destruct (negb (message_fits text)); [done|].
    destruct (existsb _ (requests d)); [done|]. cbn [fst snd]. split.
    + by apply wf_save.
    + apply (requests_ok_save d e); try done.
      apply between_same with (s := s) (r := r); [|done].
      by apply between_direct.
  - unfold ChatRequest_create.
    destruct (negb (message_fits text)); [done|].
    destruct (existsb _ (requests d)); [done|]. cbn [fst snd].
    destruct Hwf as [Hc Hm Hr Hn]. destruct Hok as [Hids Hself Huniq].
    split; split; cbn [requests conversations messages next_id bump_id
                        with_requests]; try done.
    + eapply below_mono; [|exact Hc]. lia.
    + eapply below_mono; [|exact Hm]. lia.
    + apply Forall_app. split; [eapply below_mono; [|exact Hr]; lia|].
      constructor; [simpl; lia|constructor].
    + rewrite map_app. apply NoDup_app. split; [done|]. split.
      * intros k Hk Hk'. apply list_elem_of_In in Hk, Hk'.
        destruct Hk' as [<-|[]]. apply in_map_iff in Hk as (y & Hy & Hin).
        rewrite Forall_forall in Hr. apply list_elem_of_In, Hr in Hin.
        simpl in Hy. lia.
      * apply NoDup_singleton.
    + apply Forall_app. split; [done|]. constructor; [done|constructor].
    + intros a b. rewrite List.filter_app, length_app. cbn [List.filter].
      destruct (between a b _) eqn:Hab; [|simpl; specialize (Huniq a b); lia].
      rewrite (between_filter s r a b _ (requests d)
                 (between_direct s r (mkChatRequest _ s r _ _) eq_refl eq_refl)
                 Hab).
      rewrite (find_none_filter _ _ Hfind). simpl. lia.
Qed.

Lemma processed_ok (st : ReqStatus) (rid : nat) (d : Db) (rq : ChatRequest) :
  requests_ok d → ChatRequest_findById rid d = Some rq →
  requests_ok (ChatRequest_save (set_req_status st rq) d).
Proof.
  intros Hok Hf. apply find_by_Some in Hf as [_ Hin].
  apply (requests_ok_save d rq); try done.
  destruct Hok as [_ Hself _]. rewrite Forall_forall in Hself.
  apply (Hself rq). by apply list_elem_of_In.
Qed.

Lemma create_conversation_requests (ps : list UserId) (d : Db) :
  requests (snd (Conversation_create ps d)) = requests d.
Proof. unfold Conversation_create. by destruct (bool_decide _). Qed.

Lemma requests_unique_save (d : Db) (e e' : ChatRequest) :
  requests_unique d → In e (requests d) →
  req_id e' = req_id e →
  (∀ a b, between a b e' = between a b e) →
  requests_unique (ChatRequest_save e' d).
Proof.
  intros [Hids Huniq] Hin Hid Hbt.
  split; cbn [ChatRequest_save requests with_requests].
  - by rewrite replace_by_keys.
  - intros a b. unfold replace_by. rewrite filter_map_length; [apply Huniq|].
    intros y Hy. case_bool_decide as Hk; [|done].
    assert (y = e) as ->; [|apply Hbt].
    apply (NoDup_map_inj req_id (requests d)); try done. congruence.
Qed.

Lemma no_self_save (d : Db) (e' : ChatRequest) :
  no_self_request d → req_sender e' ≠ req_receiver e' →
  no_self_request (ChatRequest_save e' d).
Proof.
  intros Hself Hne. apply Forall_forall. intros y Hy.
  apply list_elem_of_In in Hy.
  cbn [ChatRequest_save requests with_requests] in Hy.
  apply In_replace_by in Hy as [[-> _]|Hy]; [done|].
  unfold no_self_request in Hself. rewrite Forall_forall in Hself.
  apply Hself. by apply list_elem_of_In.
Qed.

(** The controller with the receiver already cast. *)
Lemma sendChatRequest_on_keeps (s r : UserId) (msg : option string) (d : Db) :
  db_wf d → requests_unique d →
  (db_wf (snd (sendChatRequest_on s r msg d))
   ∧ requests_unique (snd (sendChatRequest_on s r msg d)))
  ∧ (s ≠ r → no_self_request d →
     no_self_request (snd (sendChatRequest_on s r msg d))).
Proof.
  intros Hwf Hok. unfold sendChatRequest_on.
  destruct (users d !! r); [|done].
  set (text := if falsy msg then "" else default "" msg).
  destruct (List.find (between s r) (requests d)) as [e|] eqn:Hfind.
  - apply find_some in Hfind as [Hin Hbt].
    destruct (req_status e); [done|done|].
    unfold ChatRequest_resave. cbn [req_message req_id].
    destruct (negb (message_fits text)); [done|].
    destruct (existsb _ (requests d)); [done|]. cbn [fst snd].
    split; [split|].
    + by apply wf_save.
    + apply (requests_unique_save d e); try done.
      apply between_same with (s := s) (r := r); [|done].
      by apply between_direct.
    + intros Hne Hself. by apply no_self_save.
  - unfold ChatRequest_create.
    destruct (negb (message_fits text)); [done|].
    destruct (existsb _ (requests d)); [done|]. cbn [fst snd].
    destruct Hwf as [Hc Hm Hr Hn]. destruct Hok as [Hids Huniq].
    split; [split; split|];
      cbn [requests conversations messages next_id bump_id with_requests];
      try done.
    + eapply below_mono; [|exact Hc]. lia.
    + eapply below_mono; [|exact Hm]. lia.
    + apply Forall_app. split; [eapply below_mono; [|exact Hr]; lia|].
      constructor; [simpl; lia|constructor].
    + rewrite map_app. apply NoDup_app. split; [done|]. split.
      * intros k Hk Hk'. apply list_elem_of_In in Hk, Hk'.
        destruct Hk' as [<-|[]]. apply in_map_iff in Hk as (y & Hy & Hin).
        rewrite Forall_forall in Hr. apply list_elem_of_In, Hr in Hin.
        simpl in Hy. lia.
      * apply NoDup_singleton.
    + intros a b. rewrite List.filter_app, length_app. cbn [List.filter].
      destruct (between a b _) eqn:Hab; [|simpl; specialize (Huniq a b); lia].
      rewrite (between_filter s r a b _ (requests d)
                 (between_direct s r (mkChatRequest _ s r _ _) eq_refl eq_refl)
                 Hab).
      rewrite (find_none_filter _ _ Hfind). simpl. lia.
    + intros Hne Hself. unfold no_self_request.
      cbn [requests bump_id with_requests].
      apply Forall_app. split; [done|]. constructor; [done|constructor].
Qed.

Lemma sendChatRequest_cast_keeps (castObjectId : string → option UserId)
    (s : UserId) (r : string) (msg : option string) (d : Db) :
  db_wf d → requests_unique d →
  db_wf (snd (sendChatRequest_cast castObjectId s r msg d))
  ∧ requests_unique (snd (sendChatRequest_cast castObjectId s r msg d)).
Proof.
  intros Hwf Hok. unfold sendChatRequest_cast.
  destruct (String.eqb s r); [done|].
  destruct (castObjectId r) as [r'|]; [|done].
  by apply sendChatRequest_on_keeps.
Qed.

Lemma decided_keeps (st : ReqStatus) (rid : nat) (d : Db) (rq : ChatRequest) :
  ChatRequest_findById rid d = Some rq →
  (requests_unique d →
   requests_unique (ChatRequest_save (set_req_status st rq) d))
  ∧ (no_self_request d →
     no_self_request (ChatRequest_save (set_req_status st rq) d)).
Proof.
  intros Hf. apply find_by_Some in Hf as [_ Hin]. split.
  - intros Hok. by apply (requests_unique_save d rq).
  - intros Hself. apply no_self_save; [done|].
    unfold no_self_request in Hself. rewrite Forall_forall in Hself.
    apply (Hself rq). by apply list_elem_of_In.
Qed.

Lemma acceptRequest_keeps (rid : nat) (u : UserId) (d : Db) :
  (requests_unique d → requests_unique (snd (acceptRequest rid u d)))
  ∧ (no_self_request d → no_self_request (snd (acceptRequest rid u d))).
Proof.
  unfold acceptRequest.
  destruct (ChatRequest_findById rid d) as [rq|] eqn:Hf; [|done].
  destruct (negb (String.eqb (req_receiver rq) u)); [done|].
  destruct (negb (bool_decide (req_status rq = Pending))); [done|].
  pose proof (decided_keeps Accepted _ _ _ Hf) as [Hu Hs].
  pose proof (create_conversation_requests
                [req_sender (set_req_status Accepted rq);
                 req_receiver (set_req_status Accepted rq)]
                (ChatRequest_save (set_req_status Accepted rq) d)) as Hrq.
  destruct (Conversation_create _ _) as [[c|] d2]; cbn [fst snd] in *.
  - split.
    + intros H. destruct (Hu H) as [H1 H2]. split; by rewrite Hrq.
    + intros H. unfold no_self_request. rewrite Hrq. by apply Hs.
  - split.
    + intros H. destruct (Hu H) as [H1 H2]. split; by rewrite Hrq.
    + intros H. unfold no_self_request. rewrite Hrq. by apply Hs.
Qed.

Lemma rejectRequest_keeps (rid : nat) (u : UserId) (d : Db) :
  db_wf d →
  db_wf (snd (rejectRequest rid u d))
  ∧ (requests_unique d → requests_unique (snd (rejectRequest rid u d)))
  ∧ (no_self_request d → no_self_request (snd (rejectRequest rid u d))).
Proof.
  intros Hwf. unfold rejectRequest.
  destruct (ChatRequest_findById rid d) as [rq|] eqn:Hf; [|done].
  destruct (negb (String.eqb (req_receiver rq) u)); [done|].
  destruct (negb (bool_decide (req_status rq = Pending))); [done|].
  cbn [snd]. split; [by apply wf_save|].
  apply (decided_keeps Rejected _ _ _ Hf).
Qed.

(** X18. The request controllers keep the request collection in order,
    up to one gap in the self check. On a well-formed store whose
    requests have distinct ids and number at most one between any two
    users in whatever direction, sending, accepting and rejecting a
    request each leave a store of that kind, whatever the call and its
    answer. Accepting and rejecting also keep the collection free of
    requests from a user to themselves, and so does sending unless the
    receiver id is another spelling of the sender's own id: the self
    check compares the strings, the insert uses the id the string is
    cast to, and that call stores a request from the sender to
    themselves. *)
Theorem requests_stay_one_per_pair
    (castObjectId : string → option UserId)
    (senderId : UserId) (receiverId : string) (message : option string)
    (requestId : nat) (userId : UserId) (d : Db) :
  db_wf d → requests_unique d →
  let sent := sendChatRequest_cast castObjectId senderId receiverId message d in
  let text := if falsy message then "" else default "" message in
  (db_wf (snd sent) ∧ requests_unique (snd sent))
  ∧ (db_wf (snd (acceptRequest requestId userId d))
     ∧ requests_unique (snd (acceptRequest requestId userId d)))
  ∧ (db_wf (snd (rejectRequest requestId userId d))
     ∧ requests_unique (snd (rejectRequest requestId userId d)))
  ∧ (no_self_request d →
     no_self_request (snd (acceptRequest requestId userId d))
     ∧ no_self_request (snd (rejectRequest requestId userId d))
     ∧ (castObjectId receiverId ≠ Some senderId →
        no_self_request (snd sent)))
  ∧ (castObjectId receiverId = Some senderId → receiverId ≠ senderId →
     is_Some (users d !! senderId) →
     List.find (between senderId senderId) (requests d) = None →
     message_fits text = true →
     sent
     = (sendSuccess 201 "Chat request sent successfully"
          (mkChatRequest (next_id d) senderId senderId Pending text),
        bump_id
          (with_requests
             (requests d
              ++ [mkChatRequest (next_id d) senderId senderId Pending text])
             d))).
Proof.
  intros Hwf Hok sent text.
  split; [by apply sendChatRequest_cast_keeps|].
  pose proof (acceptRequest_keeps requestId userId d) as [Hau Has].
  pose proof (rejectRequest_keeps requestId userId d Hwf) as (Hrw & Hru & Hrs).
  split; [split; [by apply acceptRequest_wf | by apply Hau]|].
  split; [split; [done | by apply Hru]|].
  split.
  - intros Hself. split; [by apply Has|]. split; [by apply Hrs|].
    intros Hcast. subst sent. unfold sendChatRequest_cast.
    destruct (String.eqb senderId receiverId); [done|].
    destruct (castObjectId receiverId) as [r|]; [|done].
    apply sendChatRequest_on_keeps; try done. congruence.
  - intros Hcast Hne [us Hus] Hfind Hfits. subst sent.
    unfold sendChatRequest_cast.
    rewrite (proj2 (String.eqb_neq senderId receiverId)) by congruence.
    rewrite Hcast. unfold sendChatRequest_on. rewrite Hus, Hfind.
    fold text. unfold ChatRequest_create. rewrite Hfits. cbn [negb].
    assert (existsb (same_key (mkChatRequest (next_id d) senderId senderId
                                 Pending text)) (requests d) = false) as ->;
      [|done].
    apply not_true_is_false. intros Hex.
    apply existsb_exists in Hex as (y & Hy & Hk).
    apply andb_true_iff in Hk as [Hk1 Hk2].
    apply String.eqb_eq in Hk1, Hk2. simpl in Hk1, Hk2.
    pose proof (find_none _ _ Hfind y Hy) as Hno.
    by rewrite between_direct in Hno.
Qed.

Lemma db_requested_wf : db_wf Trace.db_requested.
Proof.
  split; vm_compute; repeat constructor; try lia.
  all: intros H; by apply elem_of_nil in H.
Qed.

Lemma db_requested_ok : requests_ok Trace.db_requested.
Proof.
  split.
  - vm_compute. repeat constructor. intros H. by apply elem_of_nil in H.
  - repeat constructor. discriminate.
  - intros a b. cbn [Trace.db_requested requests bump_id with_requests
                     List.filter].
    destruct (between a b _); simpl; lia.
Qed.

Lemma db_requested_unique : requests_unique Trace.db_requested.
Proof. destruct db_requested_ok as [H1 _ H3]. by split. Qed.

Lemma requests_stay_one_per_pair_witness :
  db_wf Trace.db_requested ∧ requests_unique Trace.db_requested
  ∧ requests_unique
      (snd (sendChatRequest_cast
              (λ r, Some (if String.eqb r "CAROL" then "carol" else r))
              "carol" "CAROL" (Some "hello") Trace.db_requested)).
Proof.
  split; [exact db_requested_wf|]. split; [exact db_requested_unique|].
  exact (proj2 (proj1 (requests_stay_one_per_pair
                         (λ r, Some (if String.eqb r "CAROL"
                                     then "carol" else r))
                         "carol" "CAROL" (Some "hello") 2 "bob"
                         Trace.db_requested
                         db_requested_wf db_requested_unique))).
Defined.

(** With the receiver id in the spelling the store holds, the controller
    with the cast is the controller on ids. *)
Lemma sendChatRequest_cast_canonical (castObjectId : string → option UserId)
    (s r : UserId) (msg : option string) (d : Db) :
  castObjectId r = Some r →
  sendChatRequest_cast castObjectId s r msg d = sendChatRequest s r msg d.
Proof.
  intros Hcast. unfold sendChatRequest_cast, sendChatRequest.
  destruct (String.eqb s r); [done|]. by rewrite Hcast.
Qed.

Lemma find_replace_hit {A} (key : A → nat) (p : A → bool) (x e : A)
    (l : list A) :
  List.find p l = Some e → p x = true → key x = key e →
  List.find p (replace_by key x l) = Some x.
Proof.
  intros Hf Hx Hk. unfold replace_by.
  induction l as [|y l IH]; [discriminate|]. simpl in *.
  case_bool_decide as Hy; [by rewrite Hx|].
  destruct (p y); [|by apply IH]. congruence.
Qed.

Lemma find_between_sym (a b : UserId) (l : list ChatRequest) :
  List.find (between b a) l = List.find (between a b) l.
Proof.
  induction l as [|y l IH]; [done|]. simpl.
  by rewrite (between_sym b a y), IH.
Qed.

(** What a successful [sendChatRequest] leaves: the request it answers
    with is pending, goes from the sender to the receiver, and is the one
    the lookup between the two users finds. *)
Lemma sendChatRequest_success (a b : UserId) (msg : option string) (d : Db)
    (code : nat) (text : string) (rq : ChatRequest) :
  fst (sendChatRequest a b msg d) = sendSuccess code text rq →
  let d1 := snd (sendChatRequest a b msg d) in
  List.find (between a b) (requests d1) = Some rq
  ∧ req_status rq = Pending ∧ req_sender rq = a ∧ req_receiver rq = b
  ∧ a ≠ b ∧ is_Some (users d !! b) ∧ users d1 = users d.
Proof.
  intros Hres d1. subst d1. revert Hres. unfold sendChatRequest.
  destruct (String.eqb a b) eqn:Hab; [discriminate|].
  apply String.eqb_neq in Hab.
  destruct (users d !! b) eqn:Hb; [|discriminate].
  set (txt := if falsy msg then "" else default "" msg).
  destruct (List.find (between a b) (requests d)) as [e|] eqn:Hfind.
  - destruct (req_status e); [discriminate|discriminate|].
    unfold ChatRequest_resave. cbn [req_message req_id].
    destruct (negb (message_fits txt)); [discriminate|].
    destruct (existsb _ (requests d)); [discriminate|]. cbn [fst snd].
    intros [= _ _ <-]. cbn [ChatRequest_save requests with_requests users
                            req_status req_sender req_receiver].
    split; [|by eauto 10].
    apply (find_replace_hit req_id _ _ e); [done| |done].
    by apply between_direct.
  - unfold ChatRequest_create.
    destruct (negb (message_fits txt)); [discriminate|].
    destruct (existsb _ (requests d)); [discriminate|]. cbn [fst snd].
    intros [= _ _ <-]. cbn [requests with_requests bump_id users
                            req_status req_sender req_receiver].
    split; [|by eauto 10].
    rewrite (find_app_none _ _ _ Hfind). cbn [List.find].
    by rewrite between_direct.
Qed.

(** X19. One open request per pair. After a request from a stored user to
    another was sent with success, a further request between the two, in
    either direction and with whatever text, is answered 400 "Request
    already pending" and changes nothing. *)
Theorem pending_request_blocks_both_directions
    (senderId receiverId : UserId) (message message' : option string)
    (d : Db) (code : nat) (text : string) (rq : ChatRequest) :
  is_Some (users d !! senderId) →
  fst (sendChatRequest senderId receiverId message d)
  = sendSuccess code text rq →
  let d1 := snd (sendChatRequest senderId receiverId message d) in
  sendChatRequest senderId receiverId message' d1
  = (sendError 400 "Request already pending", d1)
  ∧ sendChatRequest receiverId senderId message' d1
    = (sendError 400 "Request already pending", d1).
Proof.
  intros [ua Hua] Hres d1.
  pose proof (sendChatRequest_success _ _ _ _ _ _ _ Hres)
    as (Hfind & Hst & _ & _ & Hne & [ub Hub] & Hus).
  fold d1 in Hfind, Hus. clearbody d1. split.
  - unfold sendChatRequest.
    rewrite (proj2 (String.eqb_neq _ _) Hne), Hus, Hub, Hfind, Hst. done.
  - unfold sendChatRequest.
    rewrite (proj2 (String.eqb_neq receiverId senderId)) by congruence.
    rewrite Hus, Hua, find_between_sym, Hfind, Hst. done.
Qed.

Lemma pending_request_blocks_both_directions_witness :
  is_Some (users Scenario.db0 !! "alice")
  ∧ fst (sendChatRequest "alice" "bob" (Some "hello") Scenario.db0)
    = sendSuccess 201 "Chat request sent successfully"
        (mkChatRequest 0 "alice" "bob" Pending "hello")
  ∧ fst (sendChatRequest "bob" "alice" None
           (snd (sendChatRequest "alice" "bob" (Some "hello") Scenario.db0)))
    = sendError 400 "Request already pending".
Proof.
  assert (is_Some (users Scenario.db0 !! "alice")) as Ha
    by (vm_compute; eauto).
  split; [exact Ha|]. split; [reflexivity|].
  exact (f_equal fst
           (proj2 (pending_request_blocks_both_directions "alice" "bob"
                     (Some "hello") None Scenario.db0 201
                     "Chat request sent successfully"
                     (mkChatRequest 0 "alice" "bob" Pending "hello")
                     Ha eq_refl))).
Defined.

Lemma filter_one_eq {A} (p : A → bool) (l : list A) (x y : A) :
  length (List.filter p l) ≤ 1 → In x l → In y l →
  p x = true → p y = true → x = y.
Proof.
  intros Hlen Hx Hy Hpx Hpy.
  assert (In x (List.filter p l)) as Hx' by (apply filter_In; auto).
  assert (In y (List.filter p l)) as Hy' by (apply filter_In; auto).
  destruct (List.filter p l) as [|z [|z' l']]; simpl in *; [done| |lia].
  destruct Hx' as [<-|[]], Hy' as [<-|[]]. done.
Qed.

Lemma find_the_one {A} (p : A → bool) (l : list A) (x : A) :
  length (List.filter p l) ≤ 1 → In x l → p x = true →
  List.find p l = Some x.
Proof.
  intros Hlen Hx Hpx. destruct (List.find p l) as [y|] eqn:Hf.
  - apply find_some in Hf as [Hy Hpy]. f_equal.
    by apply (filter_one_eq p l).
  - by rewrite (find_none _ _ Hf x Hx) in Hpx.
Qed.

Lemma In_replace_by_other {A} (key : A → nat) (x y : A) (l : list A) :
  In y (replace_by key x l) → y = x ∨ (In y l ∧ key y ≠ key x).
Proof.
  unfold replace_by. intros Hy. apply in_map_iff in Hy as (z & Hz & Hin).
  case_bool_decide; [by left|]. subst. by right.
Qed.

(** X20. A rejected request is reopened, not duplicated. On a well-formed
    request collection, once the receiver has rejected a pending request,
    a request between the same two users, from either of them to the
    other (a stored user) and with a text of at most 200 characters, is
    answered 200 "Request resent successfully": the stored request keeps
    its id, is pending again and goes from the new sender to the new
    receiver with the new text, and the collection holds the same ids as
    before. *)
Theorem rejected_request_is_reopened
    (requestId : nat) (userId senderId receiverId : UserId)
    (message : option string) (d : Db) (rq : ChatRequest) :
  requests_ok d →
  ChatRequest_findById requestId d = Some rq →
  req_receiver rq = userId → req_status rq = Pending →
  between senderId receiverId rq = true →
  is_Some (users d !! receiverId) →
  let text := if falsy message then "" else default "" message in
  message_fits text = true →
  let d1 := snd (rejectRequest requestId userId d) in
  let reopened := mkChatRequest requestId senderId receiverId Pending text in
  let d2 := snd (sendChatRequest senderId receiverId message d1) in
  fst (sendChatRequest senderId receiverId message d1)
  = sendSuccess 200 "Request resent successfully" reopened
  ∧ ChatRequest_findById requestId d2 = Some reopened
  ∧ map req_id (requests d2) = map req_id (requests d).
Proof.
  intros Hok Hf Hrecv Hst Hbt [ur Hur] text Hfits d1 reopened d2.
  pose proof (find_by_Some _ _ _ _ Hf) as [Hid Hin].
  assert (senderId ≠ receiverId) as Hne.
  { destruct Hok as [_ Hself _]. rewrite Forall_forall in Hself.
    apply list_elem_of_In, Hself in Hin.
    apply between_cases in Hbt as [[<- <-]|[<- <-]]; congruence. }
  set (rejected := set_req_status Rejected rq).
  assert (d1 = ChatRequest_save rejected d) as Hd1.
  { subst d1. unfold rejectRequest. rewrite Hf, Hrecv, String.eqb_refl, Hst.
    by rewrite bool_decide_eq_true_2. }
  pose proof (processed_ok Rejected _ _ _ Hok Hf) as Hok1.
  fold rejected in Hok1. rewrite <- Hd1 in Hok1.
  assert (List.find (between senderId receiverId) (requests d1)
          = Some rejected) as Hfind.
  { rewrite Hd1. cbn [ChatRequest_save requests with_requests].
    apply (find_replace_hit req_id _ _ rq); [|done|done].
    apply find_the_one; [apply Hok|done|done]. }
  pose proof (find_some _ _ Hfind) as [Hin1 _].
  assert (existsb (λ y, same_key reopened y
                        && negb (bool_decide (req_id y = req_id reopened)))
                  (requests d1) = false) as Hfree.
  { apply not_true_is_false. intros Hex.
    apply existsb_exists in Hex as (y & Hy & Hk).
    apply andb_true_iff in Hk as [Hk Hidy].
    apply andb_true_iff in Hk as [Hk1 Hk2].
    apply String.eqb_eq in Hk1, Hk2. simpl in Hk1, Hk2.
    assert (y = rejected) as ->.
    { apply (filter_one_eq (between senderId receiverId) (requests d1));
        [apply Hok1|done|done| |done].
      by apply between_direct. }
    apply negb_true_iff, bool_decide_eq_false in Hidy. by apply Hidy. }
  assert (sendChatRequest senderId receiverId message d1
          = (sendSuccess 200 "Request resent successfully" reopened,
             ChatRequest_save reopened d1)) as Hsend.
  { unfold sendChatRequest.
    rewrite (proj2 (String.eqb_neq _ _) Hne).
    assert (users d1 = users d) as -> by by rewrite Hd1.
    rewrite Hur, Hfind. cbn [rejected set_req_status req_status req_id].
    fold text. rewrite Hid. fold reopened.
    unfold ChatRequest_resave. cbn [reopened req_message].
    rewrite Hfits. cbn [negb]. fold reopened. by rewrite Hfree. }
  subst d2. rewrite Hsend. cbn [fst snd]. split; [done|]. split.
  - unfold ChatRequest_findById.
    cbn [ChatRequest_save requests with_requests].
    pose proof (find_by_replace_by req_id reopened (requests d1)) as Hr.
    cbn [reopened req_id] in Hr. rewrite Hr, Hd1.
    cbn [ChatRequest_save requests with_requests].
    pose proof (find_by_replace_by req_id rejected (requests d)) as Hr'.
    cbn [rejected set_req_status req_id] in Hr'.
    unfold ChatRequest_findById in Hf. rewrite Hid, Hf in Hr'.
    by rewrite Hr'.
  - cbn [ChatRequest_save requests with_requests].
    rewrite replace_by_keys, Hd1.
    cbn [ChatRequest_save requests with_requests].
    by rewrite replace_by_keys.
Qed.

Lemma rejected_request_is_reopened_witness :
  requests_ok Trace.db_requested
  ∧ ChatRequest_findById 2 Trace.db_requested
    = Some (mkChatRequest 2 "alice" "bob" Pending "")
  ∧ fst (sendChatRequest "bob" "alice" (Some "sorry")
           (snd (rejectRequest 2 "bob" Trace.db_requested)))
    = sendSuccess 200 "Request resent successfully"
        (mkChatRequest 2 "bob" "alice" Pending "sorry").
Proof.
  split; [exact db_requested_ok|]. split; [reflexivity|].
  assert (is_Some (users Trace.db_requested !! "alice")) as Ha
    by (vm_compute; eauto).
  exact (proj1 (rejected_request_is_reopened 2 "bob" "bob" "alice"
                  (Some "sorry") Trace.db_requested
                  (mkChatRequest 2 "alice" "bob" Pending "")
                  db_requested_ok eq_refl eq_refl eq_refl eq_refl Ha
                  eq_refl)).
Defined.

(** What a successful accept or reject leaves under the id. *)
Lemma processed_request (requestId : nat) (userId : UserId) (d d' : Db) :
  (is_error (fst (acceptRequest requestId userId d)) = false
   ∧ d' = snd (acceptRequest requestId userId d))
  ∨ (is_error (fst (rejectRequest requestId userId d)) = false
     ∧ d' = snd (rejectRequest requestId userId d)) →
  ∃ rq st, st ≠ Pending
           ∧ requests d' = replace_by req_id (set_req_status st rq)
                             (requests d)
           ∧ ChatRequest_findById requestId d'
             = Some (set_req_status st rq).
Proof.
  assert (∀ rq st, ChatRequest_findById requestId d = Some rq →
            find_by req_id requestId
              (replace_by req_id (set_req_status st rq) (requests d))
            = Some (set_req_status st rq)) as Hnew.
  { intros rq st Hf. pose proof (find_by_Some _ _ _ _ Hf) as [Hid _].
    pose proof (find_by_replace_by req_id (set_req_status st rq)
                  (requests d)) as Hr.
    cbn [set_req_status req_id] in Hr.
    unfold ChatRequest_findById in Hf. by rewrite Hid, Hf in Hr. }
  intros [[Hok ->]|[Hok ->]]; revert Hok.
  - unfold acceptRequest.
    destruct (ChatRequest_findById requestId d) as [rq|] eqn:Hf;
      [|discriminate].
    destruct (negb (String.eqb (req_receiver rq) userId)); [discriminate|].
    destruct (negb (bool_decide (req_status rq = Pending))); [discriminate|].
    pose proof (create_conversation_requests
                  [req_sender (set_req_status Accepted rq);
                   req_receiver (set_req_status Accepted rq)]
                  (ChatRequest_save (set_req_status Accepted rq) d)) as Hrq.
    destruct (Conversation_create _ _) as [[c|] d2]; [|discriminate].
    intros _. exists rq, Accepted. cbn [snd] in *.
    unfold ChatRequest_findById. rewrite Hrq.
    cbn [ChatRequest_save requests with_requests]. eauto.
  - unfold rejectRequest.
    destruct (ChatRequest_findById requestId d) as [rq|] eqn:Hf;
      [|discriminate].
    destruct (negb (String.eqb (req_receiver rq) userId)); [discriminate|].
    destruct (negb (bool_decide (req_status rq = Pending))); [discriminate|].
    intros _. exists rq, Rejected. cbn [snd].
    unfold ChatRequest_findById.
    cbn [ChatRequest_save requests with_requests]. eauto.
Qed.

Lemma request_call_keeps (castObjectId : string → option UserId)
    (c : RequestCall) (d : Db) :
  db_wf d → requests_unique d →
  db_wf (request_call castObjectId c d)
  ∧ requests_unique (request_call castObjectId c d).
Proof.
  intros Hwf Hok. destruct c as [s r msg|rid u|rid u]; simpl.
  - by apply sendChatRequest_cast_keeps.
  - split; [by apply acceptRequest_wf | by apply acceptRequest_keeps].
  - destruct (rejectRequest_keeps rid u d Hwf) as (H1 & H2 & _). auto.
Qed.

(** Accept and reject refuse a request that is not pending. *)
Lemma decided_request_refused (rid : nat) (caller : UserId) (d : Db)
    (rq : ChatRequest) :
  ChatRequest_findById rid d = Some rq → req_status rq ≠ Pending →
  (is_error (fst (acceptRequest rid caller d)) = true
   ∧ snd (acceptRequest rid caller d) = d)
  ∧ (is_error (fst (rejectRequest rid caller d)) = true
     ∧ snd (rejectRequest rid caller d) = d).
Proof.
  intros Hf Hst. unfold acceptRequest, rejectRequest. rewrite Hf.
  destruct (negb (String.eqb (req_receiver rq) caller)); [done|].
  by rewrite bool_decide_eq_false_2.
Qed.

(** A save under another id leaves the document found under [rid]. *)
Lemma find_after_save (rid : nat) (e' : ChatRequest) (d : Db) :
  req_id e' ≠ rid →
  ChatRequest_findById rid (ChatRequest_save e' d) = ChatRequest_findById rid d.
Proof.
  intros Hne. unfold ChatRequest_findById.
  cbn [ChatRequest_save requests with_requests].
  by apply find_by_replace_by_ne.
Qed.

(** No call of the request controller touches an accepted request. *)
Lemma request_call_keeps_accepted (castObjectId : string → option UserId)
    (c : RequestCall) (rid : nat) (d : Db) (rq : ChatRequest) :
  requests_unique d →
  ChatRequest_findById rid d = Some rq → req_status rq = Accepted →
  ChatRequest_findById rid (request_call castObjectId c d) = Some rq.
Proof.
  intros [Hids _] Hf Hst.
  pose proof (find_by_Some _ _ _ _ Hf) as [Hid Hin].
  assert (∀ rid' rq' st,
            ChatRequest_findById rid' d = Some rq' →
            req_status rq' = Pending →
            ChatRequest_findById rid
              (ChatRequest_save (set_req_status st rq') d) = Some rq) as Hother.
  { intros rid' rq' st Hf' Hp. rewrite find_after_save; [done|].
    cbn [set_req_status req_id]. intros Heq.
    pose proof (find_by_Some _ _ _ _ Hf') as [Hid' _].
    rewrite Hid' in Heq. subst rid'. rewrite Hf in Hf'. congruence. }
  destruct c as [s r msg|rid' u|rid' u]; simpl.
  - unfold sendChatRequest_cast. destruct (String.eqb s r); [done|].
    destruct (castObjectId r) as [r'|]; [|done].
    unfold sendChatRequest_on. destruct (users d !! r'); [|done].
    destruct (List.find (between s r') (requests d)) as [e|] eqn:Hfind.
    + apply find_some in Hfind as [Hine _].
      destruct (req_status e) eqn:Hste; [done|done|].
      unfold ChatRequest_resave. cbn [req_message req_id].
      destruct (negb (message_fits _)); [done|].
      destruct (existsb _ (requests d)); [done|]. cbn [fst snd].
      rewrite find_after_save; [done|]. cbn [req_id]. intros Heq.
      assert (e = rq) as ->
        by (apply (NoDup_map_inj req_id (requests d)); try done; congruence).
      congruence.
    + unfold ChatRequest_create.
      destruct (negb (message_fits _)); [done|].
      destruct (existsb _ (requests d)); [done|]. cbn [fst snd].
      unfold ChatRequest_findById in *.
      cbn [requests bump_id with_requests]. by rewrite find_by_app, Hf.
  - unfold acceptRequest.
    destruct (ChatRequest_findById rid' d) as [rq'|] eqn:Hf'; [|done].
    destruct (negb (String.eqb (req_receiver rq') u)); [done|].
    destruct (bool_decide (req_status rq' = Pending)) eqn:Hp; [|done].
    apply bool_decide_eq_true in Hp. cbn [negb].
    pose proof (create_conversation_requests
                  [req_sender (set_req_status Accepted rq');
                   req_receiver (set_req_status Accepted rq')]
                  (ChatRequest_save (set_req_status Accepted rq') d)) as Hrq.
    pose proof (Hother rid' rq' Accepted Hf' Hp) as Hkept.
    unfold ChatRequest_findById in *.
    destruct (Conversation_create _ _) as [[cv|] d2]; cbn [fst snd] in *;
      by rewrite Hrq.
  - unfold rejectRequest.
    destruct (ChatRequest_findById rid' d) as [rq'|] eqn:Hf'; [|done].
    destruct (negb (String.eqb (req_receiver rq') u)); [done|].
    destruct (bool_decide (req_status rq' = Pending)) eqn:Hp; [|done].
    apply bool_decide_eq_true in Hp. cbn [negb snd].
    by apply (Hother rid').
Qed.

Lemma request_calls_keep_accepted (castObjectId : string → option UserId)
    (cs : list RequestCall) (rid : nat) (d : Db) (rq : ChatRequest) :
  db_wf d → requests_unique d →
  ChatRequest_findById rid d = Some rq → req_status rq = Accepted →
  ChatRequest_findById rid (request_calls castObjectId cs d) = Some rq.
Proof.
  revert d. induction cs as [|c cs IH]; intros d Hwf Hok Hf Hst; [done|].
  unfold request_calls. cbn [foldl].
  destruct (request_call_keeps castObjectId c d Hwf Hok) as [Hwf' Hok'].
  apply IH; try done. by apply request_call_keeps_accepted.
Qed.

(** X21. Accept and reject act on a pending request only, and an
    acceptance is final. On a stored request that was accepted or
    rejected, accept and reject answer with an error, whoever calls, and
    change nothing. Once accepted, a request stays as it is through any
    further calls of the request controller (send, accept, reject, with
    whatever arguments), and accept and reject of it are still refused
    afterwards: no second conversation comes of it. A rejected request
    is not final in that way: sending again reopens it. *)
Theorem accepted_request_is_final
    (castObjectId : string → option UserId) (requestId : nat)
    (caller : UserId) (d : Db) (rq : ChatRequest) (calls : list RequestCall) :
  db_wf d → requests_unique d →
  ChatRequest_findById requestId d = Some rq →
  req_status rq ≠ Pending →
  ((is_error (fst (acceptRequest requestId caller d)) = true
    ∧ snd (acceptRequest requestId caller d) = d)
   ∧ (is_error (fst (rejectRequest requestId caller d)) = true
      ∧ snd (rejectRequest requestId caller d) = d))
  ∧ (req_status rq = Accepted →
     let d' := request_calls castObjectId calls d in
     ChatRequest_findById requestId d' = Some rq
     ∧ (is_error (fst (acceptRequest requestId caller d')) = true
        ∧ snd (acceptRequest requestId caller d') = d')
     ∧ (is_error (fst (rejectRequest requestId caller d')) = true
        ∧ snd (rejectRequest requestId caller d') = d')).
Proof.
  intros Hwf Hok Hf Hst.
  split; [by apply (decided_request_refused _ _ _ rq)|].
  intros Hacc d'.
  pose proof (request_calls_keep_accepted castObjectId calls _ _ _
                Hwf Hok Hf Hacc) as Hf'.
  fold d' in Hf'. split; [exact Hf'|].
  by apply (decided_request_refused _ _ _ rq).
Qed.

Lemma accepted_request_is_final_witness :
  db_wf (snd (acceptRequest 2 "bob" Trace.db_requested))
  ∧ requests_unique (snd (acceptRequest 2 "bob" Trace.db_requested))
  ∧ ChatRequest_findById 2 (snd (acceptRequest 2 "bob" Trace.db_requested))
    = Some (mkChatRequest 2 "alice" "bob" Accepted "")
  ∧ Accepted ≠ Pending
  ∧ ChatRequest_findById 2
      (request_calls (λ r, Some r)
         [Send "bob" "alice" (Some "again"); Reject 2 "bob";
          Accept 2 "alice"]
         (snd (acceptRequest 2 "bob" Trace.db_requested)))
    = Some (mkChatRequest 2 "alice" "bob" Accepted "").
Proof.
  assert (db_wf (snd (acceptRequest 2 "bob" Trace.db_requested))) as Hwf
    by (apply acceptRequest_wf, db_requested_wf).
  assert (requests_unique (snd (acceptRequest 2 "bob" Trace.db_requested)))
    as Hok by (apply acceptRequest_keeps, db_requested_unique).
  assert (ChatRequest_findById 2
            (snd (acceptRequest 2 "bob" Trace.db_requested))
          = Some (mkChatRequest 2 "alice" "bob" Accepted "")) as Hf
    by reflexivity.
  assert (Accepted ≠ Pending) as Hst by discriminate.
  split; [exact Hwf|]. split; [exact Hok|]. split; [exact Hf|].
  split; [exact Hst|].
  exact (proj1 (proj2 (accepted_request_is_final (λ r, Some r) 2 "bob"
                         _ _
                         [Send "bob" "alice" (Some "again"); Reject 2 "bob";
                          Accept 2 "alice"]
                         Hwf Hok Hf Hst) eq_refl)).
Defined.

(** A rejection can be reversed: after bob rejected alice's request, alice
    sends again, the same request is pending once more, and bob's accept
    of it succeeds. *)
Lemma rejection_is_not_final :
  is_error (fst (rejectRequest 2 "bob" Trace.db_requested)) = false
  ∧ is_error
      (fst (acceptRequest 2 "bob"
              (snd (sendChatRequest "alice" "bob" (Some "again")
                      (snd (rejectRequest 2 "bob" Trace.db_requested))))))
    = false.
Proof. split; reflexivity. Qed.

(** X22. A request is listed while it is open. On a well-formed store,
    after a request was sent with success it is among the sent requests
    of its sender and the received requests of its receiver; the receiver
    can accept it and can reject it, and after either no list of any user
    shows a request of that id. *)
Theorem request_listed_until_processed
    (senderId receiverId : UserId) (message : option string) (d : Db)
    (code : nat) (text : string) (rq : ChatRequest) :
  db_wf d → requests_ok d →
  fst (sendChatRequest senderId receiverId message d)
  = sendSuccess code text rq →
  let d1 := snd (sendChatRequest senderId receiverId message d) in
  (In rq (listed (getSentRequests senderId d1))
   ∧ In rq (listed (getReceivedRequests receiverId d1)))
  ∧ ∀ d2,
      d2 = snd (acceptRequest (req_id rq) receiverId d1)
      ∨ d2 = snd (rejectRequest (req_id rq) receiverId d1) →
      d2 ≠ d1
      ∧ ∀ u x, In x (listed (getSentRequests u d2))
               ∨ In x (listed (getReceivedRequests u d2)) →
               req_id x ≠ req_id rq.
Proof.
  intros Hwf Hok Hres d1.
  pose proof (sendChatRequest_success _ _ _ _ _ _ _ Hres)
    as (Hfind & Hst & Hs & Hr & _).
  pose proof (sendChatRequest_ok senderId receiverId message d Hwf Hok)
    as [_ Hok1].
  fold d1 in Hfind, Hok1. clearbody d1.
  apply find_some in Hfind as [Hin _]. split.
  - unfold getSentRequests, getReceivedRequests, listed.
    split; apply in_rev; rewrite rev_involutive; apply filter_In;
      (split; [done|]); rewrite Hst.
    + by rewrite Hs, String.eqb_refl.
    + by rewrite Hr, String.eqb_refl.
  - assert (ChatRequest_findById (req_id rq) d1 = Some rq) as Hf
      by (apply find_by_unique; [apply Hok1 | done]).
    intros d2 Hd2.
    assert ((is_error (fst (acceptRequest (req_id rq) receiverId d1)) = false
             ∧ d2 = snd (acceptRequest (req_id rq) receiverId d1))
            ∨ (is_error (fst (rejectRequest (req_id rq) receiverId d1)) = false
               ∧ d2 = snd (rejectRequest (req_id rq) receiverId d1))) as Hdone.
    { destruct Hd2 as [->| ->]; [left|right]; (split; [|done]).
      - destruct (acceptRequest_creates _ _ _ _ Hf Hr Hst)
          as (data & d' & -> & _). done.
      - unfold rejectRequest. rewrite Hf, Hr, String.eqb_refl, Hst.
        by rewrite bool_decide_eq_true_2. }
    apply processed_request in Hdone as (rq' & st & Hne & Hreqs & Hf2).
    split.
    + intros ->. rewrite Hf in Hf2. injection Hf2 as Hf2.
      rewrite Hf2 in Hst. simpl in Hst. congruence.
    + assert (∀ x, In x (requests d2) → req_status x = Pending →
                   req_id x ≠ req_id rq) as Hopen.
      { intros x Hx Hp. rewrite Hreqs in Hx.
        assert (req_id rq' = req_id rq) as Hid.
        { pose proof (find_by_Some _ _ _ _ Hf2) as [Hid _]. exact Hid. }
        apply In_replace_by_other in Hx as [->|[_ Hx]].
        - simpl in Hp. congruence.
        - simpl in Hx. congruence. }
      intros u x Hx. unfold getSentRequests, getReceivedRequests, listed in Hx.
      destruct Hx as [Hx|Hx]; apply in_rev, filter_In in Hx as [Hx Hp];
        apply andb_true_iff in Hp as [_ Hp];
        apply bool_decide_eq_true in Hp; by apply Hopen.
Qed.

Lemma request_listed_until_processed_witness :
  db_wf Trace.db_requested ∧ requests_ok Trace.db_requested
  ∧ fst (sendChatRequest "carol" "alice" (Some "hello") Trace.db_requested)
    = sendSuccess 201 "Chat request sent successfully"
        (mkChatRequest 3 "carol" "alice" Pending "hello")
  ∧ In (mkChatRequest 3 "carol" "alice" Pending "hello")
       (listed (getReceivedRequests "alice"
                  (snd (sendChatRequest "carol" "alice" (Some "hello")
                          Trace.db_requested)))).
Proof.
  split; [exact db_requested_wf|]. split; [exact db_requested_ok|].
  split; [reflexivity|].
  exact (proj2 (proj1 (request_listed_until_processed "carol" "alice"
                         (Some "hello") Trace.db_requested 201
                         "Chat request sent successfully"
                         (mkChatRequest 3 "carol" "alice" Pending "hello")
                         db_requested_wf db_requested_ok eq_refl))).
Defined.

(* ===================================================================== *)
(** ** Pagination, the two gates and the model method                     *)
(* ===================================================================== *)

(** X23. The pagination block of the history endpoint is consistent. For
    a page number and a limit of at least 1, a successful answer carries
    a number of pages that is the total count divided by the limit and
    rounded up, and [hasMore] is true exactly when the current page is
    before the last one. *)
Theorem getMessages_pagination_consistent
    (conversationId : nat) (userId : UserId) (page limit : Z) (d : Db)
    (text : string) (data : MessagesData) :
  (1 ≤ page)%Z → (1 ≤ limit)%Z →
  fst (getMessages conversationId userId page limit d)
  = sendSuccess 200 text data →
  let p := md_pagination data in
  ∃ pages,
    totalPages p = Some pages
    ∧ ((pages - 1) * limit < Z.of_nat (totalMessages p) ≤ pages * limit)%Z
    ∧ (hasMore p = true ↔ (currentPage p < pages)%Z).
Proof.
  intros Hpage Hlimit Hres p. subst p.
  unfold getMessages, Conversation_findById in Hres.
  destruct (find_by conv_id conversationId (conversations d)) as [conv|];
    [|discriminate Hres].
  destruct (negb (isParticipant userId conv)); [discriminate Hres|].
  cbv zeta in Hres.
  destruct ((page - 1) * limit <? 0)%Z; [discriminate Hres|].
  injection Hres as _ <-.
  cbn [md_pagination totalPages totalMessages hasMore currentPage].
  set (all := Message_find _ d).
  unfold ceil_div. rewrite bool_decide_eq_false_2 by lia.
  eexists. split; [done|].
  assert (length (recent_page conversationId ((page - 1) * limit) limit d)
          = Nat.min (Z.abs_nat limit)
                    (length all - Z.to_nat ((page - 1) * limit))) as ->.
  { unfold recent_page. fold all. rewrite bool_decide_eq_false_2 by lia.
    by rewrite length_take, length_drop, length_rev. }
  pose proof (Z.div_mod (- Z.of_nat (length all)) limit ltac:(lia)) as Hdm.
  pose proof (Z.mod_pos_bound (- Z.of_nat (length all)) limit ltac:(lia))
    as Hmod.
  split; [nia|]. rewrite Z.ltb_lt. split; intros H; nia.
Qed.

Lemma getMessages_pagination_consistent_witness :
  (1 ≤ 1)%Z ∧ (1 ≤ 50)%Z
  ∧ ∃ pages,
      totalPages (mkPagination 1 (Some 1%Z) 1 false) = Some pages
      ∧ ((pages - 1) * 50 < 1 ≤ pages * 50)%Z
      ∧ (hasMore (mkPagination 1 (Some 1%Z) 1 false) = true ↔ (1 < pages)%Z).
Proof.
  split; [lia|]. split; [lia|].
  exact (getMessages_pagination_consistent 0 "bob" 1 50 (db Trace.srv_sent)
           "Messages retrieved successfully"
           (mkMessagesData [mkMessage 1 0 "alice" "bob" Text "hi" Sent false]
              (mkPagination 1 (Some 1%Z) 1 false))
           ltac:(lia) ltac:(lia) eq_refl).
Defined.

Lemma split_space_no_space (s : string) :
  no_space s = true → split_space s = [s].
Proof.
  induction s as [|c s IH]; [done|]. simpl. intros H.
  apply andb_true_iff in H as [Hc Hs]. apply negb_true_iff in Hc.
  by rewrite Hc, (IH Hs).
Qed.

Lemma split_space_app (a b : string) :
  no_space a = true →
  split_space (a ++ String Ascii.Space b)%string = a :: split_space b.
Proof.
  induction a as [|c a IH]; [done|]. simpl. intros H.
  apply andb_true_iff in H as [Hc Ha]. apply negb_true_iff in Hc.
  by rewrite Hc, (IH Ha).
Qed.

Lemma prefix_app (a b : string) : String.prefix a (a ++ b)%string = true.
Proof.
  induction a as [|c a IH]; simpl; [by destruct b|].
  by destruct (Ascii.ascii_dec c c).
Qed.

(** X24. The two gates admit the same callers. The HTTP gate reads its
    token as the second space-separated piece of any header that starts
    with "Bearer"; for such a header whose scheme and token hold no
    space, it lets the request pass as user [u] exactly when the socket
    handshake admits the same token as [u], and both do so exactly when
    the token is not empty, verifies to [u], and [u] is a stored user. *)
Theorem gates_pass_verified_stored_users
    (verifyToken : string → option UserId) (scheme token : string)
    (d : Db) (u : UserId) :
  no_space scheme = true → no_space token = true →
  let header := ("Bearer" ++ scheme ++ String Ascii.Space token)%string in
  let sound := token ≠ "" ∧ verifyToken token = Some u
               ∧ is_Some (users d !! u) in
  bearer_token (Some header) = Some token
  ∧ (protect verifyToken (Some header) d = Passed u ↔ sound)
  ∧ (socket_auth verifyToken (Some token) d = Authenticated u ↔ sound).
Proof.
  intros Hscheme Htoken header sound.
  assert (bearer_token (Some header) = Some token) as Hb.
  { unfold bearer_token, header. rewrite prefix_app.
    change ("Bearer" ++ scheme ++ String Ascii.Space token)%string
      with (("Bearer" ++ scheme) ++ String Ascii.Space token)%string.
    rewrite split_space_app, split_space_no_space; [done|done|].
    simpl. exact Hscheme. }
  assert (socket_auth verifyToken (Some token) d = Authenticated u ↔ sound) as Hs.
  { unfold socket_auth, sound. cbn [falsy default from_option]. unfold id.
    destruct (String.eqb token "") eqn:He.
    - apply String.eqb_eq in He. split; [discriminate|tauto].
    - apply String.eqb_neq in He.
      destruct (verifyToken token) as [id|]; [|split; [discriminate|]].
      + destruct (users d !! id) eqn:Hid.
        * split; [intros [= ->]; eauto|]. by intros (_ & [= ->] & _).
        * split; [discriminate|]. intros (_ & [= ->] & [x Hx]). congruence.
      + by intros (_ & ? & _). }
  split; [exact Hb|]. split; [|exact Hs].
  rewrite <- Hs. unfold protect, socket_auth. rewrite Hb.
  cbn [falsy default from_option]. unfold id.
  destruct (String.eqb token ""); [done|].
  destruct (verifyToken token) as [id|]; [|done].
  destruct (users d !! id); [|done].
  split; by intros [= ->].
Qed.

Lemma gates_pass_verified_stored_users_witness :
  no_space "" = true ∧ no_space "tok-alice" = true
  ∧ protect (λ t, if String.eqb t "tok-alice" then Some "alice" else None)
      (Some "Bearer tok-alice") Scenario.db0
    = Passed "alice".
Proof.
  split; [reflexivity|]. split; [reflexivity|].
  apply (proj1 (proj2 (gates_pass_verified_stored_users
                         (λ t, if String.eqb t "tok-alice"
                               then Some "alice" else None)
                         "" "tok-alice" Scenario.db0 "alice"
                         eq_refl eq_refl))).
  split; [discriminate|]. split; [reflexivity|]. vm_compute. eauto.
Defined.

(** X25. [getOtherParticipant] on a conversation of two different users:
    asked for one of them it gives the other, so asking again with the
    answer gives the first back; asked for anyone else it gives the
    first participant. *)
Theorem getOtherParticipant_swaps (c : Conversation) (a b u : UserId) :
  participants c = [a; b] → a ≠ b →
  getOtherParticipant a c = Some b
  ∧ getOtherParticipant b c = Some a
  ∧ (isParticipant u c = true →
     getOtherParticipant u c ≫= (λ p, getOtherParticipant p c) = Some u)
  ∧ (isParticipant u c = false → getOtherParticipant u c = Some a).
Proof.
  intros Hps Hne. unfold getOtherParticipant, isParticipant. rewrite Hps.
  cbn [List.find existsb].
  assert (String.eqb a b = false) as Hab by by apply String.eqb_neq.
  assert (String.eqb b a = false) as Hba
    by (apply String.eqb_neq; congruence).
  rewrite !String.eqb_refl, Hab, Hba.
  cbn [negb]. split; [done|]. split; [done|].
  destruct (String.eqb a u) eqn:Ha, (String.eqb b u) eqn:Hb; cbn.
  - apply String.eqb_eq in Ha, Hb. congruence.
  - apply String.eqb_eq in Ha. subst u.
    split; [|discriminate]. intros _.
    by rewrite ?String.eqb_refl, ?Hab, ?Hba.
  - apply String.eqb_eq in Hb. subst u.
    split; [|discriminate]. intros _.
    by rewrite ?String.eqb_refl, ?Hab, ?Hba.
  - split; [discriminate|done].
Qed.

Lemma getOtherParticipant_swaps_witness :
  participants (mkConversation 0 ["alice"; "bob"] None ∅) = ["alice"; "bob"]
  ∧ "alice" ≠ "bob"
  ∧ getOtherParticipant "alice" (mkConversation 0 ["alice"; "bob"] None ∅)
    = Some "bob".
Proof.
  split; [reflexivity|]. split; [discriminate|].
  exact (proj1 (getOtherParticipant_swaps
                  (mkConversation 0 ["alice"; "bob"] None ∅)
                  "alice" "bob" "carol" eq_refl ltac:(discriminate))).
Defined.
